(** * Registrering: the serialized state store (Server/stateStore.js)

    A shallow embedding of the state store of the reception display
    backend: the document normaliser, the store operations, the persistence
    unit and the promise chain that serialises the writes.

    Conventions of the embedding.
    - A JavaScript string is its sequence of UTF-16 code units.
    - A JavaScript value is a [value]; an object is the list of its
      properties, read with first match, so that a later entry of an object
      literal is put in front of the earlier ones.
    - [crypto.randomUUID] and [Date] belong to the host: the n-th identifier
      drawn is [randomUUID n], and [dateParse s] is the time value of
      [new Date(s)], [None] standing for an invalid date (NaN).
    - [deepClone] copies plain data and is the identity here.
    - The backing file holds the value [JSON.parse] reads back from it. *)

From Stdlib Require Import ZArith NArith Ascii String.
From stdpp Require Import base decidable list gmap strings.

Set Warnings "-register-all".
Open Scope list_scope.

(** ** Strings *)

Abbreviation jsstring := (list N).

Fixpoint lit (s : string) : jsstring :=
  match s with
  | EmptyString => []
  | String a r => N_of_ascii a :: lit r
  end.

(** WhiteSpace and LineTerminator code points, as [String.prototype.trim]
    strips them. *)
Definition is_space (c : N) : bool :=
  ((9 <=? c) && (c <=? 13) || (c =? 32) || (c =? 160) || (c =? 5760)
   || (8192 <=? c) && (c <=? 8202) || (c =? 8232) || (c =? 8233)
   || (c =? 8239) || (c =? 8287) || (c =? 12288) || (c =? 65279))%N.

Fixpoint trimStart (s : jsstring) : jsstring :=
  match s with
  | [] => []
  | c :: r => if is_space c then trimStart r else s
  end.

Definition trimEnd (s : jsstring) : jsstring := reverse (trimStart (reverse s)).

Definition trim (s : jsstring) : jsstring := trimEnd (trimStart s).

(** Nothing to strip at the front. *)
Definition starts_clean (s : jsstring) : Prop :=
  match s with
  | [] => True
  | c :: _ => is_space c = false
  end.

(** ** Values *)

(** Numbers are observed through their truthiness only. *)
Inductive value :=
| VUndefined
| VNull
| VBool (b : bool)
| VNumber (z : Z)
| VString (s : jsstring)
| VArray (items : list value)
| VObject (props : list (jsstring * value)).

Abbreviation object := (list (jsstring * value)).

Fixpoint lookup_prop (k : jsstring) (props : object) : value :=
  match props with
  | [] => VUndefined
  | (k', v) :: r => if decide (k = k') then v else lookup_prop k r
  end.

(** [v.k] for the property names this program reads (none of them is an
    array index or [length]). *)
Definition prop (k : jsstring) (v : value) : value :=
  match v with
  | VObject ps => lookup_prop k ps
  | _ => VUndefined
  end.

(** [Boolean(v)]. *)
Definition truthy (v : value) : bool :=
  match v with
  | VUndefined | VNull => false
  | VBool b => b
  | VNumber z => negb (z =? 0)%Z
  | VString s => if s is [] then false else true
  | VArray _ | VObject _ => true
  end.

(** [!v || typeof v !== 'object'] is false exactly here. *)
Definition is_object (v : value) : bool :=
  match v with
  | VArray _ | VObject _ => true
  | _ => false
  end.

Definition nonempty (s : jsstring) : bool := if s is [] then false else true.

(** [typeof v === 'string' && v.trim() ? v.trim() : dflt] *)
Definition trimmed_or (dflt : jsstring) (v : value) : jsstring :=
  match v with
  | VString s => if nonempty (trim s) then trim s else dflt
  | _ => dflt
  end.

(** [typeof v === 'string' ? v.trim() : ''] *)
Definition trimmed (v : value) : jsstring :=
  match v with
  | VString s => trim s
  | _ => []
  end.

(** [typeof v === 'string' ? v : null], with [None] for [null]. *)
Definition as_string (v : value) : option jsstring :=
  match v with
  | VString s => Some s
  | _ => None
  end.

(** ** The document *)

Record Employee := mkEmployee {
  emp_id : jsstring;
  emp_name : jsstring;
  emp_department : jsstring;
  emp_role : jsstring;
  emp_photo : jsstring;
  emp_isCheckedIn : bool;
}.

Record Absence := mkAbsence {
  abs_id : jsstring;
  abs_employeeId : jsstring;
  abs_from : jsstring;
  abs_to : jsstring;
  abs_reason : jsstring;
}.

Record Branding := mkBranding { logo : jsstring }.

Record Document := mkDocument {
  branding : Branding;
  employees : list Employee;
  absences : list Absence;
}.

#[global] Instance Employee_eq_dec : EqDecision Employee.
Proof. solve_decision. Defined.
#[global] Instance Absence_eq_dec : EqDecision Absence.
Proof. solve_decision. Defined.
#[global] Instance Branding_eq_dec : EqDecision Branding.
Proof. solve_decision. Defined.
#[global] Instance Document_eq_dec : EqDecision Document.
Proof. solve_decision. Defined.

Definition k_id := lit "id".
Definition k_name := lit "name".
Definition k_department := lit "department".
Definition k_role := lit "role".
Definition k_photo := lit "photo".
Definition k_isCheckedIn := lit "isCheckedIn".
Definition k_employeeId := lit "employeeId".
Definition k_from := lit "from".
Definition k_to := lit "to".
Definition k_reason := lit "reason".
Definition k_logo := lit "logo".
Definition k_branding := lit "branding".
Definition k_employees := lit "employees".
Definition k_absences := lit "absences".

(** 'Ukendt medarbejder', 'Øvrige' (Ø is U+00D8) and 'other'. *)
Definition unknown_name : jsstring := lit "Ukendt medarbejder".
Definition other_department : jsstring := 216%N :: lit "vrige".
Definition other_reason : jsstring := lit "other".

Definition DEFAULT_EMPLOYEES : list Employee :=
  [ mkEmployee (lit "amalie-korvig") (lit "Amalie Korvig") (lit "Administration")
      (lit "Receptionist") [] true;
    mkEmployee (lit "jonas-lindholm") (lit "Jonas Lindholm") (lit "Administration")
      (lit "HR-partner") [] false;
    mkEmployee (lit "freja-holm") (lit "Freja Holm") (lit "Design")
      (lit "Lead Designer") [] true;
    mkEmployee (lit "mathias-hagen") (lit "Mathias Hagen") (lit "Design")
      (lit "UX Designer") [] false;
    mkEmployee (lit "henrik-nord") (lit "Henrik Nord") (lit "Salg")
      (lit "Salgschef") [] true;
    mkEmployee (lit "sofie-iversen") (lit "Sofie Iversen") (lit "Salg")
      (lit "Account Manager") [] false ].

Definition DEFAULT_STATE : Document :=
  mkDocument (mkBranding []) DEFAULT_EMPLOYEES [].

(** The object a record is, as the object spread and [JSON.stringify] see it. *)
Definition employeeProps (e : Employee) : object :=
  [ (k_id, VString (emp_id e)); (k_name, VString (emp_name e));
    (k_department, VString (emp_department e)); (k_role, VString (emp_role e));
    (k_photo, VString (emp_photo e)); (k_isCheckedIn, VBool (emp_isCheckedIn e)) ].

Definition absenceProps (a : Absence) : object :=
  [ (k_id, VString (abs_id a)); (k_employeeId, VString (abs_employeeId a));
    (k_from, VString (abs_from a)); (k_to, VString (abs_to a));
    (k_reason, VString (abs_reason a)) ].

Definition documentValue (d : Document) : value :=
  VObject
    [ (k_branding, VObject [ (k_logo, VString (logo (branding d))) ]);
      (k_employees, VArray (map (fun e => VObject (employeeProps e)) (employees d)));
      (k_absences, VArray (map (fun a => VObject (absenceProps a)) (absences d))) ].

(** ** The host *)

Class Host := {
  randomUUID : nat -> jsstring;
  dateParse : jsstring -> option Z;
}.

(** ** The normaliser *)

Section Normaliser.
Context `{Host}.

(** [new Date(from) > new Date(to)]: false as soon as one date is invalid. *)
Definition date_gt (from to : jsstring) : bool :=
  match dateParse from, dateParse to with
  | Some a, Some b => (b <? a)%Z
  | _, _ => false
  end.

(** Functions that draw identifiers take the number of identifiers drawn so
    far and return the new one. *)
Definition normaliseEmployee (employee : value) (n : nat) : Employee * nat :=
  if negb (is_object employee) then
    (mkEmployee (randomUUID n) unknown_name other_department [] [] false, S n)
  else
    let name := trimmed_or unknown_name (prop k_name employee) in
    let department := trimmed_or other_department (prop k_department employee) in
    let role := trimmed (prop k_role employee) in
    let photo := trimmed (prop k_photo employee) in
    let checked := truthy (prop k_isCheckedIn employee) in
    match prop k_id employee with
    | VString s =>
        if nonempty (trim s)
        then (mkEmployee (trim s) name department role photo checked, n)
        else (mkEmployee (randomUUID n) name department role photo checked, S n)
    | _ => (mkEmployee (randomUUID n) name department role photo checked, S n)
    end.

Definition normaliseBranding (raw : value) : Branding :=
  if negb (is_object raw) then mkBranding []
  else match prop k_logo raw with
       | VString s => mkBranding s
       | _ => mkBranding []
       end.

(** [validIds = null] is [None]. *)
Definition normaliseAbsence (absence : value) (validIds : option (gset jsstring))
    (n : nat) : option Absence * nat :=
  if negb (is_object absence) then (None, n)
  else
    match as_string (prop k_employeeId absence) with
    | None => (None, n)
    | Some employeeId =>
        if negb (nonempty employeeId)
           || match validIds with
              | Some ids => negb (bool_decide (employeeId ∈ ids))
              | None => false
              end
        then (None, n)
        else
          match as_string (prop k_from absence), as_string (prop k_to absence) with
          | Some from, Some to =>
              if negb (nonempty from) || negb (nonempty to) then (None, n)
              else if date_gt from to then (None, n)
              else
                let reason := match prop k_reason absence with
                              | VString r => r
                              | _ => other_reason
                              end in
                match prop k_id absence with
                | VString s =>
                    if nonempty (trim s)
                    then (Some (mkAbsence (trim s) employeeId from to reason), n)
                    else (Some (mkAbsence (randomUUID n) employeeId from to reason), S n)
                | _ => (Some (mkAbsence (randomUUID n) employeeId from to reason), S n)
                end
          | _, _ => (None, n)
          end
    end.

(** [absences.map(normaliseAbsence).filter(Boolean)] *)
Fixpoint normaliseAbsenceList (absences : list value) (validIds : gset jsstring)
    (n : nat) : list Absence * nat :=
  match absences with
  | [] => ([], n)
  | a :: r =>
      let '(oa, n1) := normaliseAbsence a (Some validIds) n in
      let '(rest, n2) := normaliseAbsenceList r validIds n1 in
      (match oa with Some x => x :: rest | None => rest end, n2)
  end.

(** [while (taken.has(candidate)) candidate = crypto.randomUUID()], at most
    [fuel] turns; [None] when the turns are used up. *)
Fixpoint free_candidate (fuel : nat) (taken : gset jsstring) (candidate : jsstring)
    (n : nat) : option (jsstring * nat) :=
  if bool_decide (candidate ∈ taken) then
    match fuel with
    | O => None
    | S fuel' => free_candidate fuel' taken (randomUUID n) (S n)
    end
  else Some (candidate, n).

Definition set_id (e : Employee) (i : jsstring) : Employee :=
  mkEmployee i (emp_name e) (emp_department e) (emp_role e) (emp_photo e)
    (emp_isCheckedIn e).

Fixpoint normaliseEmployees (fuel : nat) (taken : gset jsstring)
    (employees : list value) (n : nat) : option (list Employee * nat) :=
  match employees with
  | [] => Some ([], n)
  | employee :: r =>
      let '(normalised, n1) := normaliseEmployee employee n in
      let '(candidate, n2) :=
        if nonempty (emp_id normalised) then (emp_id normalised, n1)
        else (randomUUID n1, S n1) in
      match free_candidate fuel taken candidate n2 with
      | None => None
      | Some (candidate', n3) =>
          match normaliseEmployees fuel ({[candidate']} ∪ taken) r n3 with
          | None => None
          | Some (rest, n4) => Some (set_id normalised candidate' :: rest, n4)
          end
      end
  end.

Definition normaliseEmployeeList (fuel : nat) (employees : list value) (n : nat)
    : option (list Employee * nat) :=
  normaliseEmployees fuel ∅ employees n.

Definition normaliseState (fuel : nat) (raw : value) (n : nat)
    : option (Document * nat) :=
  if negb (is_object raw) then Some (DEFAULT_STATE, n)
  else
    let branding := normaliseBranding (prop k_branding raw) in
    let employees :=
      match prop k_employees raw with
      | VArray (e :: r) => normaliseEmployeeList fuel (e :: r) n
      | _ => Some (DEFAULT_EMPLOYEES, n)
      end in
    match employees with
    | None => None
    | Some (employees, n1) =>
        let validIds : gset jsstring := list_to_set (map emp_id employees) in
        let '(absences, n2) :=
          match prop k_absences raw with
          | VArray l => normaliseAbsenceList l validIds n1
          | _ => ([], n1)
          end in
        Some (mkDocument branding employees absences, n2)
    end.

End Normaliser.

(** ** The store *)

(** What a rejected promise carries: [new Error(message)] or the error of a
    failed file system call. *)
Inductive exn :=
| Error (message : jsstring)
| FsError (code : jsstring).

(** 'Navn og titel er påkrævet', 'Medarbejder ikke fundet',
    'Ugyldige fraværsoplysninger', 'Fravær ikke fundet'. *)
Definition name_and_role_required : jsstring :=
  lit "Navn og titel er p" ++ [229%N] ++ lit "kr" ++ [230%N] ++ lit "vet".
Definition employee_not_found : jsstring := lit "Medarbejder ikke fundet".
Definition invalid_absence : jsstring :=
  lit "Ugyldige frav" ++ [230%N] ++ lit "rsoplysninger".
Definition absence_not_found : jsstring := lit "Frav" ++ [230%N] ++ lit "r ikke fundet".

(** The error kinds of the specification, read off the thrown error. *)
Inductive ErrorKind := ValidationError | NotFoundError | PersistenceError | UnknownError.

Definition error_kind (e : exn) : ErrorKind :=
  match e with
  | FsError _ => PersistenceError
  | Error m =>
      if decide (m = name_and_role_required) then ValidationError
      else if decide (m = invalid_absence) then ValidationError
      else if decide (m = employee_not_found) then NotFoundError
      else if decide (m = absence_not_found) then NotFoundError
      else UnknownError
  end.

(** The backing file: absent, not parseable, or holding a JSON value. *)
Inductive File :=
| NoFile
| Corrupt
| Json (v : value).

(** How the two file system calls of [persist] end: both succeed, [mkdir]
    fails, or [writeFile] fails leaving [residue] behind. *)
Inductive io_result :=
| IoOk
| MkdirFailed (code : jsstring)
| WriteFailed (code : jsstring) (residue : File).

(** [this.state], the backing file and the number of identifiers drawn. *)
Record World := mkWorld {
  state : Document;
  file : File;
  uuids : nat;
}.

Definition with_state (w : World) (d : Document) (n : nat) : World :=
  mkWorld d (file w) n.

Definition with_file (w : World) (f : File) : World :=
  mkWorld (state w) f (uuids w).

(** What an operation resolves with. *)
Inductive retval :=
| LogoResult (snapshot : Document) (previousLogo : jsstring)
| EmployeeResult (e : Employee)
| AbsenceResult (a : Absence).

(** What a task holds across [await this.persist()]. *)
Inductive pending :=
| PendingLogo (previousLogo : jsstring)
| PendingEmployee (e : Employee)
| PendingAbsence (a : Absence).

Inductive outcome :=
| Fulfilled (r : retval)
| Rejected (e : exn).

(** [JSON.parse(JSON.stringify(value))], on plain data. *)
Definition deepClone {A : Type} (value : A) : A := value.

Definition getState (w : World) : Document := deepClone (state w).

(** The statement after the [await]: [getState()] is read then. *)
Definition finish (p : pending) (w : World) : retval :=
  match p with
  | PendingLogo previousLogo => LogoResult (getState w) previousLogo
  | PendingEmployee e => EmployeeResult (deepClone e)
  | PendingAbsence a => AbsenceResult (deepClone a)
  end.

Definition persist (io : io_result) (w : World) : World * option exn :=
  match io with
  | IoOk => (with_file w (Json (documentValue (state w))), None)
  | MkdirFailed code => (w, Some (FsError code))
  | WriteFailed code residue => (with_file w residue, Some (FsError code))
  end.

Definition set_checked (e : Employee) (b : bool) : Employee :=
  mkEmployee (emp_id e) (emp_name e) (emp_department e) (emp_role e) (emp_photo e) b.

(** [employees.map(...)] of [updateEmployee] and [setEmployeeStatus]: [f] is
    applied to the employees with identifier [id], and the last result is
    what the closure leaves in [updatedEmployee]. *)
Fixpoint map_matching (id : jsstring) (f : Employee -> nat -> Employee * nat)
    (es : list Employee) (n : nat) : list Employee * option Employee * nat :=
  match es with
  | [] => ([], None, n)
  | e :: r =>
      if decide (emp_id e = id) then
        let '(e', n1) := f e n in
        let '(r', updated, n2) := map_matching id f r n1 in
        (e' :: r', Some (default e' updated), n2)
      else
        let '(r', updated, n2) := map_matching id f r n in
        (e :: r', updated, n2)
  end.

(** The [forEach] of [removeEmployee]. *)
Definition removeEmployee_scan (id : jsstring) (es : list Employee)
    : option Employee * list Employee :=
  foldl (fun acc e =>
           if decide (emp_id e = id) then (Some e, acc.2)
           else (acc.1, acc.2 ++ [e]))
        (None, []) es.

(** The [filter] of [removeAbsence], whose callback records the match. *)
Definition removeAbsence_scan (id : jsstring) (l : list Absence)
    : option Absence * list Absence :=
  foldl (fun acc a =>
           if decide (abs_id a = id) then (Some a, acc.2)
           else (acc.1, acc.2 ++ [a]))
        (None, []) l.

Section Store.
Context `{Host}.

Definition task := World -> World * (exn + pending).

Definition setBrandingLogo_task (logoPath : jsstring) : task := fun w =>
  let previousLogo := logo (branding (state w)) in
  let d := mkDocument (mkBranding logoPath) (employees (state w)) (absences (state w)) in
  (with_state w d (uuids w), inr (PendingLogo previousLogo)).

Definition removeBrandingLogo_task : task := fun w =>
  let previousLogo := logo (branding (state w)) in
  let d := mkDocument (mkBranding []) (employees (state w)) (absences (state w)) in
  (with_state w d (uuids w), inr (PendingLogo previousLogo)).

(** [payload.id || crypto.randomUUID()] *)
Definition id_or_fresh (payload : object) (n : nat) : value * nat :=
  if truthy (lookup_prop k_id payload) then (lookup_prop k_id payload, n)
  else (VString (randomUUID n), S n).

Definition addEmployee_task (payload : object) : task := fun w =>
  let '(idv, n1) := id_or_fresh payload (uuids w) in
  let raw := VObject ((k_isCheckedIn, VBool (truthy (lookup_prop k_isCheckedIn payload)))
                      :: (k_id, idv) :: payload) in
  let '(employee, n2) := normaliseEmployee raw n1 in
  if negb (nonempty (emp_name employee)) || negb (nonempty (emp_role employee)) then
    (with_state w (state w) n2, inl (Error name_and_role_required))
  else
    let d := mkDocument (branding (state w)) (employees (state w) ++ [employee])
               (absences (state w)) in
    (with_state w d n2, inr (PendingEmployee employee)).

(** [{...employee, ...updates, id: employee.id, isCheckedIn: ...}] *)
Definition merged (employee : Employee) (updates : object) : object :=
  (k_isCheckedIn,
     VBool match lookup_prop k_isCheckedIn updates with
           | VBool b => b
           | _ => emp_isCheckedIn employee
           end)
  :: (k_id, VString (emp_id employee))
  :: updates ++ employeeProps employee.

Definition updateEmployee_task (id : jsstring) (updates : object) : task := fun w =>
  let '(es, updatedEmployee, n) :=
    map_matching id (fun e => normaliseEmployee (VObject (merged e updates)))
      (employees (state w)) (uuids w) in
  let d := mkDocument (branding (state w)) es (absences (state w)) in
  match updatedEmployee with
  | None => (with_state w d n, inl (Error employee_not_found))
  | Some e => (with_state w d n, inr (PendingEmployee e))
  end.

Definition removeEmployee_task (id : jsstring) : task := fun w =>
  match removeEmployee_scan id (employees (state w)) with
  | (None, _) => (w, inl (Error employee_not_found))
  | (Some removedEmployee, remainingEmployees) =>
      let d := mkDocument (branding (state w)) remainingEmployees
                 (filter (fun a => abs_employeeId a ≠ id) (absences (state w))) in
      (with_state w d (uuids w), inr (PendingEmployee removedEmployee))
  end.

Definition setEmployeeStatus_task (id : jsstring) (isCheckedIn : value) : task := fun w =>
  let '(es, updatedEmployee, n) :=
    map_matching id (fun e n => (set_checked e (truthy isCheckedIn), n))
      (employees (state w)) (uuids w) in
  let d := mkDocument (branding (state w)) es (absences (state w)) in
  match updatedEmployee with
  | None => (with_state w d n, inl (Error employee_not_found))
  | Some e => (with_state w d n, inr (PendingEmployee e))
  end.

Definition addAbsence_task (payload : object) : task := fun w =>
  let '(idv, n1) := id_or_fresh payload (uuids w) in
  let raw := VObject [ (k_id, idv);
                       (k_employeeId, lookup_prop k_employeeId payload);
                       (k_from, lookup_prop k_from payload);
                       (k_to, lookup_prop k_to payload);
                       (k_reason, lookup_prop k_reason payload) ] in
  match normaliseAbsence raw None n1 with
  | (None, n2) => (with_state w (state w) n2, inl (Error invalid_absence))
  | (Some absence, n2) =>
      let filtered := filter (fun entry => abs_employeeId entry ≠ abs_employeeId absence)
                        (absences (state w)) in
      let d := mkDocument (branding (state w)) (employees (state w))
                 (filtered ++ [absence]) in
      (with_state w d n2, inr (PendingAbsence absence))
  end.

Definition removeAbsence_task (id : jsstring) : task := fun w =>
  match removeAbsence_scan id (absences (state w)) with
  | (None, _) => (w, inl (Error absence_not_found))
  | (Some removed, absences) =>
      let d := mkDocument (branding (state w)) (employees (state w)) absences in
      (with_state w d (uuids w), inr (PendingAbsence removed))
  end.

(** The mutating operations, as requests. *)
Inductive op :=
| SetBrandingLogo (logoPath : jsstring)
| RemoveBrandingLogo
| AddEmployee (payload : object)
| UpdateEmployee (id : jsstring) (updates : object)
| RemoveEmployee (id : jsstring)
| SetEmployeeStatus (id : jsstring) (isCheckedIn : value)
| AddAbsence (payload : object)
| RemoveAbsence (id : jsstring).

Definition task_of (o : op) : task :=
  match o with
  | SetBrandingLogo p => setBrandingLogo_task p
  | RemoveBrandingLogo => removeBrandingLogo_task
  | AddEmployee p => addEmployee_task p
  | UpdateEmployee i u => updateEmployee_task i u
  | RemoveEmployee i => removeEmployee_task i
  | SetEmployeeStatus i v => setEmployeeStatus_task i v
  | AddAbsence p => addAbsence_task p
  | RemoveAbsence i => removeAbsence_task i
  end.

(** One operation run to its end on an idle store: the task, then
    [persist], then the return. *)
Definition run (o : op) (io : io_result) (w : World) : World * outcome :=
  match task_of o w with
  | (w1, inl e) => (w1, Rejected e)
  | (w1, inr p) =>
      match persist io w1 with
      | (w2, Some e) => (w2, Rejected e)
      | (w2, None) => (w2, Fulfilled (finish p w2))
      end
  end.

Definition setBrandingLogo (logoPath : jsstring) := run (SetBrandingLogo logoPath).
Definition removeBrandingLogo := run RemoveBrandingLogo.
Definition addEmployee (payload : object) := run (AddEmployee payload).
Definition updateEmployee (id : jsstring) (updates : object) := run (UpdateEmployee id updates).
Definition removeEmployee (id : jsstring) := run (RemoveEmployee id).
Definition setEmployeeStatus (id : jsstring) (v : value) := run (SetEmployeeStatus id v).
Definition addAbsence (payload : object) := run (AddAbsence payload).
Definition removeAbsence (id : jsstring) := run (RemoveAbsence id).

(** [init]: the file is read and normalised; a missing or unparseable file
    gives the default state, which is written out. *)
Definition init (fuel : nat) (io : io_result) (w : World) : option (World * option exn) :=
  match file w with
  | Json parsed =>
      match normaliseState fuel parsed (uuids w) with
      | Some (d, n) => Some (with_state w d n, None)
      | None => None
      end
  | _ => Some (persist io (with_state w DEFAULT_STATE (uuids w)))
  end.

(** Operations applied one after the other, the i-th with the file system
    behaving as [io i]. *)
Fixpoint run_all (io : nat -> io_result) (i : nat) (ops : list op) (w : World)
    : World * list outcome :=
  match ops with
  | [] => (w, [])
  | o :: r =>
      let '(w1, out) := run o (io i) w in
      let '(w2, outs) := run_all io (S i) r w1 in
      (w2, out :: outs)
  end.

End Store.

(** ** The queue

    [enqueue(task)] chains the task on [this.queue] and replaces
    [this.queue] by a promise that is fulfilled once the task has settled,
    whichever way. A task therefore becomes runnable when the task enqueued
    just before it has settled; the first one is chained on
    [Promise.resolve()]. Between two awaits a task runs without
    interruption, so the machine below has one step for each stretch: the
    task up to [persist]'s [await fs.mkdir], from there to
    [await fs.writeFile], and from there to the return. The file system
    calls of the task at position [i] end as [io i] says; a task whose
    [mkdir] fails never gets to [writeFile]. *)

Inductive phase :=
| Waiting
| AwaitMkdir (p : pending)
| AwaitWrite (p : pending) (data : value)
| Settled (o : outcome).

Record Machine := mkMachine {
  world : World;
  tasks : list (op * phase);
}.

(** [enqueue(task)]: the task joins the chain behind the tasks enqueued
    before it. *)
Definition enqueue (o : op) (m : Machine) : Machine :=
  mkMachine (world m) (tasks m ++ [(o, Waiting)]).

Definition is_settled (ph : phase) : bool :=
  match ph with Settled _ => true | _ => false end.

Definition is_waiting (ph : phase) : bool :=
  match ph with Waiting => true | _ => false end.

(** The promise the i-th task is chained on is fulfilled. *)
Definition queue_ready (ts : list (op * phase)) (i : nat) : bool :=
  match i with
  | O => true
  | S j => match ts !! j with
           | Some (_, ph) => is_settled ph
           | None => false
           end
  end.

Section Queue.
Context `{Host}.
Variable io : nat -> io_result.

Definition started (r : exn + pending) : phase :=
  match r with
  | inl e => Settled (Rejected e)
  | inr p => AwaitMkdir p
  end.

Inductive step : Machine -> Machine -> Prop :=
| step_enqueue m o :
    step m (enqueue o m)
| step_start m i o :
    tasks m !! i = Some (o, Waiting) ->
    queue_ready (tasks m) i = true ->
    step m (mkMachine (task_of o (world m)).1
              (<[i := (o, started (task_of o (world m)).2)]> (tasks m)))
| step_mkdir m i o p :
    tasks m !! i = Some (o, AwaitMkdir p) ->
    step m (mkMachine (world m)
              (<[i := (o, match io i with
                          | MkdirFailed code => Settled (Rejected (FsError code))
                          | _ => AwaitWrite p (documentValue (state (world m)))
                          end)]> (tasks m)))
| step_write m i o p data :
    tasks m !! i = Some (o, AwaitWrite p data) ->
    step m (match io i with
            | WriteFailed code residue =>
                mkMachine (with_file (world m) residue)
                  (<[i := (o, Settled (Rejected (FsError code)))]> (tasks m))
            | _ =>
                let w := with_file (world m) (Json data) in
                mkMachine w (<[i := (o, Settled (Fulfilled (finish p w)))]> (tasks m))
            end).

(** A step of the store itself, as opposed to a request arriving. *)
Inductive internal_step : Machine -> Machine -> Prop :=
| internal_intro m m' :
    step m m' -> map fst (tasks m') = map fst (tasks m) -> internal_step m m'.

Definition idle (w : World) : Machine := mkMachine w [].

Definition quiescent (m : Machine) : Prop :=
  Forall (fun t => is_settled t.2 = true) (tasks m).

Definition outcomes (m : Machine) : list (option outcome) :=
  map (fun t => match t.2 with Settled o => Some o | _ => None end) (tasks m).

(** No task has left [Waiting] before every task enqueued earlier settled. *)
Definition one_at_a_time (m : Machine) : Prop :=
  forall i j ti tj,
    i < j -> tasks m !! i = Some ti -> tasks m !! j = Some tj ->
    is_waiting tj.2 = false -> is_settled ti.2 = true.

Definition all_waiting (ts : list (op * phase)) : Prop :=
  Forall (fun t => t.2 = Waiting) ts.

(** The queue seen from the sequential run: [sim i w ts wc] relates the
    tasks [ts] enqueued from position [i] on, the world [w] in which the
    first of them starts and the current world [wc]. The settled tasks are
    a prefix and were run one after the other, at most one task is between
    its start and its end, and the tasks behind it wait. *)
Inductive sim : nat -> World -> list (op * phase) -> World -> Prop :=
| sim_idle i w ts :
    all_waiting ts -> sim i w ts w
| sim_settled i w o out ts w1 wc :
    run o (io i) w = (w1, out) -> sim (S i) w1 ts wc ->
    sim i w ((o, Settled out) :: ts) wc
| sim_mkdir i w o p ts wc :
    task_of o w = (wc, inr p) -> all_waiting ts ->
    sim i w ((o, AwaitMkdir p) :: ts) wc
| sim_write i w o p ts wc :
    task_of o w = (wc, inr p) -> (∀ code, io i ≠ MkdirFailed code) ->
    all_waiting ts ->
    sim i w ((o, AwaitWrite p (documentValue (state wc))) :: ts) wc.

(** How many steps the tasks still need. *)
Definition phase_weight (ph : phase) : nat :=
  match ph with
  | Waiting => 3
  | AwaitMkdir _ => 2
  | AwaitWrite _ _ => 1
  | Settled _ => 0
  end.

Definition weight (ts : list (op * phase)) : nat :=
  sum_list (map (fun t => phase_weight t.2) ts).

End Queue.

(** ** Documents in normal form *)

Section Validity.
Context `{Host}.

(** A trimmed, non-empty string. *)
Definition clean (s : jsstring) : bool := bool_decide (trim s = s) && nonempty s.

Definition canonical_employee (e : Employee) : bool :=
  clean (emp_id e) && clean (emp_name e) && clean (emp_department e)
  && bool_decide (trim (emp_role e) = emp_role e)
  && bool_decide (trim (emp_photo e) = emp_photo e).

Definition canonical_absence (ids : list jsstring) (a : Absence) : bool :=
  clean (abs_id a)
  && nonempty (abs_employeeId a) && bool_decide (abs_employeeId a ∈ ids)
  && nonempty (abs_from a) && nonempty (abs_to a)
  && negb (date_gt (abs_from a) (abs_to a)).

(** The invariants of the data model: fields in normal form, employee
    identifiers unique, every absence of an existing employee and with
    [from] not after [to]. *)
Definition valid_document (d : Document) : bool :=
  forallb canonical_employee (employees d)
  && bool_decide (NoDup (map emp_id (employees d)))
  && forallb (canonical_absence (map emp_id (employees d))) (absences d).

(** At most one absence per employee. *)
Definition one_absence_each (d : Document) : Prop :=
  NoDup (map abs_employeeId (absences d)).

(** The identifier a raw employee entry carries, if it carries one: its
    [id] when that is a string with something left after trimming. *)
Definition own_id (employee : value) : option jsstring :=
  match prop k_id employee with
  | VString s => if nonempty (trim s) then Some (trim s) else None
  | _ => None
  end.

(** The identifier list normalisation leaves an entry with, the entries
    before it being [earlier]: its own one if it is the first to carry it,
    a generated one if an earlier entry carries it too or if it has none. *)
Definition id_rule (earlier : list value) (employee : value) (e : Employee) : Prop :=
  match own_id employee with
  | Some s =>
      if bool_decide (s ∈ omap own_id earlier)
      then ∃ k, emp_id e = randomUUID k ∧ emp_id e ≠ s
      else emp_id e = s
  | None => ∃ k, emp_id e = randomUUID k
  end.

(** What [addAbsence] requires of its payload: [employeeId], [from] and
    [to] are non-empty strings and [from] is not a later date than [to]. *)
Definition acceptable_absence (payload : object) : bool :=
  match as_string (lookup_prop k_employeeId payload),
        as_string (lookup_prop k_from payload),
        as_string (lookup_prop k_to payload) with
  | Some e, Some f, Some t =>
      nonempty e && nonempty f && nonempty t && negb (date_gt f t)
  | _, _, _ => false
  end.

(** The record [updateEmployee] leaves for an employee in normal form: the
    fields named in [updates] are normalised anew, the others stay. *)
Definition has_key (k : jsstring) (o : object) : bool :=
  bool_decide (k ∈ map fst o).

Definition apply_updates (e : Employee) (updates : object) : Employee :=
  mkEmployee
    (emp_id e)
    (if has_key k_name updates
     then trimmed_or unknown_name (lookup_prop k_name updates) else emp_name e)
    (if has_key k_department updates
     then trimmed_or other_department (lookup_prop k_department updates)
     else emp_department e)
    (if has_key k_role updates
     then trimmed (lookup_prop k_role updates) else emp_role e)
    (if has_key k_photo updates
     then trimmed (lookup_prop k_photo updates) else emp_photo e)
    (match lookup_prop k_isCheckedIn updates with
     | VBool b => b
     | _ => emp_isCheckedIn e
     end).

End Validity.

(** ** A host to run examples on

    Identifiers [uuid-], [uuid-x], [uuid-xx], ... and the date-only form
    [YYYY-MM-DD] of the date-time string format, read as UTC midnight in
    milliseconds since the epoch; any other string is an invalid date. *)

Definition test_uuid (n : nat) : jsstring := lit "uuid-" ++ replicate n 120%N.

Definition digit (c : N) : option Z :=
  if ((48 <=? c) && (c <=? 57))%N then Some (Z.of_N c - 48)%Z else None.

Definition days_in_month (y m : Z) : Z :=
  if (m =? 2)%Z then
    if ((y mod 4 =? 0) && (negb (y mod 100 =? 0) || (y mod 400 =? 0)))%Z
    then 29%Z else 28%Z
  else if ((m =? 4) || (m =? 6) || (m =? 9) || (m =? 11))%Z then 30%Z
  else 31%Z.

Definition days_from_civil (y m d : Z) : Z :=
  let y' := (if m <=? 2 then y - 1 else y)%Z in
  let era := (y' / 400)%Z in
  let yoe := (y' - era * 400)%Z in
  let doy := ((153 * (if 2 <? m then m - 3 else m + 9) + 2) / 5 + d - 1)%Z in
  let doe := (yoe * 365 + yoe / 4 - yoe / 100 + doy)%Z in
  (era * 146097 + doe - 719468)%Z.

Definition iso_date (s : jsstring) : option Z :=
  match s with
  | [y1; y2; y3; y4; 45%N; m1; m2; 45%N; d1; d2] =>
      match digit y1, digit y2, digit y3, digit y4,
            digit m1, digit m2, digit d1, digit d2 with
      | Some a, Some b, Some c, Some d, Some e, Some f, Some g, Some h =>
          let y := (a * 1000 + b * 100 + c * 10 + d)%Z in
          let m := (e * 10 + f)%Z in
          let dd := (g * 10 + h)%Z in
          if ((1 <=? m) && (m <=? 12) && (1 <=? dd) && (dd <=? days_in_month y m))%Z
          then Some (days_from_civil y m dd * 86400000)%Z
          else None
      | _, _, _, _, _, _, _, _ => None
      end
  | _ => None
  end.

Definition test_host : Host := {| randomUUID := test_uuid; dateParse := iso_date |}.

Definition fresh_world : World := mkWorld DEFAULT_STATE NoFile 0.

(** [{name: "", role: "X"}] and [{name: "A", role: "B"}]. *)
Definition payload_blank_name : object :=
  [ (k_name, VString []); (k_role, VString (lit "X")) ].
Definition payload_A_B : object :=
  [ (k_name, VString (lit "A")); (k_role, VString (lit "B")) ].

(** [{name: "A", role: " "}] *)
Definition payload_blank_role : object :=
  [ (k_name, VString (lit "A")); (k_role, VString (lit " ")) ].

(** [{employeeId, from: "2024-01-01", to: "2024-01-02"}] *)
Definition absence_payload (employeeId : jsstring) : object :=
  [ (k_employeeId, VString employeeId);
    (k_from, VString (lit "2024-01-01")); (k_to, VString (lit "2024-01-02")) ].

(** [{from: "2024-02-01", to: "2024-01-01", employeeId: "freja-holm"}] *)
Definition backwards_absence : object :=
  [ (k_from, VString (lit "2024-02-01")); (k_to, VString (lit "2024-01-01"));
    (k_employeeId, VString (lit "freja-holm")) ].

(** A document without employees. *)
Definition nobody : Document := mkDocument (mkBranding (lit "/uploads/branding/l.png")) [] [].

(** A file with one employee and two absences of that employee. *)
Definition twice_absent : value :=
  VObject
    [ (k_employees, VArray [ VObject [ (k_id, VString (lit "a"));
                                       (k_name, VString (lit "A")) ] ]);
      (k_absences,
       VArray [ VObject ((k_id, VString (lit "x")) :: absence_payload (lit "a"));
                VObject ((k_id, VString (lit "y")) :: absence_payload (lit "a")) ]) ].

(** Two raw employees with one identifier. *)
Definition same_id_twice : list value :=
  [ VObject [ (k_id, VString (lit "a")); (k_name, VString (lit "First")) ];
    VObject [ (k_id, VString (lit "a")); (k_name, VString (lit "Second")) ] ].

(** The file system works, except for the task at position 1. *)
Definition second_write_fails (i : nat) : io_result :=
  match i with
  | 1 => WriteFailed (lit "ENOSPC") Corrupt
  | _ => IoOk
  end.

(** Three requests: the first is refused by its task, the write of the
    second fails, the third goes through. *)
Definition three_requests : list op :=
  [ RemoveEmployee (lit "nobody");
    SetBrandingLogo (lit "/uploads/branding/n.png");
    AddEmployee payload_A_B ].

Definition three_settled : Machine :=
  let r := run_all (H := test_host) second_write_fails 0 three_requests fresh_world in
  mkMachine r.1 (zip three_requests (map Settled r.2)).

(** ** What is read from a raw document *)

(** The entries of [raw.employees], when it is an array. *)
Definition raw_employees (raw : value) : list value :=
  match prop k_employees raw with
  | VArray l => l
  | _ => []
  end.

(** ** The routes (Server/index.js)

    A handler is run on a store whose queue is idle, no other request
    arriving while it runs: the store operation it awaits is then [run].
    What it hands to [removeFile] is recorded, in order. *)

Record Request := mkRequest {
  session_user : bool;
  param_id : jsstring;
  req_body : value;
  req_file : option jsstring;
}.

(** What [res.json] or [res.end] sends. *)
Inductive reply :=
| ReplyEnd
| ReplyError (message : jsstring)
| ReplyExn (e : exn)
| ReplyEmployee (r : retval)
| ReplyAbsence (r : retval)
| ReplyLogo (logo : jsstring)
| ReplySuccess
| ReplyState (d : Document).

Record Response := mkResponse {
  status : nat;
  sent : reply;
}.

Record Handled := mkHandled {
  after : World;
  response : Response;
  removeFile_calls : list jsstring;
}.

(** 'Ikke logget ind', 'Ingen fil modtaget', 'Kunne ikke opdatere logo',
    'Kunne ikke fjerne logo', 'Kunne ikke oprette medarbejder',
    'Medarbejder, startdato og slutdato er påkrævet',
    'Slutdato skal være efter startdato', 'Kunne ikke registrere fravær'. *)
Definition not_logged_in : jsstring := lit "Ikke logget ind".
Definition no_file_received : jsstring := lit "Ingen fil modtaget".
Definition logo_not_updated : jsstring := lit "Kunne ikke opdatere logo".
Definition logo_not_removed : jsstring := lit "Kunne ikke fjerne logo".
Definition employee_not_created : jsstring := lit "Kunne ikke oprette medarbejder".
Definition absence_fields_required : jsstring :=
  lit "Medarbejder, startdato og slutdato er p" ++ [229%N] ++ lit "kr" ++ [230%N]
  ++ lit "vet".
Definition end_before_start : jsstring :=
  lit "Slutdato skal v" ++ [230%N] ++ lit "re efter startdato".
Definition absence_not_registered : jsstring :=
  lit "Kunne ikke registrere frav" ++ [230%N] ++ lit "r".

(** [error.message === message]; the message of a file system error
    starts with its code and is none of the store's. *)
Definition has_message (message : jsstring) (e : exn) : bool :=
  match e with
  | Error m => bool_decide (m = message)
  | FsError _ => false
  end.

(** [v === s] for a string [s]. *)
Definition is_string (s : jsstring) (v : value) : bool :=
  match v with
  | VString s' => bool_decide (s' = s)
  | _ => false
  end.

(** The fields the routes read of what the store resolved with. *)
Definition result_photo (r : retval) : jsstring :=
  match r with
  | EmployeeResult e => emp_photo e
  | _ => []
  end.

Definition result_previousLogo (r : retval) : jsstring :=
  match r with
  | LogoResult _ previousLogo => previousLogo
  | _ => []
  end.

Definition result_logo (r : retval) : jsstring :=
  match r with
  | LogoResult snapshot _ => logo (branding snapshot)
  | _ => []
  end.

(** [requireAuth] *)
Definition requireAuth (req : Request) (w : World) (next : Handled) : Handled :=
  if session_user req then next
  else mkHandled w (mkResponse 401 (ReplyError not_logged_in)) [].

Definition k_removePhoto := lit "removePhoto".
Definition true_text := lit "true".
Definition employees_uploads := lit "/uploads/employees/".
Definition branding_uploads := lit "/uploads/branding/".

Definition employee_photo_path (filename : jsstring) : jsstring :=
  employees_uploads ++ filename.

Definition branding_logo_path (filename : jsstring) : jsstring :=
  branding_uploads ++ filename.

(** [previousState.employees.find((employee) => employee.id === id)] *)
Fixpoint find_employee (id : jsstring) (es : list Employee) : option Employee :=
  match es with
  | [] => None
  | e :: r => if decide (emp_id e = id) then Some e else find_employee id r
  end.

Section Routes.
Context `{Host}.

(** GET /api/state *)
Definition get_state (req : Request) (w : World) : Handled :=
  mkHandled w (mkResponse 200 (ReplyState (getState w))) [].

(** POST /api/branding/logo *)
Definition post_branding_logo (req : Request) (io : io_result) (w : World) : Handled :=
  requireAuth req w
    match req_file req with
    | None => mkHandled w (mkResponse 400 (ReplyError no_file_received)) []
    | Some filename =>
        let relativePath := branding_logo_path filename in
        match setBrandingLogo relativePath io w with
        | (w', Fulfilled r) =>
            let previousLogo := result_previousLogo r in
            mkHandled w' (mkResponse 200 (ReplyLogo (result_logo r)))
              (if nonempty previousLogo && negb (bool_decide (previousLogo = relativePath))
               then [previousLogo] else [])
        | (w', Rejected _) =>
            mkHandled w' (mkResponse 500 (ReplyError logo_not_updated)) []
        end
    end.

(** DELETE /api/branding/logo *)
Definition delete_branding_logo (req : Request) (io : io_result) (w : World) : Handled :=
  requireAuth req w
    match removeBrandingLogo io w with
    | (w', Fulfilled r) =>
        let previousLogo := result_previousLogo r in
        mkHandled w' (mkResponse 200 ReplySuccess)
          (if nonempty previousLogo then [previousLogo] else [])
    | (w', Rejected _) =>
        mkHandled w' (mkResponse 500 (ReplyError logo_not_removed)) []
    end.

(** POST /api/employees *)
Definition post_employees (req : Request) (io : io_result) (w : World) : Handled :=
  requireAuth req w
    (let name := prop k_name (req_body req) in
     let department := prop k_department (req_body req) in
     let role := prop k_role (req_body req) in
     if negb (truthy name) || negb (truthy role) then
       mkHandled w (mkResponse 400 (ReplyError name_and_role_required)) []
     else
       let payload : object :=
         [ (k_name, name); (k_department, department); (k_role, role);
           (k_photo, VString match req_file req with
                             | Some filename => employee_photo_path filename
                             | None => []
                             end) ] in
       match addEmployee payload io w with
       | (w', Fulfilled r) => mkHandled w' (mkResponse 201 (ReplyEmployee r)) []
       | (w', Rejected _) =>
           mkHandled w' (mkResponse 500 (ReplyError employee_not_created)) []
       end).

(** PUT /api/employees/:id *)
Definition put_employee (req : Request) (io : io_result) (w : World) : Handled :=
  requireAuth req w
    (let id := param_id req in
     let name := prop k_name (req_body req) in
     let department := prop k_department (req_body req) in
     let role := prop k_role (req_body req) in
     let removePhoto := prop k_removePhoto (req_body req) in
     if negb (truthy name) || negb (truthy role) then
       mkHandled w (mkResponse 400 (ReplyError name_and_role_required)) []
     else
       let fields : object :=
         [ (k_name, name); (k_department, department); (k_role, role) ] in
       let updates : object :=
         match req_file req with
         | Some filename => (k_photo, VString (employee_photo_path filename)) :: fields
         | None =>
             if is_string true_text removePhoto
             then (k_photo, VString []) :: fields
             else fields
         end in
       let previousEmployee := find_employee id (employees (getState w)) in
       match updateEmployee id updates io w with
       | (w', Fulfilled r) =>
           let replaced :=
             match req_file req, previousEmployee with
             | Some _, Some previous =>
                 if nonempty (emp_photo previous)
                    && negb (bool_decide (emp_photo previous = result_photo r))
                 then [emp_photo previous] else []
             | _, _ => []
             end in
           let dropped :=
             match req_file req, previousEmployee with
             | None, Some previous =>
                 if is_string true_text removePhoto
                    && nonempty (emp_photo previous)
                 then [emp_photo previous] else []
             | _, _ => []
             end in
           mkHandled w' (mkResponse 200 (ReplyEmployee r)) (replaced ++ dropped)
       | (w', Rejected e) =>
           mkHandled w'
             (mkResponse (if has_message employee_not_found e then 404 else 500)
                (ReplyExn e)) []
       end).

(** DELETE /api/employees/:id *)
Definition delete_employee (req : Request) (io : io_result) (w : World) : Handled :=
  requireAuth req w
    match removeEmployee (param_id req) io w with
    | (w', Fulfilled r) =>
        mkHandled w' (mkResponse 204 ReplyEnd)
          (if nonempty (result_photo r) then [result_photo r] else [])
    | (w', Rejected e) =>
        mkHandled w'
          (mkResponse (if has_message employee_not_found e then 404 else 500)
             (ReplyExn e)) []
    end.

(** PATCH /api/employees/:id/status, which has no [requireAuth]. *)
Definition patch_employee_status (req : Request) (io : io_result) (w : World)
    : Handled :=
  let isCheckedIn := prop k_isCheckedIn (req_body req) in
  match updateEmployee (param_id req) [ (k_isCheckedIn, VBool (truthy isCheckedIn)) ]
          io w with
  | (w', Fulfilled r) => mkHandled w' (mkResponse 200 (ReplyEmployee r)) []
  | (w', Rejected e) =>
      mkHandled w'
        (mkResponse (if has_message employee_not_found e then 404 else 500)
           (ReplyExn e)) []
  end.

(** DELETE /api/absences/:id *)
Definition delete_absence (req : Request) (io : io_result) (w : World) : Handled :=
  requireAuth req w
    match removeAbsence (param_id req) io w with
    | (w', Fulfilled r) => mkHandled w' (mkResponse 204 ReplyEnd) []
    | (w', Rejected e) =>
        mkHandled w'
          (mkResponse (if has_message absence_not_found e then 404 else 500)
             (ReplyExn e)) []
    end.

(** [new Date(v)] on a value of the body is the host's: [dateOf v] is its
    time value, [None] for an invalid date. *)
Variable dateOf : value -> option Z.

Definition later_date (from to : value) : bool :=
  match dateOf from, dateOf to with
  | Some a, Some b => (b <? a)%Z
  | _, _ => false
  end.

(** POST /api/absences *)
Definition post_absences (req : Request) (io : io_result) (w : World) : Handled :=
  requireAuth req w
    (let employeeId := prop k_employeeId (req_body req) in
     let from := prop k_from (req_body req) in
     let to := prop k_to (req_body req) in
     let reason := prop k_reason (req_body req) in
     if negb (truthy employeeId) || negb (truthy from) || negb (truthy to) then
       mkHandled w (mkResponse 400 (ReplyError absence_fields_required)) []
     else if later_date from to then
       mkHandled w (mkResponse 400 (ReplyError end_before_start)) []
     else if negb (existsb (fun employee => is_string (emp_id employee) employeeId)
                     (employees (getState w))) then
       mkHandled w (mkResponse 404 (ReplyError employee_not_found)) []
     else
       let payload : object :=
         [ (k_employeeId, employeeId); (k_from, from); (k_to, to);
           (k_reason, if truthy reason then reason else VString other_reason) ] in
       match addAbsence payload io w with
       | (w', Fulfilled r) => mkHandled w' (mkResponse 201 (ReplyAbsence r)) []
       | (w', Rejected _) =>
           mkHandled w' (mkResponse 500 (ReplyError absence_not_registered)) []
       end).

(** The routes that write and ask for a session. *)
Inductive guarded_route :=
| PostBrandingLogo
| DeleteBrandingLogo
| PostEmployees
| PutEmployee
| DeleteEmployee
| PostAbsences
| DeleteAbsence.

Definition handle (route : guarded_route) : Request -> io_result -> World -> Handled :=
  match route with
  | PostBrandingLogo => post_branding_logo
  | DeleteBrandingLogo => delete_branding_logo
  | PostEmployees => post_employees
  | PutEmployee => put_employee
  | DeleteEmployee => delete_employee
  | PostAbsences => post_absences
  | DeleteAbsence => delete_absence
  end.

End Routes.

(** ** Consistent documents *)

(** Every absence is an absence of an employee of the document. *)
Definition references_hold (d : Document) : Prop :=
  ∀ a, a ∈ absences d -> abs_employeeId a ∈ map emp_id (employees d).

(** Employees in normal form and absences of existing employees only. *)
Definition consistent (d : Document) : Prop :=
  forallb canonical_employee (employees d) = true ∧ references_hold d.

(** What an operation needs for the references: an absence is added for an
    employee of the document. *)
Definition refers (o : op) (w : World) : Prop :=
  match o with
  | AddAbsence payload =>
      ∃ e, e ∈ employees (state w)
           ∧ lookup_prop k_employeeId payload = VString (emp_id e)
  | _ => True
  end.

(** ** Requests to run examples on *)

(** [new Date(v)] for the strings the example host reads and for numbers. *)
Definition test_dateOf (v : value) : option Z :=
  match v with
  | VString s => iso_date s
  | VNumber z => Some z
  | _ => None
  end.

Definition no_session (body : value) : Request := mkRequest false (lit "freja-holm") body None.
Definition with_session (id : jsstring) (body : value) (upload : option jsstring)
    : Request := mkRequest true id body upload.

(** Bodies of requests. *)
Definition status_body : value := VObject [ (k_isCheckedIn, VNumber 0) ].
Definition blank_role_body : value :=
  VObject [ (k_name, VString (lit "A")); (k_role, VString (lit " ")) ].
Definition name_role_body : value :=
  VObject [ (k_name, VString (lit "A")); (k_role, VString (lit "B")) ].
Definition absence_body (from : value) : value :=
  VObject [ (k_employeeId, VString (lit "freja-holm")); (k_from, from);
            (k_to, VString (lit "2024-01-02")) ].

(** * Properties *)

Example iso_date_2024 : iso_date (lit "2024-01-01") = Some 1704067200000%Z.
Proof. reflexivity. Qed.

Example trim_example : trim (lit "  a b	 ") = lit "a b".
Proof. reflexivity. Qed.

(** ** The scans of the store, as list functions *)

Lemma removeEmployee_scan_acc (id : jsstring) (es : list Employee) removed remaining :
  foldl (fun acc e =>
           if decide (emp_id e = id) then (Some e, acc.2)
           else (acc.1, acc.2 ++ [e]))
        (removed, remaining) es
  = (from_option Some removed (last (filter (fun e => emp_id e = id) es)),
     remaining ++ filter (fun e => emp_id e ≠ id) es).
Proof.
  revert removed remaining.
  induction es as [|e es IH]; intros removed remaining; simpl.
  - by rewrite app_nil_r.
  - destruct (decide (emp_id e = id)) as [Heq|Hne]; rewrite IH; simpl.
    + rewrite (filter_cons_True (fun e => emp_id e = id)) by done.
      rewrite (filter_cons_False (fun e => emp_id e ≠ id)) by (simpl; tauto).
      f_equal. rewrite last_cons. by destruct (last _).
    + rewrite (filter_cons_False (fun e => emp_id e = id)) by done.
      rewrite (filter_cons_True (fun e => emp_id e ≠ id)) by done.
      by rewrite <- app_assoc.
Qed.

Lemma removeEmployee_scan_spec (id : jsstring) (es : list Employee) :
  removeEmployee_scan id es
  = (last (filter (fun e => emp_id e = id) es), filter (fun e => emp_id e ≠ id) es).
Proof.
  unfold removeEmployee_scan. rewrite removeEmployee_scan_acc. simpl.
  by destruct (last _).
Qed.

Lemma removeAbsence_scan_acc (id : jsstring) (l : list Absence) removed remaining :
  foldl (fun acc a =>
           if decide (abs_id a = id) then (Some a, acc.2)
           else (acc.1, acc.2 ++ [a]))
        (removed, remaining) l
  = (from_option Some removed (last (filter (fun a => abs_id a = id) l)),
     remaining ++ filter (fun a => abs_id a ≠ id) l).
Proof.
  revert removed remaining.
  induction l as [|a l IH]; intros removed remaining; simpl.
  - by rewrite app_nil_r.
  - destruct (decide (abs_id a = id)) as [Heq|Hne]; rewrite IH; simpl.
    + rewrite (filter_cons_True (fun a => abs_id a = id)) by done.
      rewrite (filter_cons_False (fun a => abs_id a ≠ id)) by (simpl; tauto).
      f_equal. rewrite last_cons. by destruct (last _).
    + rewrite (filter_cons_False (fun a => abs_id a = id)) by done.
      rewrite (filter_cons_True (fun a => abs_id a ≠ id)) by done.
      by rewrite <- app_assoc.
Qed.

Lemma removeAbsence_scan_spec (id : jsstring) (l : list Absence) :
  removeAbsence_scan id l
  = (last (filter (fun a => abs_id a = id) l), filter (fun a => abs_id a ≠ id) l).
Proof.
  unfold removeAbsence_scan. rewrite removeAbsence_scan_acc. simpl.
  by destruct (last _).
Qed.

Lemma last_match_None {A} (P : A -> Prop) `{!∀ x, Decision (P x)} (l : list A) :
  last (filter P l) = None <-> ∀ x, x ∈ l -> ¬ P x.
Proof.
  rewrite last_None. split.
  - intros Hnil x Hx HP.
    assert (x ∈ filter P l) as Hin by (apply list_elem_of_filter; done).
    rewrite Hnil in Hin. by apply elem_of_nil in Hin.
  - intros Hall. induction l as [|y l IH]; [done|].
    rewrite filter_cons_False by (apply Hall; set_solver).
    apply IH. intros; apply Hall; set_solver.
Qed.

Lemma last_match_Some {A} (P : A -> Prop) `{!∀ x, Decision (P x)} (l : list A) x :
  last (filter P l) = Some x -> x ∈ l ∧ P x.
Proof.
  intros Hl. assert (x ∈ filter P l) as Hin.
  { apply last_Some in Hl as [l' ->]. set_solver. }
  apply list_elem_of_filter in Hin. tauto.
Qed.

Lemma last_match_is_Some {A} (P : A -> Prop) `{!∀ x, Decision (P x)} (l : list A) x :
  x ∈ l -> P x -> is_Some (last (filter P l)).
Proof.
  intros Hx HP. destruct (last (filter P l)) eqn:E; [by eexists|].
  pose proof (proj1 (last_match_None P l) E x Hx). done.
Qed.

(** [map_matching] with a function that draws nothing. *)
Lemma map_matching_pure (id : jsstring) (g : Employee -> Employee)
    (es : list Employee) (n : nat) :
  map_matching id (fun e n => (g e, n)) es n
  = (map (fun e => if decide (emp_id e = id) then g e else e) es,
     last (map g (filter (fun e => emp_id e = id) es)), n).
Proof.
  induction es as [|e es IH]; simpl; [done|].
  destruct (decide (emp_id e = id)) as [Heq|Hne].
  - rewrite IH. rewrite (filter_cons_True (fun e => emp_id e = id)) by done.
    simpl. rewrite last_cons. by destruct (last _).
  - rewrite IH. by rewrite (filter_cons_False (fun e => emp_id e = id)) by done.
Qed.

Lemma map_matching_ext (id : jsstring) (f g : Employee -> nat -> Employee * nat)
    (es : list Employee) (n : nat) :
  (∀ e k, e ∈ es -> emp_id e = id -> f e k = g e k) ->
  map_matching id f es n = map_matching id g es n.
Proof.
  revert n. induction es as [|e es IH]; intros n Hfg; simpl; [done|].
  destruct (decide (emp_id e = id)) as [Heq|Hne].
  - rewrite Hfg by (done || set_solver). destruct (g e n) as [e' n1].
    rewrite IH; [done|]. intros; apply Hfg; set_solver.
  - rewrite IH; [done|]. intros; apply Hfg; set_solver.
Qed.

Lemma map_no_match (id : jsstring) (g : Employee -> Employee) (es : list Employee) :
  (∀ e, e ∈ es -> emp_id e ≠ id) ->
  map (fun e => if decide (emp_id e = id) then g e else e) es = es.
Proof.
  intros Hno. induction es as [|e es IH]; simpl; [done|].
  rewrite decide_False by (apply Hno; set_solver).
  f_equal. apply IH. intros; apply Hno; set_solver.
Qed.

Lemma world_eta (w : World) :
  mkWorld (mkDocument (branding (state w)) (employees (state w)) (absences (state w)))
    (file w) (uuids w) = w.
Proof. by destruct w as [[? ? ?] ? ?]. Qed.

(** ** The operations on employees *)

Section EmployeeOperations.
Context `{Host}.

Lemma persist_state (io : io_result) (w : World) :
  state (persist io w).1 = state w ∧ uuids (persist io w).1 = uuids w.
Proof. by destruct io. Qed.

Lemma persist_ok (w : World) :
  persist IoOk w = (with_file w (Json (documentValue (state w))), None).
Proof. done. Qed.

Lemma persist_failed (io : io_result) (w : World) :
  io ≠ IoOk -> ∃ code, (persist io w).2 = Some (FsError code).
Proof. destruct io; [done|by eexists..]. Qed.

(** C7. [removeEmployee(id)] rejects with 'Medarbejder ikke fundet' and
    leaves the store as it is when no employee has the identifier.
    Otherwise it removes the employees with that identifier and every
    absence whose [employeeId] is that identifier, so that no absence of
    the new document refers to it, and, once the document is written,
    resolves with the removed record. *)
Theorem removeEmployee_cascades (id : jsstring) (io : io_result) (w : World) :
  ((∀ e, e ∈ employees (state w) -> emp_id e ≠ id) ->
     removeEmployee id io w = (w, Rejected (Error employee_not_found))
     ∧ error_kind (Error employee_not_found) = NotFoundError)
  ∧ ((∃ e, e ∈ employees (state w) ∧ emp_id e = id) ->
     ∃ removed,
       let w' := (removeEmployee id io w).1 in
       removed ∈ employees (state w) ∧ emp_id removed = id
       ∧ employees (getState w') = filter (fun e => emp_id e ≠ id) (employees (state w))
       ∧ absences (getState w')
         = filter (fun a => abs_employeeId a ≠ id) (absences (state w))
       ∧ branding (getState w') = branding (state w)
       ∧ (∀ e, e ∈ employees (getState w') -> emp_id e ≠ id)
       ∧ (∀ a, a ∈ absences (getState w') -> abs_employeeId a ≠ id)
       ∧ (io = IoOk ->
          (removeEmployee id io w).2 = Fulfilled (EmployeeResult removed)
          ∧ file w' = Json (documentValue (state w')))).
Proof.
  unfold removeEmployee, run, getState, deepClone. simpl. unfold removeEmployee_task.
  rewrite removeEmployee_scan_spec. split.
  - intros Hno.
    assert (last (filter (fun e => emp_id e = id) (employees (state w))) = None) as ->.
    { apply last_match_None. done. }
    done.
  - intros (e & He & Hid).
    destruct (last_match_is_Some (fun e => emp_id e = id) _ e He Hid) as [removed Hr].
    rewrite Hr. exists removed.
    apply last_match_Some in Hr as Hr'. destruct Hr' as [Hin Hrid].
    destruct io; simpl; repeat split; try done;
      intros x Hx; apply list_elem_of_filter in Hx; tauto.
Qed.

(** C10. [setEmployeeStatus(id, isCheckedIn)] rejects with 'Medarbejder
    ikke fundet' and leaves the store as it is when no employee has the
    identifier. Otherwise the employees with that identifier get
    [Boolean(isCheckedIn)] as their [isCheckedIn] and keep every other
    field, the other employees, the branding and the absences stay, and the
    operation resolves with the updated employee once the new document is
    in the file; when the write fails it rejects with the file system's
    error. *)
Theorem setEmployeeStatus_frame (id : jsstring) (v : value) (io : io_result) (w : World) :
  ((∀ e, e ∈ employees (state w) -> emp_id e ≠ id) ->
     setEmployeeStatus id v io w = (w, Rejected (Error employee_not_found))
     ∧ error_kind (Error employee_not_found) = NotFoundError)
  ∧ ((∃ e, e ∈ employees (state w) ∧ emp_id e = id) ->
     ∃ updated,
       let w' := (setEmployeeStatus id v io w).1 in
       updated ∈ employees (getState w') ∧ emp_id updated = id
       ∧ emp_isCheckedIn updated = truthy v
       ∧ length (employees (getState w')) = length (employees (state w))
       ∧ (∀ i e, employees (state w) !! i = Some e ->
            ∃ e', employees (getState w') !! i = Some e'
              ∧ emp_id e' = emp_id e ∧ emp_name e' = emp_name e
              ∧ emp_department e' = emp_department e ∧ emp_role e' = emp_role e
              ∧ emp_photo e' = emp_photo e
              ∧ emp_isCheckedIn e'
                = (if decide (emp_id e = id) then truthy v else emp_isCheckedIn e)
              ∧ (emp_id e ≠ id -> e' = e))
       ∧ branding (getState w') = branding (state w)
       ∧ absences (getState w') = absences (state w)
       ∧ (io = IoOk ->
          (setEmployeeStatus id v io w).2 = Fulfilled (EmployeeResult updated)
          ∧ file w' = Json (documentValue (state w')))
       ∧ (io ≠ IoOk ->
          ∃ code, (setEmployeeStatus id v io w).2 = Rejected (FsError code))).
Proof.
  unfold setEmployeeStatus, run, getState, deepClone. simpl. unfold setEmployeeStatus_task.
  rewrite (map_matching_pure id (fun e => set_checked e (truthy v))).
  split.
  - intros Hno.
    assert (filter (fun e => emp_id e = id) (employees (state w)) = []) as ->.
    { apply last_None, last_match_None. done. }
    simpl. rewrite map_no_match by done. unfold with_state. by rewrite world_eta.
  - intros (e & He & Hid).
    destruct (last_match_is_Some (fun e => emp_id e = id) _ e He Hid) as [x Hx].
    change (map (fun e => set_checked e (truthy v)) ?l)
      with ((fun e => set_checked e (truthy v)) <$> l).
    rewrite fmap_last, Hx. simpl. exists (set_checked x (truthy v)).
    apply last_match_Some in Hx as [Hxin Hxid].
    assert (set_checked x (truthy v)
              ∈ map (fun e => if decide (emp_id e = id)
                              then set_checked e (truthy v) else e)
                  (employees (state w))) as Hin.
    { apply list_elem_of_fmap. exists x. by rewrite decide_True. }
    assert (∀ i e0, employees (state w) !! i = Some e0 ->
       ∃ e', map (fun e => if decide (emp_id e = id)
                           then set_checked e (truthy v) else e)
               (employees (state w)) !! i = Some e'
         ∧ emp_id e' = emp_id e0 ∧ emp_name e' = emp_name e0
         ∧ emp_department e' = emp_department e0 ∧ emp_role e' = emp_role e0
         ∧ emp_photo e' = emp_photo e0
         ∧ emp_isCheckedIn e'
           = (if decide (emp_id e0 = id) then truthy v else emp_isCheckedIn e0)
         ∧ (emp_id e0 ≠ id -> e' = e0)) as Hframe.
    { intros i e0 Hi. eexists. split.
      - change (map ?f ?l) with (f <$> l). rewrite list_lookup_fmap, Hi. done.
      - destruct (decide (emp_id e0 = id)); simpl; repeat split; done. }
    destruct io; simpl; repeat split; try done;
      try (by rewrite length_map); try (intros _; by eexists).
Qed.

End EmployeeOperations.

(** ** Reading the objects the store builds *)

Lemma lookup_prop_app (k : jsstring) (a b : object) :
  lookup_prop k (a ++ b) = if has_key k a then lookup_prop k a else lookup_prop k b.
Proof.
  unfold has_key. induction a as [|[k' v] a IH]; simpl; [done|].
  destruct (decide (k = k')) as [->|Hne].
  - rewrite bool_decide_eq_true_2; [done|]. apply list_elem_of_here.
  - rewrite IH. destruct (bool_decide (k ∈ map fst a)) eqn:E.
    + rewrite bool_decide_eq_true_2; [done|].
      apply bool_decide_eq_true in E. by apply list_elem_of_further.
    + rewrite bool_decide_eq_false_2; [done|].
      apply bool_decide_eq_false in E. intros Hin.
      apply elem_of_cons in Hin as [?|?]; done.
Qed.

Lemma clean_spec (s : jsstring) :
  clean s = true -> trim s = s ∧ nonempty s = true.
Proof.
  unfold clean. intros Hc. apply andb_true_iff in Hc as [Ht Hn].
  by apply bool_decide_eq_true in Ht.
Qed.

Lemma trimmed_or_clean (dflt s : jsstring) :
  clean s = true -> trimmed_or dflt (VString s) = s.
Proof. intros [Ht Hn]%clean_spec. simpl. by rewrite Ht, Hn. Qed.

Lemma trimmed_or_nonempty (dflt : jsstring) (v : value) :
  nonempty dflt = true -> nonempty (trimmed_or dflt v) = true.
Proof.
  intros Hd. destruct v; simpl; try done.
  by destruct (nonempty (trim s)) eqn:E.
Qed.

Section Validation.
Context `{Host}.

(** Whatever the raw employee, its normalised name is not empty: the
    fallback 'Ukendt medarbejder' has taken the place of a missing or blank
    one. *)
Lemma normaliseEmployee_name_nonempty (employee : value) (n : nat) :
  nonempty (emp_name (normaliseEmployee employee n).1) = true.
Proof.
  unfold normaliseEmployee.
  destruct (negb (is_object employee)); [done|].
  assert (nonempty (trimmed_or unknown_name (prop k_name employee)) = true) as Hn
    by by apply trimmed_or_nonempty.
  destruct (prop k_id employee); simpl; try done.
  by destruct (nonempty (trim s)).
Qed.

(** The employee [addEmployee] normalises: the fields of the payload, and
    the payload's identifier or a fresh one. *)
Lemma addEmployee_normalised (payload : object) (idv : value) (c : bool) (n : nat) :
  ∃ i n',
    normaliseEmployee (VObject ((k_isCheckedIn, VBool c) :: (k_id, idv) :: payload)) n
    = (mkEmployee i
         (trimmed_or unknown_name (lookup_prop k_name payload))
         (trimmed_or other_department (lookup_prop k_department payload))
         (trimmed (lookup_prop k_role payload))
         (trimmed (lookup_prop k_photo payload))
         c, n')
    ∧ (i, n') = match idv with
                | VString s => if nonempty (trim s) then (trim s, n)
                               else (randomUUID n, S n)
                | _ => (randomUUID n, S n)
                end.
Proof.
  unfold normaliseEmployee. simpl.
  destruct idv; try (by eexists _, _).
  destruct (nonempty (trim s)); by eexists _, _.
Qed.

(** The only way [addEmployee] throws is an empty role. *)
Lemma addEmployee_rejects_only_empty_role (payload : object) (w : World) (e : exn) :
  (addEmployee_task payload w).2 = inl e ->
  trimmed (lookup_prop k_role payload) = [] ∧ e = Error name_and_role_required.
Proof.
  unfold addEmployee_task.
  destruct (id_or_fresh payload (uuids w)) as [idv n1].
  destruct (addEmployee_normalised payload idv
              (truthy (lookup_prop k_isCheckedIn payload)) n1) as (i & n' & -> & _).
  cbn [emp_name emp_role].
  rewrite trimmed_or_nonempty by done. simpl.
  destruct (trimmed (lookup_prop k_role payload)); simpl; [|done].
  by intros [= <-].
Qed.

(** A payload without identifier and with a role that is not blank is
    accepted: the employee gets a generated identifier and is appended. *)
Lemma addEmployee_accepts (payload : object) (w : World) :
  truthy (lookup_prop k_id payload) = false ->
  clean (randomUUID (uuids w)) = true ->
  trimmed (lookup_prop k_role payload) ≠ [] ->
  ∃ e,
    (addEmployee payload IoOk w).2 = Fulfilled (EmployeeResult e)
    ∧ employees (getState (addEmployee payload IoOk w).1) = employees (state w) ++ [e]
    ∧ emp_id e = randomUUID (uuids w)
    ∧ emp_name e = trimmed_or unknown_name (lookup_prop k_name payload)
    ∧ emp_role e = trimmed (lookup_prop k_role payload)
    ∧ emp_isCheckedIn e = truthy (lookup_prop k_isCheckedIn payload).
Proof.
  intros Hid [Htrim Hne]%clean_spec Hrole.
  unfold addEmployee, run, getState, deepClone. simpl. unfold addEmployee_task, id_or_fresh.
  rewrite Hid.
  destruct (addEmployee_normalised payload (VString (randomUUID (uuids w)))
              (truthy (lookup_prop k_isCheckedIn payload)) (S (uuids w)))
    as (i & n' & -> & Hi).
  rewrite Htrim, Hne in Hi. injection Hi as -> ->.
  cbn [emp_name emp_role].
  rewrite trimmed_or_nonempty by done.
  destruct (trimmed (lookup_prop k_role payload)) eqn:Er; [done|].
  simpl. eexists. repeat split; done.
Qed.
(** The record [updateEmployee] builds for an employee in normal form. *)
Lemma normalise_merged (e : Employee) (updates : object) (n : nat) :
  canonical_employee e = true ->
  normaliseEmployee (VObject (merged e updates)) n = (apply_updates e updates, n).
Proof.
  unfold canonical_employee. intros Hc.
  apply andb_true_iff in Hc as [Hc Hphoto%bool_decide_eq_true].
  apply andb_true_iff in Hc as [Hc Hrole%bool_decide_eq_true].
  apply andb_true_iff in Hc as [Hc Hdept].
  apply andb_true_iff in Hc as [Hc Hname].
  destruct (clean_spec _ Hc) as [Hid Hidn].
  unfold normaliseEmployee, apply_updates. simpl negb. cbv iota.
  change (prop k_id (VObject (merged e updates))) with (VString (emp_id e)).
  change (prop k_isCheckedIn (VObject (merged e updates)))
    with (VBool match lookup_prop k_isCheckedIn updates with
                | VBool b => b
                | _ => emp_isCheckedIn e
                end).
  change (prop k_name (VObject (merged e updates)))
    with (lookup_prop k_name (updates ++ employeeProps e)).
  change (prop k_department (VObject (merged e updates)))
    with (lookup_prop k_department (updates ++ employeeProps e)).
  change (prop k_role (VObject (merged e updates)))
    with (lookup_prop k_role (updates ++ employeeProps e)).
  change (prop k_photo (VObject (merged e updates)))
    with (lookup_prop k_photo (updates ++ employeeProps e)).
  rewrite !lookup_prop_app.
  change (lookup_prop k_name (employeeProps e)) with (VString (emp_name e)).
  change (lookup_prop k_department (employeeProps e)) with (VString (emp_department e)).
  change (lookup_prop k_role (employeeProps e)) with (VString (emp_role e)).
  change (lookup_prop k_photo (employeeProps e)) with (VString (emp_photo e)).
  rewrite Hid, Hidn. cbv iota. simpl truthy. f_equal. f_equal.
  - destruct (has_key k_name updates); [done|]. by apply trimmed_or_clean.
  - destruct (has_key k_department updates); [done|]. by apply trimmed_or_clean.
  - destruct (has_key k_role updates); [done|]. simpl. done.
  - destruct (has_key k_photo updates); [done|]. simpl. done.
Qed.

End Validation.

Section Rejections.
Context `{Host}.

(** C2, as the code has it. When the task of an operation reaches
    [persist] and a file system call fails, the operation rejects with the
    file system's error, and [getState] then returns the document the task
    assigned to [this.state]: the change stays in memory, nothing restores
    the document the operation started from. *)
Theorem failed_persist_keeps_change (o : op) (io : io_result) (w w1 : World)
    (p : pending) :
  task_of o w = (w1, inr p) ->
  io ≠ IoOk ->
  ∃ code,
    (run o io w).2 = Rejected (FsError code)
    ∧ error_kind (FsError code) = PersistenceError
    ∧ getState (run o io w).1 = state w1.
Proof.
  intros Ht Hio. unfold run. rewrite Ht.
  destruct io as [|code|code residue]; [done|..]; by exists code.
Qed.

(** What [normaliseAbsence] makes of the object [addAbsence] builds. *)
Lemma normaliseAbsence_payload (idv ve vf vt vr : value) (n : nat) :
  normaliseAbsence
    (VObject [ (k_id, idv); (k_employeeId, ve); (k_from, vf); (k_to, vt);
               (k_reason, vr) ]) None n
  = match as_string ve, as_string vf, as_string vt with
    | Some e, Some f, Some t =>
        if nonempty e && nonempty f && nonempty t && negb (date_gt f t)
        then
          let reason := match vr with VString r => r | _ => other_reason end in
          match idv with
          | VString s =>
              if nonempty (trim s)
              then (Some (mkAbsence (trim s) e f t reason), n)
              else (Some (mkAbsence (randomUUID n) e f t reason), S n)
          | _ => (Some (mkAbsence (randomUUID n) e f t reason), S n)
          end
        else (None, n)
    | _, _, _ => (None, n)
    end.
Proof.
  unfold normaliseAbsence. simpl.
  destruct (as_string ve) as [e|]; [|by destruct (as_string vf), (as_string vt)].
  destruct (nonempty e); simpl; [|by destruct (as_string vf), (as_string vt)].
  destruct (as_string vf) as [f|]; [|done].
  destruct (as_string vt) as [t|]; [|done].
  destruct (nonempty f); simpl; [|done].
  destruct (nonempty t); simpl; [|done].
  by destruct (date_gt f t).
Qed.

(** C4, as the code has it. [addAbsence(fields)] rejects with 'Ugyldige
    fraværsoplysninger' and leaves the document as it is when [employeeId],
    [from] or [to] is not a non-empty string or when [from] is a later date
    than [to]. Otherwise it succeeds, whether or not an employee has that
    identifier: the absences of that employee are dropped, the new absence
    is appended, and the operation resolves with it once the document is
    written. *)
Theorem addAbsence_validates_fields (payload : object) (io : io_result) (w : World) :
  (acceptable_absence payload = false ->
     (addAbsence payload io w).2 = Rejected (Error invalid_absence)
     ∧ error_kind (Error invalid_absence) = ValidationError
     ∧ getState (addAbsence payload io w).1 = state w
     ∧ file (addAbsence payload io w).1 = file w)
  ∧ (acceptable_absence payload = true ->
     ∃ a,
       let w' := (addAbsence payload io w).1 in
       lookup_prop k_employeeId payload = VString (abs_employeeId a)
       ∧ lookup_prop k_from payload = VString (abs_from a)
       ∧ lookup_prop k_to payload = VString (abs_to a)
       ∧ absences (getState w')
         = filter (fun x => abs_employeeId x ≠ abs_employeeId a) (absences (state w))
           ++ [a]
       ∧ employees (getState w') = employees (state w)
       ∧ branding (getState w') = branding (state w)
       ∧ (io = IoOk ->
          (addAbsence payload io w).2 = Fulfilled (AbsenceResult a)
          ∧ file w' = Json (documentValue (state w')))).
Proof.
  unfold addAbsence, run, getState, deepClone, acceptable_absence. simpl.
  unfold addAbsence_task.
  destruct (id_or_fresh payload (uuids w)) as [idv n1].
  rewrite normaliseAbsence_payload.
  generalize (lookup_prop k_employeeId payload) (lookup_prop k_from payload)
    (lookup_prop k_to payload).
  intros ve vf vt.
  destruct ve as [| | | |e| |], vf as [| | | |f| |], vt as [| | | |t| |];
    simpl; try (split; done).
  destruct (nonempty e && nonempty f && nonempty t && negb (date_gt f t));
    [|done].
  split; [done|]. intros _. cbv zeta.
  set (reason := match lookup_prop k_reason payload with
                 | VString r => r
                 | _ => other_reason
                 end).
  assert (∃ i n2,
    match idv with
    | VString s =>
        if nonempty (trim s)
        then (Some (mkAbsence (trim s) e f t reason), n1)
        else (Some (mkAbsence (randomUUID n1) e f t reason), S n1)
    | _ => (Some (mkAbsence (randomUUID n1) e f t reason), S n1)
    end = (Some (mkAbsence i e f t reason), n2)) as (i & n2 & ->).
  { destruct idv; try (by eexists _, _). destruct (nonempty (trim s)); by eexists _, _. }
  exists (mkAbsence i e f t reason). simpl.
  destruct io; simpl; repeat split; done.
Qed.

(** C5, as the code has it. [updateEmployee(id, partialFields)] rejects
    with 'Medarbejder ikke fundet' and leaves the store as it is when no
    employee has the identifier. Otherwise the employees with that
    identifier, when in normal form, are replaced by the merged and
    normalised record: the fields named in the partial are normalised anew
    (a blank name becomes 'Ukendt medarbejder', a blank role stays empty),
    the others keep their values, and the identifier stays. No validation
    follows: the operation resolves with the new record once the document
    is written, and rejects only when the write fails. *)
Theorem updateEmployee_merges (id : jsstring) (updates : object) (io : io_result)
    (w : World) :
  ((∀ e, e ∈ employees (state w) -> emp_id e ≠ id) ->
     updateEmployee id updates io w = (w, Rejected (Error employee_not_found))
     ∧ error_kind (Error employee_not_found) = NotFoundError)
  ∧ ((∃ e, e ∈ employees (state w) ∧ emp_id e = id) ->
     (∀ e, e ∈ employees (state w) -> emp_id e = id -> canonical_employee e = true) ->
     ∃ old,
       let w' := (updateEmployee id updates io w).1 in
       old ∈ employees (state w) ∧ emp_id old = id
       ∧ employees (getState w')
         = map (fun e => if decide (emp_id e = id) then apply_updates e updates else e)
             (employees (state w))
       ∧ branding (getState w') = branding (state w)
       ∧ absences (getState w') = absences (state w)
       ∧ (io = IoOk ->
          (updateEmployee id updates io w).2
          = Fulfilled (EmployeeResult (apply_updates old updates))
          ∧ file w' = Json (documentValue (state w')))
       ∧ (io ≠ IoOk ->
          ∃ code, (updateEmployee id updates io w).2 = Rejected (FsError code))).
Proof.
  unfold updateEmployee, run, getState, deepClone. simpl. unfold updateEmployee_task. split.
  - intros Hno.
    rewrite (map_matching_ext id _ (fun e n => (e, n)))
      by (intros e k He Hid; by destruct (Hno e He)).
    rewrite (map_matching_pure id (fun e => e)).
    assert (filter (fun e => emp_id e = id) (employees (state w)) = []) as ->.
    { apply last_None, last_match_None. done. }
    simpl. rewrite map_no_match by done. unfold with_state. by rewrite world_eta.
  - intros (e & He & Hid) Hcanon.
    rewrite (map_matching_ext id _ (fun e n => (apply_updates e updates, n)))
      by (intros e' k He' Hid'; apply normalise_merged; by apply Hcanon).
    rewrite (map_matching_pure id (fun e => apply_updates e updates)).
    destruct (last_match_is_Some (fun e => emp_id e = id) _ e He Hid) as [x Hx].
    change (map (fun e => apply_updates e updates) ?l)
      with ((fun e => apply_updates e updates) <$> l).
    rewrite fmap_last, Hx. simpl. exists x.
    apply last_match_Some in Hx as [Hxin Hxid].
    destruct io; simpl; repeat split; try done; intros _; by eexists.
Qed.

End Rejections.

(** ** At most one absence per employee *)

Lemma NoDup_map_filter {A B} (f : A -> B) (P : A -> Prop) `{!∀ x, Decision (P x)}
    (l : list A) :
  NoDup (map f l) -> NoDup (map f (filter P l)).
Proof.
  induction l as [|x l IH]; simpl; [done|].
  intros [Hx Hl]%NoDup_cons. rewrite filter_cons.
  destruct (decide (P x)); [|by apply IH].
  simpl. apply NoDup_cons. split; [|by apply IH].
  intros Hin. apply Hx.
  change (map f ?l) with (f <$> l) in *.
  apply list_elem_of_fmap in Hin as (y & -> & Hy%list_elem_of_filter).
  apply list_elem_of_fmap. exists y. tauto.
Qed.

Lemma NoDup_supersede (l : list Absence) (a : Absence) :
  NoDup (map abs_employeeId l) ->
  NoDup (map abs_employeeId
           (filter (fun x => abs_employeeId x ≠ abs_employeeId a) l ++ [a])).
Proof.
  intros Hl. rewrite map_app. apply NoDup_app. split; [by apply NoDup_map_filter|].
  split; [|apply NoDup_singleton].
  intros eid Hin Hin'. apply list_elem_of_singleton in Hin'. subst eid.
  change (map abs_employeeId ?l) with (abs_employeeId <$> l) in Hin.
  apply list_elem_of_fmap in Hin as (y & Hy & Hin%list_elem_of_filter).
  destruct Hin as [Hne _]. by apply Hne.
Qed.

Lemma filter_supersede (l : list Absence) (a : Absence) :
  filter (fun x => abs_employeeId x = abs_employeeId a)
    (filter (fun x => abs_employeeId x ≠ abs_employeeId a) l ++ [a]) = [a].
Proof.
  rewrite filter_app.
  assert (filter (fun x => abs_employeeId x = abs_employeeId a)
            (filter (fun x => abs_employeeId x ≠ abs_employeeId a) l) = []) as ->.
  { apply last_None, last_match_None. intros x Hx%list_elem_of_filter. tauto. }
  simpl. by rewrite filter_cons_True, filter_nil.
Qed.

Section Absences.
Context `{Host}.

(** What the task of [addAbsence] leaves, in both of its outcomes. *)
Lemma addAbsence_task_result (payload : object) (w : World) :
  match (addAbsence_task payload w).2 with
  | inl e => e = Error invalid_absence ∧ state (addAbsence_task payload w).1 = state w
  | inr p =>
      ∃ a, p = PendingAbsence a
        ∧ absences (state (addAbsence_task payload w).1)
          = filter (fun x => abs_employeeId x ≠ abs_employeeId a) (absences (state w))
            ++ [a]
        ∧ employees (state (addAbsence_task payload w).1) = employees (state w)
        ∧ branding (state (addAbsence_task payload w).1) = branding (state w)
  end.
Proof.
  unfold addAbsence_task.
  destruct (id_or_fresh payload (uuids w)) as [idv n1].
  destruct (normaliseAbsence _ None n1) as [[a|] n2]; simpl; [|done].
  by exists a.
Qed.

Lemma task_keeps_one_absence_each (o : op) (w : World) :
  one_absence_each (state w) -> one_absence_each (state (task_of o w).1).
Proof.
  unfold one_absence_each. intros Hw.
  destruct o as [p| |p|i u|i|i v|p|i]; simpl.
  - done.
  - done.
  - unfold addEmployee_task.
    destruct (id_or_fresh p (uuids w)) as [idv n1].
    destruct (normaliseEmployee _ n1) as [e n2].
    by destruct (_ || _).
  - unfold updateEmployee_task.
    destruct (map_matching i _ _ _) as [[es [u'|]] n]; done.
  - unfold removeEmployee_task.
    destruct (removeEmployee_scan i _) as [[r|] rest]; simpl; [|done].
    by apply NoDup_map_filter.
  - unfold setEmployeeStatus_task.
    destruct (map_matching i _ _ _) as [[es [u'|]] n]; done.
  - pose proof (addAbsence_task_result p w) as Hr.
    destruct (addAbsence_task p w) as [w1 [e|pd]]; simpl in *.
    + destruct Hr as [_ ->]. done.
    + destruct Hr as (a & _ & -> & _). by apply NoDup_supersede.
  - unfold removeAbsence_task. rewrite removeAbsence_scan_spec.
    destruct (last _); simpl; [|done].
    by apply NoDup_map_filter.
Qed.

Lemma run_state (o : op) (io : io_result) (w : World) :
  state (run o io w).1 = state (task_of o w).1.
Proof.
  unfold run. destruct (task_of o w) as [w1 [e|p]]; [done|].
  by destruct io.
Qed.

(** C8, as the code has it. Every operation keeps the documents with at
    most one absence per employee among themselves, so every document
    reached by operations from such a document, the built-in default among
    them, is one; and after two successful [addAbsence] for one employee
    the second absence is the only absence of that employee. *)
Theorem one_absence_each_preserved :
  one_absence_each DEFAULT_STATE
  ∧ (∀ o io w, one_absence_each (state w) -> one_absence_each (state (run o io w).1))
  ∧ (∀ io i ops w,
       one_absence_each (state w) ->
       one_absence_each (getState (run_all io i ops w).1))
  ∧ (∀ p1 p2 io1 io2 w a1 a2,
       (addAbsence p1 io1 w).2 = Fulfilled (AbsenceResult a1) ->
       (addAbsence p2 io2 (addAbsence p1 io1 w).1).2 = Fulfilled (AbsenceResult a2) ->
       abs_employeeId a1 = abs_employeeId a2 ->
       filter (fun a => abs_employeeId a = abs_employeeId a2)
         (absences (getState (addAbsence p2 io2 (addAbsence p1 io1 w).1).1))
       = [a2]
       ∧ (a1 ≠ a2 ->
          a1 ∉ absences (getState (addAbsence p2 io2 (addAbsence p1 io1 w).1).1))).
Proof.
  assert (∀ o io w, one_absence_each (state w) ->
            one_absence_each (state (run o io w).1)) as Hrun.
  { intros o io w Hw. rewrite run_state. by apply task_keeps_one_absence_each. }
  split; [apply NoDup_nil_2|]. split; [done|]. split.
  - intros io i ops. revert i. induction ops as [|o ops IH]; intros i w Hw; [done|].
    simpl. specialize (Hrun o (io i) w Hw).
    destruct (run o (io i) w) as [w1 out].
    specialize (IH (S i) w1 Hrun).
    by destruct (run_all io (S i) ops w1).
  - intros p1 p2 io1 io2 w a1 a2 _ H2 Hsame. unfold getState, deepClone.
    set (w1 := (addAbsence p1 io1 w).1) in *. clearbody w1.
    assert (filter (fun a => abs_employeeId a = abs_employeeId a2)
              (absences (state (addAbsence p2 io2 w1).1)) = [a2]) as Honly.
    { unfold addAbsence in *. rewrite run_state.
      unfold run in H2. simpl in *.
      pose proof (addAbsence_task_result p2 w1) as Hr.
      destruct (addAbsence_task p2 w1) as [w2 [e|pd]]; simpl in *; [done|].
      destruct Hr as (a & -> & -> & _).
      destruct (persist io2 w2) as [w3 [e|]]; simpl in H2; [done|].
      unfold deepClone in H2. injection H2 as ->. apply filter_supersede. }
    split; [done|]. intros Hne Hin. apply Hne.
    assert (a1 ∈ filter (fun a => abs_employeeId a = abs_employeeId a2)
                   (absences (state (addAbsence p2 io2 w1).1))) as Hin'.
    { apply list_elem_of_filter. done. }
    rewrite Honly in Hin'. by apply list_elem_of_singleton in Hin'.
Qed.

End Absences.

(** ** Trimming twice *)

Lemma trimStart_starts_clean (s : jsstring) : starts_clean (trimStart s).
Proof.
  induction s as [|c s IH]; simpl; [done|].
  destruct (is_space c) eqn:E; [done|]. simpl. done.
Qed.

Lemma trimStart_fixed (s : jsstring) : starts_clean s -> trimStart s = s.
Proof. destruct s as [|c s]; simpl; [done|]. by intros ->. Qed.

Lemma trimStart_snoc (l : jsstring) (c : N) :
  is_space c = false -> ∃ l', trimStart (l ++ [c]) = l' ++ [c].
Proof.
  intros Hc. induction l as [|x l IH]; simpl.
  - exists []. by rewrite Hc.
  - destruct (is_space x); [done|]. by exists (x :: l).
Qed.

Lemma trimEnd_starts_clean (s : jsstring) : starts_clean s -> starts_clean (trimEnd s).
Proof.
  unfold trimEnd. destruct s as [|c s]; simpl; [done|]. intros Hc.
  rewrite reverse_cons. destruct (trimStart_snoc (reverse s) c Hc) as [l' ->].
  by rewrite reverse_snoc.
Qed.

Lemma trimEnd_idem (s : jsstring) : trimEnd (trimEnd s) = trimEnd s.
Proof.
  unfold trimEnd. rewrite reverse_involutive.
  by rewrite (trimStart_fixed _ (trimStart_starts_clean _)).
Qed.

Lemma trim_idem (s : jsstring) : trim (trim s) = trim s.
Proof.
  unfold trim.
  rewrite (trimStart_fixed (trimEnd (trimStart s))).
  - apply trimEnd_idem.
  - apply trimEnd_starts_clean, trimStart_starts_clean.
Qed.

Lemma trimmed_or_is_clean (dflt : jsstring) (v : value) :
  clean dflt = true -> clean (trimmed_or dflt v) = true.
Proof.
  intros Hd. destruct v; simpl; try done.
  destruct (nonempty (trim s)) eqn:E; [|done].
  unfold clean. by rewrite trim_idem, bool_decide_eq_true_2, E.
Qed.

Lemma trimmed_is_trimmed (v : value) : trim (trimmed v) = trimmed v.
Proof. destruct v; simpl; try done. apply trim_idem. Qed.

Section NormalForm.
Context `{Host}.
Hypothesis randomUUID_clean : ∀ k, clean (randomUUID k) = true.

Lemma normaliseEmployee_normal_form (employee : value) (n : nat) :
  canonical_employee (normaliseEmployee employee n).1 = true.
Proof.
  assert (∀ i name (department role photo : value) c,
    clean i = true ->
    canonical_employee
      (mkEmployee i (trimmed_or unknown_name name)
         (trimmed_or other_department department) (trimmed role) (trimmed photo) c)
    = true) as Hform.
  { intros i name department role photo c Hi. unfold canonical_employee. simpl.
    rewrite Hi, !trimmed_or_is_clean by done.
    by rewrite !bool_decide_eq_true_2 by apply trimmed_is_trimmed. }
  unfold normaliseEmployee.
  destruct (negb (is_object employee)).
  - simpl. unfold canonical_employee. simpl. by rewrite randomUUID_clean.
  - destruct (prop k_id employee); simpl; try (by apply Hform).
    destruct (nonempty (trim s)) eqn:E; simpl; apply Hform; [|done].
    unfold clean. by rewrite trim_idem, bool_decide_eq_true_2, E.
Qed.

Lemma map_matching_normal_form (id : jsstring) (f : Employee -> nat -> Employee * nat)
    (es : list Employee) (n : nat) :
  (∀ e k, canonical_employee e = true -> canonical_employee (f e k).1 = true) ->
  forallb canonical_employee es = true ->
  forallb canonical_employee (map_matching id f es n).1.1 = true.
Proof.
  intros Hf. revert n. induction es as [|e es IH]; intros n; simpl; [done|].
  intros [He Hes]%andb_true_iff.
  destruct (decide (emp_id e = id)).
  - specialize (Hf e n He). destruct (f e n) as [e' n1].
    specialize (IH n1 Hes). destruct (map_matching id f es n1) as [[r u] n2].
    simpl in *. by rewrite Hf, IH.
  - specialize (IH n Hes). destruct (map_matching id f es n) as [[r u] n2].
    simpl in *. by rewrite He, IH.
Qed.

Lemma forallb_filter {A} (p : A -> bool) (P : A -> Prop) `{!∀ x, Decision (P x)}
    (l : list A) :
  forallb p l = true -> forallb p (filter P l) = true.
Proof.
  induction l as [|x l IH]; simpl; [done|].
  intros [Hx Hl]%andb_true_iff. rewrite filter_cons.
  destruct (decide (P x)); simpl; [rewrite Hx|]; by apply IH.
Qed.

(** Whatever the operation, the employees stay in normal form. *)
Lemma task_keeps_normal_form (o : op) (w : World) :
  forallb canonical_employee (employees (state w)) = true ->
  forallb canonical_employee (employees (state (task_of o w).1)) = true.
Proof.
  intros Hw. destruct o as [p| |p|i u|i|i v|p|i]; simpl.
  - done.
  - done.
  - unfold addEmployee_task.
    destruct (id_or_fresh p (uuids w)) as [idv n1].
    pose proof (normaliseEmployee_normal_form
      (VObject ((k_isCheckedIn, VBool (truthy (lookup_prop k_isCheckedIn p)))
                :: (k_id, idv) :: p)) n1) as He.
    destruct (normaliseEmployee _ n1) as [e n2]. simpl in He.
    destruct (_ || _); simpl; [done|].
    rewrite forallb_app, Hw. simpl. by rewrite He.
  - unfold updateEmployee_task.
    pose proof (map_matching_normal_form i
      (fun e => normaliseEmployee (VObject (merged e u))) (employees (state w))
      (uuids w)) as Hm.
    destruct (map_matching i _ _ _) as [[es [u'|]] n]; simpl in *; apply Hm; try done;
      intros; apply normaliseEmployee_normal_form.
  - unfold removeEmployee_task. rewrite removeEmployee_scan_spec.
    destruct (last _); simpl; [|done]. by apply forallb_filter.
  - unfold setEmployeeStatus_task.
    pose proof (map_matching_normal_form i
      (fun e n => (set_checked e (truthy v), n)) (employees (state w)) (uuids w)) as Hm.
    destruct (map_matching i _ _ _) as [[es [u'|]] n]; simpl in *; apply Hm; done.
  - pose proof (addAbsence_task_result p w) as Hr.
    destruct (addAbsence_task p w) as [w1 [e|pd]]; simpl in *.
    + destruct Hr as [_ ->]. done.
    + destruct Hr as (a & _ & _ & -> & _). done.
  - unfold removeAbsence_task. rewrite removeAbsence_scan_spec.
    by destruct (last _).
Qed.

(** X11. With identifiers generated trimmed and not empty, the operations
    keep the employees in normal form: after any sequence of operations on
    a document whose employees are, every employee has a trimmed non-empty
    identifier, name and department and a trimmed role and photo. *)
Lemma run_all_keeps_normal_form (io : nat -> io_result) (ops : list op) :
  ∀ i w,
    forallb canonical_employee (employees (state w)) = true ->
    forallb canonical_employee (employees (state (run_all io i ops w).1)) = true.
Proof.
  induction ops as [|o ops IH]; intros i w Hw; [done|].
  simpl. pose proof (task_keeps_normal_form o w Hw) as Ho.
  rewrite <- (run_state o (io i)) in Ho.
  destruct (run o (io i) w) as [w1 out].
  specialize (IH (S i) w1 Ho).
  by destruct (run_all io (S i) ops w1).
Qed.

End NormalForm.

(** ** Identifiers of a normalised employee list *)

Section EmployeeList.
Context `{Host}.

Lemma normaliseEmployee_id (x : value) (n : nat) :
  match own_id x with
  | Some s => emp_id (normaliseEmployee x n).1 = s
              ∧ (normaliseEmployee x n).2 = n ∧ nonempty s = true
  | None => emp_id (normaliseEmployee x n).1 = randomUUID n
            ∧ (normaliseEmployee x n).2 = S n
  end.
Proof.
  unfold own_id, normaliseEmployee.
  destruct x; simpl; try done.
  destruct (lookup_prop k_id props); simpl; try done.
  by destruct (nonempty (trim s)) eqn:E.
Qed.

Lemma free_candidate_kept (fuel : nat) (taken : gset jsstring) (c : jsstring) (n : nat) :
  c ∉ taken -> free_candidate fuel taken c n = Some (c, n).
Proof. intros Hc. destruct fuel; simpl; by rewrite bool_decide_eq_false_2. Qed.

Lemma free_candidate_redrawn (fuel : nat) (taken : gset jsstring) (c : jsstring)
    (n : nat) :
  1 ≤ fuel -> c ∈ taken -> randomUUID n ∉ taken ->
  free_candidate fuel taken c n = Some (randomUUID n, S n).
Proof.
  intros Hf Hc Hu. destruct fuel; [lia|]. simpl.
  rewrite bool_decide_eq_true_2 by done. by apply free_candidate_kept.
Qed.

Lemma free_candidate_not_taken (fuel : nat) (taken : gset jsstring) (c c' : jsstring)
    (n n' : nat) :
  free_candidate fuel taken c n = Some (c', n') -> c' ∉ taken.
Proof.
  revert c n. induction fuel as [|fuel IH]; intros c n; simpl.
  - destruct (bool_decide (c ∈ taken)) eqn:E; [done|].
    intros [= <- <-]. by apply bool_decide_eq_false in E.
  - destruct (bool_decide (c ∈ taken)) eqn:E; [apply IH|].
    intros [= <- <-]. by apply bool_decide_eq_false in E.
Qed.

(** The identifiers come out pairwise distinct whenever the loop ends. *)
Lemma normaliseEmployees_NoDup (fuel : nat) (l : list value) :
  ∀ taken n out n',
    normaliseEmployees fuel taken l n = Some (out, n') ->
    NoDup (map emp_id out) ∧ ∀ e, e ∈ out -> emp_id e ∉ taken.
Proof.
  induction l as [|x l IH]; intros taken n out n'; simpl.
  - intros [= <- <-]. split; [apply NoDup_nil_2|]. by intros e ?%elem_of_nil.
  - destruct (normaliseEmployee x n) as [e1 n1].
    destruct (if nonempty (emp_id e1) then _ else _) as [c n2].
    destruct (free_candidate fuel taken c n2) as [[c' n3]|] eqn:Ef; [|done].
    destruct (normaliseEmployees fuel ({[c']} ∪ taken) l n3) as [[rest n4]|] eqn:Er;
      [|done].
    intros [= <- <-]. apply IH in Er as [Hnd Hout].
    apply free_candidate_not_taken in Ef.
    split.
    + simpl. apply NoDup_cons. split; [|done].
      change (map emp_id rest) with (emp_id <$> rest).
      intros (e & -> & He)%list_elem_of_fmap.
      apply (Hout e He). apply elem_of_union_l. by apply elem_of_singleton.
    + intros e [->|He]%elem_of_cons; [done|].
      intros Hin. apply (Hout e He). by apply elem_of_union_r.
Qed.

Section Fresh.
Hypothesis randomUUID_inj : ∀ a b, randomUUID a = randomUUID b -> a = b.

Lemma normaliseEmployees_rule (fuel : nat) (l : list value) :
  1 ≤ fuel ->
  ∀ pre taken n,
    (∀ k x, x ∈ pre ++ l -> own_id x ≠ Some (randomUUID k)) ->
    (∀ s, s ∈ taken -> s ∈ omap own_id pre ∨ ∃ k, k < n ∧ s = randomUUID k) ->
    (∀ s, s ∈ omap own_id pre -> s ∈ taken) ->
    ∃ out n',
      normaliseEmployees fuel taken l n = Some (out, n')
      ∧ length out = length l
      ∧ ∀ i x, l !! i = Some x ->
          ∃ e, out !! i = Some e ∧ id_rule (pre ++ take i l) x e.
Proof.
  intros Hfuel. induction l as [|x l IH]; intros pre taken n Hfresh T1 T2.
  - exists [], n. by split; [|split].
  - assert (∀ k, n ≤ k -> randomUUID k ∉ taken) as Hnew.
    { intros k Hk [Hin|(k' & Hk' & Heq)]%T1.
      - apply list_elem_of_omap in Hin as (y & Hy & Hown).
        apply (Hfresh k y); [|done]. apply elem_of_app. by left.
      - apply randomUUID_inj in Heq. lia. }
    simpl. pose proof (normaliseEmployee_id x n) as Hid.
    destruct (normaliseEmployee x n) as [e1 n1]. simpl in Hid.
    destruct (own_id x) as [s|] eqn:Hown.
    + destruct Hid as (Hs & -> & Hne). rewrite Hs, Hne.
      destruct (decide (s ∈ taken)) as [Hin|Hnin].
      * rewrite free_candidate_redrawn by (done || apply Hnew; lia).
        destruct (IH (pre ++ [x]) ({[randomUUID n]} ∪ taken) (S n))
          as (out & n' & -> & Hlen & Hrule).
        { intros k y Hy. apply Hfresh. rewrite <- app_assoc in Hy. done. }
        { intros s' [->%elem_of_singleton|Hs']%elem_of_union.
          - right. exists n. split; [lia|done].
          - apply T1 in Hs' as [Hp|(k & Hk & ->)].
            + left. rewrite omap_app. apply elem_of_app. by left.
            + right. exists k. split; [lia|done]. }
        { intros s'. rewrite omap_app. intros [Hp|Hx]%elem_of_app.
          - apply elem_of_union_r. by apply T2.
          - simpl in Hx. rewrite Hown in Hx.
            apply list_elem_of_singleton in Hx as ->. by apply elem_of_union_r. }
        eexists _, _. split; [done|]. split; [simpl; by rewrite Hlen|].
        intros [|i] y Hy; simpl in *.
        -- injection Hy as <-. eexists. split; [done|].
           unfold id_rule. rewrite Hown, app_nil_r.
           rewrite bool_decide_eq_true_2.
           ++ exists n. split; [done|]. simpl. intros <-.
              apply (Hfresh n x); [|done]. apply elem_of_app. right. left.
           ++ apply T1 in Hin as [?|(k & _ & ->)]; [done|].
              exfalso. apply (Hfresh k x); [|done]. apply elem_of_app. right. left.
        -- destruct (Hrule i y Hy) as (e & He & Hr). exists e. split; [done|].
           by rewrite <- app_assoc in Hr.
      * rewrite free_candidate_kept by done.
        destruct (IH (pre ++ [x]) ({[s]} ∪ taken) n)
          as (out & n' & -> & Hlen & Hrule).
        { intros k y Hy. apply Hfresh. rewrite <- app_assoc in Hy. done. }
        { intros s' [->%elem_of_singleton|Hs']%elem_of_union.
          - left. rewrite omap_app. apply elem_of_app. right. simpl.
            rewrite Hown. left.
          - apply T1 in Hs' as [Hp|(k & Hk & ->)].
            + left. rewrite omap_app. apply elem_of_app. by left.
            + right. exists k. split; [lia|done]. }
        { intros s'. rewrite omap_app. intros [Hp|Hx]%elem_of_app.
          - apply elem_of_union_r. by apply T2.
          - simpl in Hx. rewrite Hown in Hx.
            apply list_elem_of_singleton in Hx as ->.
            apply elem_of_union_l. by apply elem_of_singleton. }
        eexists _, _. split; [done|]. split; [simpl; by rewrite Hlen|].
        intros [|i] y Hy; simpl in *.
        -- injection Hy as <-. eexists. split; [done|].
           unfold id_rule. rewrite Hown, app_nil_r.
           rewrite bool_decide_eq_false_2; [done|]. intros Hp. by apply Hnin, T2.
        -- destruct (Hrule i y Hy) as (e & He & Hr). exists e. split; [done|].
           by rewrite <- app_assoc in Hr.
    + destruct Hid as (Hs & ->). rewrite Hs.
      assert (∃ k0 n2, n ≤ k0 < n2
                ∧ (if nonempty (randomUUID n) then (randomUUID n, S n)
                   else (randomUUID (S n), S (S n))) = (randomUUID k0, n2))
        as (k0 & n2 & Hk0 & ->).
      { destruct (nonempty (randomUUID n)).
        - exists n, (S n). split; [lia|done].
        - exists (S n), (S (S n)). split; [lia|done]. }
      rewrite free_candidate_kept by (apply Hnew; lia).
      destruct (IH (pre ++ [x]) ({[randomUUID k0]} ∪ taken) n2)
        as (out & n' & -> & Hlen & Hrule).
      { intros k y Hy. apply Hfresh. rewrite <- app_assoc in Hy. done. }
      { intros s' [->%elem_of_singleton|Hs']%elem_of_union.
        - right. exists k0. split; [lia|done].
        - apply T1 in Hs' as [Hp|(k & Hk & ->)].
          + left. rewrite omap_app. apply elem_of_app. by left.
          + right. exists k. split; [lia|done]. }
      { intros s'. rewrite omap_app. intros [Hp|Hx]%elem_of_app.
        - apply elem_of_union_r. by apply T2.
        - simpl in Hx. rewrite Hown in Hx. by apply elem_of_nil in Hx. }
      eexists _, _. split; [done|]. split; [simpl; by rewrite Hlen|].
      intros [|i] y Hy; simpl in *.
      * injection Hy as <-. eexists. split; [done|].
        unfold id_rule. rewrite Hown. by exists k0.
      * destruct (Hrule i y Hy) as (e & He & Hr). exists e. split; [done|].
        by rewrite <- app_assoc in Hr.
Qed.

End Fresh.

(** C9. With a generator that never repeats itself and never produces an
    identifier the raw entries carry, normalising a raw employee list ends
    (one spare turn of the loop is enough) and yields as many employees,
    with pairwise distinct identifiers: an entry that is the first to carry
    its identifier keeps it, an entry carrying the identifier of an earlier
    entry gets a generated one, as does an entry carrying none. *)
Theorem normaliseEmployeeList_distinct_ids (fuel : nat) (l : list value) (n : nat) :
  (∀ a b, randomUUID a = randomUUID b -> a = b) ->
  (∀ k x, x ∈ l -> own_id x ≠ Some (randomUUID k)) ->
  1 ≤ fuel ->
  ∃ out n',
    normaliseEmployeeList fuel l n = Some (out, n')
    ∧ length out = length l
    ∧ NoDup (map emp_id out)
    ∧ ∀ i x, l !! i = Some x -> ∃ e, out !! i = Some e ∧ id_rule (take i l) x e.
Proof.
  intros Hinj Hfresh Hfuel. unfold normaliseEmployeeList.
  destruct (normaliseEmployees_rule Hinj fuel l Hfuel [] ∅ n)
    as (out & n' & Hrun & Hlen & Hrule).
  - done.
  - intros s Hs. by apply elem_of_empty in Hs.
  - intros s Hs. by apply elem_of_nil in Hs.
  - exists out, n'. split; [done|]. split; [done|].
    split; [|done]. by apply normaliseEmployees_NoDup in Hrun as [? _].
Qed.

End EmployeeList.

(** ** Writing a document and reading it back *)

Section RoundTrip.
Context `{Host}.

Lemma normaliseEmployee_canonical (e : Employee) (n : nat) :
  canonical_employee e = true ->
  normaliseEmployee (VObject (employeeProps e)) n = (e, n).
Proof.
  unfold canonical_employee. intros Hc.
  apply andb_true_iff in Hc as [Hc Hphoto%bool_decide_eq_true].
  apply andb_true_iff in Hc as [Hc Hrole%bool_decide_eq_true].
  apply andb_true_iff in Hc as [Hc Hdept].
  apply andb_true_iff in Hc as [Hc Hname].
  destruct (clean_spec _ Hc) as [Hid Hidn].
  unfold normaliseEmployee. simpl negb. cbv iota.
  change (prop k_id (VObject (employeeProps e))) with (VString (emp_id e)).
  change (prop k_name (VObject (employeeProps e))) with (VString (emp_name e)).
  change (prop k_department (VObject (employeeProps e)))
    with (VString (emp_department e)).
  change (prop k_role (VObject (employeeProps e))) with (VString (emp_role e)).
  change (prop k_photo (VObject (employeeProps e))) with (VString (emp_photo e)).
  change (prop k_isCheckedIn (VObject (employeeProps e)))
    with (VBool (emp_isCheckedIn e)).
  cbv beta iota. rewrite Hid, Hidn, !trimmed_or_clean by done. simpl.
  rewrite Hrole, Hphoto. by destruct e.
Qed.

Lemma normaliseEmployees_canonical (fuel : nat) (es : list Employee) :
  ∀ taken n,
    forallb canonical_employee es = true ->
    NoDup (map emp_id es) ->
    (∀ e, e ∈ es -> emp_id e ∉ taken) ->
    normaliseEmployees fuel taken (map (fun e => VObject (employeeProps e)) es) n
    = Some (es, n).
Proof.
  induction es as [|e es IH]; intros taken n Hc Hnd Hfree; simpl; [done|].
  simpl in Hc. apply andb_true_iff in Hc as [He Hes].
  apply NoDup_cons in Hnd as [Hnin Hnd].
  rewrite normaliseEmployee_canonical by done.
  assert (nonempty (emp_id e) = true) as ->.
  { unfold canonical_employee in He.
    do 4 (apply andb_true_iff in He as [He _]).
    by destruct (clean_spec _ He). }
  rewrite free_candidate_kept by (apply Hfree; left).
  rewrite IH; [by destruct e|done|done|].
  intros e' He' [Heq%elem_of_singleton|Hin]%elem_of_union.
  - apply Hnin. change (map emp_id es) with (emp_id <$> es).
    apply list_elem_of_fmap. by exists e'.
  - apply (Hfree e'); [by right|done].
Qed.

Lemma normaliseAbsence_canonical (ids : list jsstring) (validIds : gset jsstring)
    (a : Absence) (n : nat) :
  (∀ s, s ∈ ids -> s ∈ validIds) ->
  canonical_absence ids a = true ->
  normaliseAbsence (VObject (absenceProps a)) (Some validIds) n = (Some a, n).
Proof.
  unfold canonical_absence. intros Hids Hc.
  apply andb_true_iff in Hc as [Hc Hgt].
  apply andb_true_iff in Hc as [Hc Hto].
  apply andb_true_iff in Hc as [Hc Hfrom].
  apply andb_true_iff in Hc as [Hc Hin%bool_decide_eq_true].
  apply andb_true_iff in Hc as [Hc Heid].
  destruct (clean_spec _ Hc) as [Hid Hidn].
  unfold normaliseAbsence. simpl negb. cbv iota.
  change (prop k_employeeId (VObject (absenceProps a)))
    with (VString (abs_employeeId a)).
  change (prop k_from (VObject (absenceProps a))) with (VString (abs_from a)).
  change (prop k_to (VObject (absenceProps a))) with (VString (abs_to a)).
  change (prop k_reason (VObject (absenceProps a))) with (VString (abs_reason a)).
  change (prop k_id (VObject (absenceProps a))) with (VString (abs_id a)).
  simpl as_string. cbv iota.
  rewrite Heid, (bool_decide_eq_true_2 _ (Hids _ Hin)), Hfrom, Hto. simpl.
  destruct (date_gt (abs_from a) (abs_to a)); [done|].
  rewrite Hid, Hidn. by destruct a.
Qed.

Lemma normaliseAbsenceList_canonical (ids : list jsstring) (validIds : gset jsstring)
    (l : list Absence) (n : nat) :
  (∀ s, s ∈ ids -> s ∈ validIds) ->
  forallb (canonical_absence ids) l = true ->
  normaliseAbsenceList (map (fun a => VObject (absenceProps a)) l) validIds n = (l, n).
Proof.
  intros Hids. induction l as [|a l IH]; simpl; [done|].
  intros [Ha Hl]%andb_true_iff.
  rewrite (normaliseAbsence_canonical ids) by done.
  by rewrite IH.
Qed.

Lemma normaliseState_valid (fuel : nat) (d : Document) (n : nat) :
  valid_document d = true -> employees d ≠ [] ->
  normaliseState fuel (documentValue d) n = Some (d, n).
Proof.
  unfold valid_document. intros Hv Hne.
  apply andb_true_iff in Hv as [Hv Habs].
  apply andb_true_iff in Hv as [Hemp Hnd%bool_decide_eq_true].
  unfold normaliseState. simpl negb. cbv iota.
  change (prop k_branding (documentValue d))
    with (VObject [ (k_logo, VString (logo (branding d))) ]).
  change (prop k_employees (documentValue d))
    with (VArray (map (fun e => VObject (employeeProps e)) (employees d))).
  change (prop k_absences (documentValue d))
    with (VArray (map (fun a => VObject (absenceProps a)) (absences d))).
  assert (match map (fun e => VObject (employeeProps e)) (employees d) with
          | [] => Some (DEFAULT_EMPLOYEES, n)
          | e :: r => normaliseEmployeeList fuel (e :: r) n
          end = Some (employees d, n)) as Hes.
  { destruct (employees d) as [|e es] eqn:E; [done|].
    assert (∀ e', e' ∈ e :: es -> emp_id e' ∉ (∅ : gset jsstring)) as Hfree.
    { intros e' _ Hin. by apply elem_of_empty in Hin. }
    exact (normaliseEmployees_canonical fuel (e :: es) ∅ n Hemp Hnd Hfree). }
  simpl. simpl in Hes. rewrite Hes.
  rewrite (normaliseAbsenceList_canonical (map emp_id (employees d))); [| |done].
  - by destruct d as [[?] ? ?].
  - intros s Hs. by apply elem_of_list_to_set.
Qed.

(** C6, as the code has it. For every document in normal form that has at
    least one employee, writing it with [persist] and reading the file back
    with [init] gives the same document. *)
Theorem save_then_load (d : Document) (f : File) (n : nat) :
  valid_document d = true -> employees d ≠ [] ->
  (persist IoOk (mkWorld d f n)).2 = None
  ∧ ∀ fuel io d0 n0,
      init fuel io (mkWorld d0 (file (persist IoOk (mkWorld d f n)).1) n0)
      = Some (mkWorld d (Json (documentValue d)) n0, None).
Proof.
  intros Hv Hne. split; [done|]. intros fuel io d0 n0.
  unfold init. simpl. by rewrite normaliseState_valid.
Qed.

End RoundTrip.

(** ** The queue runs the tasks one at a time, in order *)

Section QueueFacts.
Context `{Host}.
Variable io : nat -> io_result.

Lemma all_waiting_lookup (ts : list (op * phase)) (j : nat) (o : op) (ph : phase) :
  all_waiting ts -> ts !! j = Some (o, ph) -> ph = Waiting.
Proof.
  intros Hw Hj. unfold all_waiting in Hw. rewrite Forall_lookup in Hw.
  exact (Hw j (o, ph) Hj).
Qed.

Lemma sim_enqueue (o : op) i w ts wc :
  sim io i w ts wc -> sim io i w (ts ++ [(o, Waiting)]) wc.
Proof.
  assert (∀ ts, all_waiting ts -> all_waiting (ts ++ [(o, Waiting)])) as Hw.
  { intros ts' Hts. apply Forall_app. split; [done|]. by apply Forall_singleton. }
  induction 1; simpl.
  - apply sim_idle. by apply Hw.
  - eapply sim_settled; done.
  - apply sim_mkdir; [done|]. by apply Hw.
  - apply sim_write; [done..|]. by apply Hw.
Qed.

Lemma sim_start (o : op) i w ts wc (j : nat) :
  sim io i w ts wc ->
  ts !! j = Some (o, Waiting) ->
  (∀ j', j = S j' -> ∃ t, ts !! j' = Some t ∧ is_settled t.2 = true) ->
  sim io i w (<[j := (o, started (task_of o wc).2)]> ts) (task_of o wc).1.
Proof.
  intros Hsim. revert j.
  induction Hsim as [i w ts Hw|i w o' out ts w1 wc Hrun Hsim IH
                     |i w o' p ts wc Ht Hw|i w o' p ts wc Ht Hio Hw];
    intros j Hj Hready.
  - destruct j as [|j].
    + destruct ts as [|t ts]; [done|]. simpl in Hj. injection Hj as ->.
      apply Forall_cons in Hw as [_ Hw]. simpl.
      destruct (task_of o w) as [w1 [e|p]] eqn:Ht; simpl.
      * eapply sim_settled; [|by apply sim_idle].
        unfold run. by rewrite Ht.
      * by apply sim_mkdir.
    + destruct (Hready j eq_refl) as ([o' ph] & Hj' & Hs).
      rewrite (all_waiting_lookup _ _ _ _ Hw Hj') in Hs. done.
  - destruct j as [|j]; [done|]. simpl in Hj. simpl.
    eapply sim_settled; [done|]. apply IH; [done|].
    intros j' ->. apply (Hready (S j')). done.
  - destruct j as [|j]; [done|].
    destruct (Hready j eq_refl) as ([o'' ph] & Hj' & Hs).
    destruct j as [|j]; simpl in Hj'.
    + by injection Hj' as <- <-.
    + rewrite (all_waiting_lookup _ _ _ _ Hw Hj') in Hs. done.
  - destruct j as [|j]; [done|].
    destruct (Hready j eq_refl) as ([o'' ph] & Hj' & Hs).
    destruct j as [|j]; simpl in Hj'.
    + by injection Hj' as <- <-.
    + rewrite (all_waiting_lookup _ _ _ _ Hw Hj') in Hs. done.
Qed.

Lemma sim_mkdir_step (o : op) (p : pending) i w ts wc (j : nat) :
  sim io i w ts wc ->
  ts !! j = Some (o, AwaitMkdir p) ->
  sim io i w
    (<[j := (o, match io (i + j) with
                | MkdirFailed code => Settled (Rejected (FsError code))
                | _ => AwaitWrite p (documentValue (state wc))
                end)]> ts) wc.
Proof.
  intros Hsim. revert j.
  induction Hsim as [i w ts Hw|i w o' out ts w1 wc Hrun Hsim IH
                     |i w o' p' ts wc Ht Hw|i w o' p' ts wc Ht Hio Hw];
    intros j Hj.
  - by pose proof (all_waiting_lookup _ _ _ _ Hw Hj).
  - destruct j as [|j]; [done|]. simpl in Hj. simpl.
    eapply sim_settled; [done|].
    replace (i + S j) with (S i + j) by lia. by apply IH.
  - destruct j as [|j]; simpl in Hj.
    + injection Hj as -> ->. simpl. rewrite Nat.add_0_r.
      destruct (io i) as [|code|code residue] eqn:Eio.
      * apply sim_write; [done| |done]. intros code. by rewrite Eio.
      * eapply sim_settled; [|by apply sim_idle].
        unfold run. rewrite Ht, Eio. done.
      * apply sim_write; [done| |done]. intros code'. by rewrite Eio.
    + by pose proof (all_waiting_lookup _ _ _ _ Hw Hj).
  - destruct j as [|j]; simpl in Hj; [done|].
    by pose proof (all_waiting_lookup _ _ _ _ Hw Hj).
Qed.

Lemma sim_write_step (o : op) (p : pending) (data : value) i w ts wc (j : nat) :
  sim io i w ts wc ->
  ts !! j = Some (o, AwaitWrite p data) ->
  match io (i + j) with
  | WriteFailed code residue =>
      sim io i w (<[j := (o, Settled (Rejected (FsError code)))]> ts)
        (with_file wc residue)
  | _ =>
      sim io i w
        (<[j := (o, Settled (Fulfilled (finish p (with_file wc (Json data)))))]> ts)
        (with_file wc (Json data))
  end.
Proof.
  intros Hsim. revert j.
  induction Hsim as [i w ts Hw|i w o' out ts w1 wc Hrun Hsim IH
                     |i w o' p' ts wc Ht Hw|i w o' p' ts wc Ht Hio Hw];
    intros j Hj.
  - by pose proof (all_waiting_lookup _ _ _ _ Hw Hj).
  - destruct j as [|j]; [done|]. simpl in Hj. simpl.
    replace (i + S j) with (S i + j) by lia.
    specialize (IH j Hj).
    destruct (io (S i + j)); eapply sim_settled; done.
  - destruct j as [|j]; simpl in Hj; [done|].
    by pose proof (all_waiting_lookup _ _ _ _ Hw Hj).
  - destruct j as [|j]; simpl in Hj.
    + injection Hj as -> -> <-. simpl. rewrite Nat.add_0_r.
      destruct (io i) as [|code|code residue] eqn:Eio.
      * eapply sim_settled; [|by apply sim_idle].
        unfold run. rewrite Ht, Eio. done.
      * by destruct (Hio code).
      * eapply sim_settled; [|by apply sim_idle].
        unfold run. rewrite Ht, Eio. done.
    + by pose proof (all_waiting_lookup _ _ _ _ Hw Hj).
Qed.

Lemma queue_ready_spec (ts : list (op * phase)) (j : nat) :
  queue_ready ts j = true ->
  ∀ j', j = S j' -> ∃ t, ts !! j' = Some t ∧ is_settled t.2 = true.
Proof.
  intros Hr j' ->. simpl in Hr.
  destruct (ts !! j') as [[o ph]|]; [|done]. by eexists.
Qed.

Lemma step_sim (w0 : World) (m m' : Machine) :
  step io m m' -> sim io 0 w0 (tasks m) (world m) ->
  sim io 0 w0 (tasks m') (world m').
Proof.
  intros Hstep Hsim. destruct Hstep as [m o|m i o Hi Hr|m i o p Hi|m i o p data Hi].
  - by apply sim_enqueue.
  - simpl. apply sim_start; [done..|]. by apply queue_ready_spec.
  - simpl. by apply (sim_mkdir_step o p 0).
  - pose proof (sim_write_step o p data 0 w0 _ _ i Hsim Hi) as Hs. simpl in Hs.
    by destruct (io i).
Qed.

Lemma reachable_sim (w0 : World) (m : Machine) :
  rtc (step io) (idle w0) m -> sim io 0 w0 (tasks m) (world m).
Proof.
  revert m.
  apply (rtc_ind_r (fun m => sim io 0 w0 (tasks m) (world m)) (idle w0)).
  - apply sim_idle. apply Forall_nil_2.
  - intros m1 m2 _ Hstep IH. by apply (step_sim w0 m1 m2).
Qed.

Lemma sim_quiescent i w ts wc :
  sim io i w ts wc ->
  Forall (fun t => is_settled t.2 = true) ts ->
  (run_all io i (map fst ts) w).1 = wc
  ∧ map (fun t => match t.2 with Settled o => Some o | _ => None end) ts
    = map Some (run_all io i (map fst ts) w).2.
Proof.
  induction 1 as [i w ts Hw|i w o' out ts w1 wc Hrun Hsim IH
                  |i w o' p' ts wc Ht Hw|i w o' p' ts wc Ht Hio Hw];
    intros Hall.
  - destruct ts as [|[o ph] ts]; [done|].
    apply Forall_cons in Hall as [Hs _]. apply Forall_cons in Hw as [Hw _].
    simpl in *. by subst ph.
  - apply Forall_cons in Hall as [_ Hall]. destruct (IH Hall) as [IH1 IH2].
    simpl. rewrite Hrun.
    destruct (run_all io (S i) (map fst ts) w1) as [w2 outs]. simpl in *.
    by rewrite IH1, IH2.
  - by apply Forall_cons in Hall as [? _].
  - by apply Forall_cons in Hall as [? _].
Qed.

Lemma sim_one_at_a_time i w ts wc :
  sim io i w ts wc ->
  ∀ a b ta tb,
    a < b -> ts !! a = Some ta -> ts !! b = Some tb ->
    is_waiting tb.2 = false -> is_settled ta.2 = true.
Proof.
  induction 1 as [i w ts Hw|i w o' out ts w1 wc Hrun Hsim IH
                  |i w o' p' ts wc Ht Hw|i w o' p' ts wc Ht Hio Hw];
    intros a b [oa pa] [ob pb] Hab Ha Hb Hnw; simpl in *.
  - rewrite (all_waiting_lookup _ _ _ _ Hw Hb) in Hnw. done.
  - destruct b as [|b]; [lia|]. destruct a as [|a]; simpl in *.
    + by injection Ha as <- <-.
    + apply (IH a b (oa, pa) (ob, pb)); [lia|done..].
  - destruct b as [|b]; [lia|]. simpl in Hb.
    rewrite (all_waiting_lookup _ _ _ _ Hw Hb) in Hnw. done.
  - destruct b as [|b]; [lia|]. simpl in Hb.
    rewrite (all_waiting_lookup _ _ _ _ Hw Hb) in Hnw. done.
Qed.

(** The first task that has not settled, when there is one. *)
Lemma first_unsettled (ts : list (op * phase)) :
  ¬ Forall (fun t => is_settled t.2 = true) ts ->
  ∃ k o ph,
    ts !! k = Some (o, ph) ∧ is_settled ph = false ∧ queue_ready ts k = true.
Proof.
  induction ts as [|[o ph] ts IH]; intros Hn.
  - destruct Hn. apply Forall_nil_2.
  - destruct (is_settled ph) eqn:Hs.
    + destruct IH as (k & o' & ph' & Hk & Hs' & Hr).
      { intros Hall. apply Hn. by apply Forall_cons. }
      exists (S k), o', ph'. split; [done|]. split; [done|].
      destruct k as [|k]; simpl; [done|]. simpl in Hr. done.
    + by exists 0, o, ph.
Qed.

Lemma insert_keeps_ops (ts : list (op * phase)) (k : nat) (o : op) (ph ph' : phase) :
  ts !! k = Some (o, ph) -> map fst (<[k := (o, ph')]> ts) = map fst ts.
Proof.
  revert k. induction ts as [|t ts IH]; intros [|k] Hk; simpl in *; try done.
  - by injection Hk as ->.
  - by rewrite IH.
Qed.

Lemma insert_weight (ts : list (op * phase)) (k : nat) (o : op) (ph ph' : phase) :
  ts !! k = Some (o, ph) ->
  weight (<[k := (o, ph')]> ts) + phase_weight ph = weight ts + phase_weight ph'.
Proof.
  unfold weight. revert k.
  induction ts as [|t ts IH]; intros [|k] Hk; simpl in *; try done.
  - injection Hk as ->. simpl. lia.
  - specialize (IH k Hk). lia.
Qed.

Lemma internal_progress (m : Machine) :
  ¬ quiescent m ->
  ∃ m', internal_step io m m' ∧ weight (tasks m') < weight (tasks m).
Proof.
  intros (k & o & ph & Hk & Hs & Hr)%first_unsettled.
  destruct ph as [|p|p data|out]; [| | |done].
  - eexists. split.
    + apply internal_intro; [by apply (step_start io m k o)|].
      simpl. by apply (insert_keeps_ops _ _ _ Waiting).
    + simpl. pose proof (insert_weight _ _ _ _ (started (task_of o (world m)).2) Hk).
      simpl in *. destruct (task_of o (world m)).2; simpl in *; lia.
  - eexists. split.
    + apply internal_intro; [by apply (step_mkdir io m k o p)|].
      simpl. by apply (insert_keeps_ops _ _ _ (AwaitMkdir p)).
    + simpl.
      pose proof (insert_weight _ _ _ _
        (match io k with
         | MkdirFailed code => Settled (Rejected (FsError code))
         | _ => AwaitWrite p (documentValue (state (world m)))
         end) Hk).
      simpl in *. destruct (io k); simpl in *; lia.
  - eexists. split.
    + apply internal_intro; [by apply (step_write io m k o p data)|].
      destruct (io k); simpl; by apply (insert_keeps_ops _ _ _ (AwaitWrite p data)).
    + destruct (io k); simpl;
        match goal with
        | |- weight (<[_ := (_, ?ph')]> _) < _ =>
            pose proof (insert_weight _ _ _ _ ph' Hk)
        end; simpl in *; lia.
Qed.

Lemma quiescent_dec (m : Machine) : Decision (quiescent m).
Proof. unfold quiescent. apply Forall_dec. intros t. apply _. Qed.

Lemma runs_to_quiescence (m : Machine) :
  ∃ m', rtc (internal_step io) m m' ∧ quiescent m'.
Proof.
  remember (weight (tasks m)) as n eqn:Hn. revert m Hn.
  induction n as [n IH] using lt_wf_ind. intros m ->.
  destruct (quiescent_dec m) as [Hq|Hq].
  - exists m. split; [apply rtc_refl|done].
  - destruct (internal_progress m Hq) as (m1 & Hstep & Hlt).
    destruct (IH _ Hlt m1 eq_refl) as (m' & Hrun & Hq').
    exists m'. split; [|done]. by eapply rtc_l.
Qed.

Lemma internal_steps_are_steps (m m' : Machine) :
  rtc (internal_step io) m m' ->
  rtc (step io) m m' ∧ map fst (tasks m') = map fst (tasks m).
Proof.
  induction 1 as [|m1 m2 m3 [? ? Hstep Hops] _ [IH1 IH2]]; [done|].
  split; [by eapply rtc_l|]. by rewrite IH2.
Qed.

(** C1. Whatever requests arrive and whenever, and however the file
    system calls end: no task leaves the queue before every task enqueued
    earlier has settled, its write included; once every task has settled,
    the store and the outcome of every request are those of the operations
    run one after the other in the order of their submission; and from any
    state the store reaches on its own a state where every task has settled,
    a rejected task not holding back the tasks behind it. *)
Theorem queue_serialises (w0 : World) (m : Machine) :
  rtc (step io) (idle w0) m ->
  one_at_a_time m
  ∧ (quiescent m ->
     world m = (run_all io 0 (map fst (tasks m)) w0).1
     ∧ outcomes m = map Some (run_all io 0 (map fst (tasks m)) w0).2)
  ∧ ∃ m',
      rtc (internal_step io) m m' ∧ quiescent m'
      ∧ map fst (tasks m') = map fst (tasks m)
      ∧ world m' = (run_all io 0 (map fst (tasks m)) w0).1
      ∧ outcomes m' = map Some (run_all io 0 (map fst (tasks m)) w0).2.
Proof.
  intros Hreach. pose proof (reachable_sim w0 m Hreach) as Hsim.
  split; [|split].
  - unfold one_at_a_time. by eapply sim_one_at_a_time.
  - intros Hq. destruct (sim_quiescent _ _ _ _ Hsim Hq) as [Hw Ho]. done.
  - destruct (runs_to_quiescence m) as (m' & Hrun & Hq).
    destruct (internal_steps_are_steps m m' Hrun) as [Hsteps Hops].
    assert (rtc (step io) (idle w0) m') as Hreach' by by etrans.
    pose proof (reachable_sim w0 m' Hreach') as Hsim'.
    destruct (sim_quiescent _ _ _ _ Hsim' Hq) as [Hw Ho].
    exists m'. rewrite <- Hops, Hw. done.
Qed.

End QueueFacts.

(** ** The properties on examples *)

Ltac advance :=
  match goal with
  | |- rtc _ ?m _ => let m' := eval vm_compute in m in change m with m'
  end.

(** A run of the queue: requests arrive while tasks are under way. *)
Lemma three_requests_run :
  rtc (step (H := test_host) second_write_fails) (idle fresh_world) three_settled.
Proof.
  eapply rtc_l. { apply (step_enqueue _ _ (RemoveEmployee (lit "nobody"))). } advance.
  eapply rtc_l.
  { apply (step_enqueue _ _ (SetBrandingLogo (lit "/uploads/branding/n.png"))). }
  advance.
  eapply rtc_l. { eapply (step_start _ _ 0); reflexivity. } advance.
  eapply rtc_l. { apply (step_enqueue _ _ (AddEmployee payload_A_B)). } advance.
  eapply rtc_l. { eapply (step_start _ _ 1); reflexivity. } advance.
  eapply rtc_l. { eapply (step_mkdir _ _ 1); reflexivity. } advance.
  eapply rtc_l. { eapply (step_write _ _ 1); reflexivity. } advance.
  eapply rtc_l. { eapply (step_start _ _ 2); reflexivity. } advance.
  eapply rtc_l. { eapply (step_mkdir _ _ 2); reflexivity. } advance.
  eapply rtc_l. { eapply (step_write _ _ 2); reflexivity. } advance.
  apply rtc_refl.
Qed.

(** C1 on that run. *)
Lemma queue_serialises_witness :
  rtc (step (H := test_host) second_write_fails) (idle fresh_world) three_settled
  ∧ one_at_a_time three_settled
  ∧ outcomes three_settled
    = [ Some (Rejected (Error employee_not_found));
        Some (Rejected (FsError (lit "ENOSPC")));
        Some (Fulfilled (EmployeeResult
                (mkEmployee (test_uuid 0) (lit "A") other_department (lit "B") [] false))) ].
Proof.
  split; [exact three_requests_run|].
  destruct (queue_serialises (H := test_host) second_write_fails fresh_world
              three_settled three_requests_run) as (Hone & Hq & _).
  split; [exact Hone|].
  assert (quiescent three_settled) as Hquiet.
  { unfold quiescent. vm_compute. repeat constructor. }
  destruct (Hq Hquiet) as [_ ->]. vm_compute. reflexivity.
Defined.

(** C2 fails as stated: after a failed write the new employee is still in
    the document [getState] returns. *)
Lemma failed_write_not_rolled_back :
  (addEmployee (H := test_host) payload_A_B (WriteFailed (lit "ENOSPC") Corrupt)
     fresh_world).2 = Rejected (FsError (lit "ENOSPC"))
  ∧ getState (addEmployee (H := test_host) payload_A_B
                (WriteFailed (lit "ENOSPC") Corrupt) fresh_world).1
    ≠ getState fresh_world.
Proof. split; [reflexivity|]. vm_compute. discriminate. Qed.

(** C2, as the code has it, on an example. *)
Lemma failed_persist_keeps_change_witness :
  ∃ code,
    (run (H := test_host) (AddEmployee payload_A_B) (MkdirFailed (lit "EACCES"))
       fresh_world).2 = Rejected (FsError code)
    ∧ error_kind (FsError code) = PersistenceError
    ∧ getState (run (H := test_host) (AddEmployee payload_A_B)
                  (MkdirFailed (lit "EACCES")) fresh_world).1
      = state (task_of (H := test_host) (AddEmployee payload_A_B) fresh_world).1.
Proof.
  refine (failed_persist_keeps_change (H := test_host) (AddEmployee payload_A_B)
            (MkdirFailed (lit "EACCES")) fresh_world
            (task_of (H := test_host) (AddEmployee payload_A_B) fresh_world).1
            (PendingEmployee
               (mkEmployee (test_uuid 0) (lit "A") other_department (lit "B") [] false))
            _ _).
  - vm_compute. reflexivity.
  - discriminate.
Defined.

(** C3 on the code. [addEmployee({name: "", role: "X"})] does not reject:
    the name has become 'Ukendt medarbejder' before the test on it, and the
    employee is added. *)
Theorem addEmployee_blank_name_accepted :
  (addEmployee (H := test_host) payload_blank_name IoOk fresh_world).2
  = Fulfilled (EmployeeResult
      (mkEmployee (test_uuid 0) unknown_name other_department (lit "X") [] false))
  ∧ employees (getState (addEmployee (H := test_host) payload_blank_name IoOk
                           fresh_world).1)
    = DEFAULT_EMPLOYEES
      ++ [ mkEmployee (test_uuid 0) unknown_name other_department (lit "X") [] false ].
Proof. split; vm_compute; reflexivity. Qed.

Example addEmployee_A_B :
  (addEmployee (H := test_host) payload_A_B IoOk fresh_world).2
  = Fulfilled (EmployeeResult
      (mkEmployee (test_uuid 0) (lit "A") other_department (lit "B") [] false))
  ∧ employees (getState (addEmployee (H := test_host) payload_A_B IoOk fresh_world).1)
    = DEFAULT_EMPLOYEES
      ++ [ mkEmployee (test_uuid 0) (lit "A") other_department (lit "B") [] false ].
Proof. split; vm_compute; reflexivity. Qed.

Example addEmployee_blank_role :
  (addEmployee (H := test_host) payload_blank_role IoOk fresh_world).2
  = Rejected (Error name_and_role_required)
  ∧ getState (addEmployee (H := test_host) payload_blank_role IoOk fresh_world).1
    = state fresh_world.
Proof. split; vm_compute; reflexivity. Qed.

(** C4 fails as stated: an absence of an employee that does not exist is
    accepted. *)
Lemma addAbsence_accepts_unknown_employee :
  (lit "ghost" ∉ map emp_id (employees (state fresh_world)))
  ∧ (addAbsence (H := test_host) (absence_payload (lit "ghost")) IoOk fresh_world).2
    = Fulfilled (AbsenceResult
        (mkAbsence (test_uuid 0) (lit "ghost") (lit "2024-01-01") (lit "2024-01-02")
           other_reason)).
Proof.
  split; [|vm_compute; reflexivity].
  apply (bool_decide_unpack _). vm_compute. exact I.
Qed.

(** C4, as the code has it, on examples: the dates of the specification's
    example are refused, a well-formed payload is accepted. *)
Lemma addAbsence_validates_fields_witness :
  (addAbsence (H := test_host) backwards_absence IoOk fresh_world).2
  = Rejected (Error invalid_absence)
  ∧ getState (addAbsence (H := test_host) backwards_absence IoOk fresh_world).1
    = state fresh_world
  ∧ ∃ a,
      absences (getState (addAbsence (H := test_host)
                            (absence_payload (lit "freja-holm")) IoOk fresh_world).1)
      = [a]
      ∧ abs_employeeId a = lit "freja-holm".
Proof.
  destruct (addAbsence_validates_fields (H := test_host) backwards_absence IoOk
              fresh_world) as [Hno _].
  destruct (Hno eq_refl) as (Hout & _ & Hstate & _).
  split; [exact Hout|]. split; [exact Hstate|].
  destruct (addAbsence_validates_fields (H := test_host)
              (absence_payload (lit "freja-holm")) IoOk fresh_world) as [_ Hyes].
  destruct (Hyes eq_refl) as (a & He & _ & _ & Habs & _).
  exists a. split; [exact Habs|]. by injection He.
Defined.

(** C5 fails as stated: an update that empties the role is accepted. *)
Lemma updateEmployee_accepts_empty_role :
  (updateEmployee (H := test_host) (lit "amalie-korvig") [ (k_role, VString []) ]
     IoOk fresh_world).2
  = Fulfilled (EmployeeResult
      (mkEmployee (lit "amalie-korvig") (lit "Amalie Korvig") (lit "Administration")
         [] [] true)).
Proof. vm_compute. reflexivity. Qed.

(** C5, as the code has it, on examples. *)
Lemma updateEmployee_merges_witness :
  (updateEmployee (H := test_host) (lit "nobody") [ (k_role, VString (lit "Chef")) ]
     IoOk fresh_world)
  = (fresh_world, Rejected (Error employee_not_found))
  ∧ (updateEmployee (H := test_host) (lit "freja-holm")
       [ (k_role, VString (lit " Chef ")) ] IoOk fresh_world).2
    = Fulfilled (EmployeeResult
        (mkEmployee (lit "freja-holm") (lit "Freja Holm") (lit "Design") (lit "Chef")
           [] true)).
Proof.
  split.
  - destruct (updateEmployee_merges (H := test_host) (lit "nobody")
                [ (k_role, VString (lit "Chef")) ] IoOk fresh_world) as [Hno _].
    refine (proj1 (Hno _)).
    apply (proj1 (Forall_forall (fun e => emp_id e ≠ lit "nobody") _)).
    repeat (apply List.Forall_cons || apply List.Forall_nil);
      vm_compute; discriminate.
  - destruct (updateEmployee_merges (H := test_host) (lit "freja-holm")
                [ (k_role, VString (lit " Chef ")) ] IoOk fresh_world) as [_ Hyes].
    destruct Hyes as (old & Hin & Hid & _ & _ & _ & Hok & _).
    + exists (mkEmployee (lit "freja-holm") (lit "Freja Holm") (lit "Design")
                (lit "Lead Designer") [] true).
      split; [|reflexivity]. apply (bool_decide_unpack _). vm_compute. exact I.
    + apply (proj1 (Forall_forall
               (fun e => emp_id e = lit "freja-holm" -> canonical_employee e = true) _)).
      repeat (apply List.Forall_cons || apply List.Forall_nil);
        intros _; vm_compute; reflexivity.
    + refine (eq_trans (proj1 (Hok eq_refl)) _). clear Hok.
      revert old Hin Hid.
      apply (proj1 (Forall_forall
               (fun e => emp_id e = lit "freja-holm" ->
                         Fulfilled (EmployeeResult
                           (apply_updates e [ (k_role, VString (lit " Chef ")) ]))
                         = Fulfilled (EmployeeResult
                             (mkEmployee (lit "freja-holm") (lit "Freja Holm")
                                (lit "Design") (lit "Chef") [] true))) _)).
      repeat (apply List.Forall_cons || apply List.Forall_nil);
        intros E; vm_compute; try reflexivity; vm_compute in E; discriminate E.
Defined.

(** C6 fails as stated: a document without employees comes back with the
    built-in employees. *)
Lemma empty_employee_list_not_restored :
  valid_document (H := test_host) nobody = true
  ∧ init (H := test_host) 1 IoOk
      (mkWorld DEFAULT_STATE (file (persist IoOk (mkWorld nobody NoFile 0)).1) 0)
    = Some (mkWorld (mkDocument (branding nobody) DEFAULT_EMPLOYEES [])
              (Json (documentValue nobody)) 0, None)
  ∧ mkDocument (branding nobody) DEFAULT_EMPLOYEES [] ≠ nobody.
Proof. split; [reflexivity|]. split; [vm_compute; reflexivity|discriminate]. Qed.

(** C6, as the code has it, on the default document. *)
Lemma save_then_load_witness :
  init (H := test_host) 1 IoOk
    (mkWorld nobody (file (persist IoOk fresh_world).1) 7)
  = Some (mkWorld DEFAULT_STATE (Json (documentValue DEFAULT_STATE)) 7, None).
Proof.
  destruct (save_then_load (H := test_host) DEFAULT_STATE NoFile 0) as [_ Hload].
  - vm_compute. reflexivity.
  - discriminate.
  - exact (Hload 1 IoOk nobody 7).
Defined.

(** C7 on examples. *)
Lemma removeEmployee_cascades_witness :
  (removeEmployee (H := test_host) (lit "nobody") IoOk fresh_world)
  = (fresh_world, Rejected (Error employee_not_found))
  ∧ ∃ removed,
      (removeEmployee (H := test_host) (lit "freja-holm") IoOk fresh_world).2
      = Fulfilled (EmployeeResult removed)
      ∧ emp_id removed = lit "freja-holm".
Proof.
  split.
  - destruct (removeEmployee_cascades (H := test_host) (lit "nobody") IoOk fresh_world)
      as [Hno _].
    refine (proj1 (Hno _)).
    apply (proj1 (Forall_forall (fun e => emp_id e ≠ lit "nobody") _)).
    repeat (apply List.Forall_cons || apply List.Forall_nil);
      vm_compute; discriminate.
  - destruct (removeEmployee_cascades (H := test_host) (lit "freja-holm") IoOk
                fresh_world) as [_ Hyes].
    destruct Hyes as (removed & _ & Hid & _ & _ & _ & _ & _ & Hok).
    + exists (mkEmployee (lit "freja-holm") (lit "Freja Holm") (lit "Design")
                (lit "Lead Designer") [] true).
      split; [|reflexivity]. apply (bool_decide_unpack _). vm_compute. exact I.
    + exists removed. split; [exact (proj1 (Hok eq_refl))|exact Hid].
Defined.

(** C10 on examples. *)
Lemma setEmployeeStatus_frame_witness :
  (setEmployeeStatus (H := test_host) (lit "nobody") (VBool true) IoOk fresh_world)
  = (fresh_world, Rejected (Error employee_not_found))
  ∧ ∃ updated,
      (setEmployeeStatus (H := test_host) (lit "freja-holm") (VNumber 0) IoOk
         fresh_world).2 = Fulfilled (EmployeeResult updated)
      ∧ emp_id updated = lit "freja-holm" ∧ emp_isCheckedIn updated = false.
Proof.
  split.
  - destruct (setEmployeeStatus_frame (H := test_host) (lit "nobody") (VBool true) IoOk
                fresh_world) as [Hno _].
    refine (proj1 (Hno _)).
    apply (proj1 (Forall_forall (fun e => emp_id e ≠ lit "nobody") _)).
    repeat (apply List.Forall_cons || apply List.Forall_nil);
      vm_compute; discriminate.
  - destruct (setEmployeeStatus_frame (H := test_host) (lit "freja-holm") (VNumber 0)
                IoOk fresh_world) as [_ Hyes].
    destruct Hyes as (updated & _ & Hid & Hchecked & _ & _ & _ & _ & Hok & _).
    + exists (mkEmployee (lit "freja-holm") (lit "Freja Holm") (lit "Design")
                (lit "Lead Designer") [] true).
      split; [|reflexivity]. apply (bool_decide_unpack _). vm_compute. exact I.
    + exists updated. split; [exact (proj1 (Hok eq_refl))|]. split; [exact Hid|].
      exact Hchecked.
Defined.

(** C8 fails as stated: normalisation keeps two absences of one employee,
    and so does an operation that follows. *)
Lemma normalised_state_keeps_two_absences :
  ∃ d,
    init (H := test_host) 1 IoOk (mkWorld DEFAULT_STATE (Json twice_absent) 0)
    = Some (mkWorld d (Json twice_absent) 0, None)
    ∧ map abs_employeeId (absences d) = [ lit "a"; lit "a" ]
    ∧ ¬ one_absence_each d
    ∧ ¬ one_absence_each
          (getState (setBrandingLogo (H := test_host) (lit "/uploads/branding/n.png")
                       IoOk (mkWorld d (Json twice_absent) 0)).1).
Proof.
  eexists. split; [vm_compute; reflexivity|]. split; [reflexivity|].
  split; unfold one_absence_each; vm_compute;
    intros [Hnin _]%NoDup_cons; apply Hnin; left.
Qed.

(** C8, as the code has it, on an example. *)
Lemma one_absence_each_preserved_witness :
  one_absence_each
    (getState (run_all (H := test_host) second_write_fails 0
                 [ AddAbsence (absence_payload (lit "freja-holm"));
                   AddAbsence (absence_payload (lit "freja-holm"));
                   AddAbsence (absence_payload (lit "henrik-nord")) ] fresh_world).1).
Proof.
  destruct (one_absence_each_preserved (H := test_host)) as (Hdefault & _ & Hall & _).
  apply Hall. exact Hdefault.
Defined.

Lemma test_uuid_inj (a b : nat) : test_uuid a = test_uuid b -> a = b.
Proof.
  unfold test_uuid. intros Heq%app_inv_head.
  apply (f_equal length) in Heq. by rewrite !length_replicate in Heq.
Qed.

(** C9 on two entries with one identifier. *)
Lemma normaliseEmployeeList_distinct_ids_witness :
  ∃ out n',
    normaliseEmployeeList (H := test_host) 1 same_id_twice 0 = Some (out, n')
    ∧ length out = 2
    ∧ NoDup (map emp_id out)
    ∧ ∀ i x, same_id_twice !! i = Some x ->
        ∃ e, out !! i = Some e ∧ id_rule (H := test_host) (take i same_id_twice) x e.
Proof.
  apply (normaliseEmployeeList_distinct_ids (H := test_host) 1 same_id_twice 0).
  - exact test_uuid_inj.
  - intros k. apply (proj1 (Forall_forall
                          (fun x => own_id x ≠ Some (randomUUID k)) _)).
    repeat constructor; vm_compute; discriminate.
  - lia.
Defined.

Example same_id_twice_normalised :
  normaliseEmployeeList (H := test_host) 1 same_id_twice 0
  = Some ([ mkEmployee (lit "a") (lit "First") other_department [] [] false;
            mkEmployee (test_uuid 0) (lit "Second") other_department [] [] false ], 1).
Proof. vm_compute. reflexivity. Qed.

(** * More of the store and its callers *)

(** ** How an operation can end *)

Lemma map_matching_none (id : jsstring) (f : Employee -> nat -> Employee * nat)
    (es : list Employee) (n : nat) :
  (map_matching id f es n).1.2 = None ->
  map_matching id f es n = (es, None, n).
Proof.
  revert n. induction es as [|e es IH]; intros n; simpl; [done|].
  destruct (decide (emp_id e = id)).
  - destruct (f e n) as [e' n1]. by destruct (map_matching id f es n1) as [[r u] n2].
  - specialize (IH n). destruct (map_matching id f es n) as [[r u] n2]. simpl in *.
    intros ->. specialize (IH eq_refl). by injection IH as -> ->.
Qed.

Section Outcomes.
Context `{Host}.

Lemma task_thrown (o : op) (w : World) (e : exn) :
  (task_of o w).2 = inl e ->
  state (task_of o w).1 = state w ∧ file (task_of o w).1 = file w
  ∧ (e = Error name_and_role_required ∨ e = Error employee_not_found
     ∨ e = Error invalid_absence ∨ e = Error absence_not_found).
Proof.
  destruct o as [p| |p|i u|i|i v|p|i]; simpl.
  - done.
  - done.
  - unfold addEmployee_task.
    destruct (id_or_fresh p (uuids w)) as [idv n1].
    destruct (normaliseEmployee _ n1) as [emp n2].
    destruct (_ || _); simpl; [|done]. intros [= <-]. by auto 10.
  - unfold updateEmployee_task.
    pose proof (map_matching_none i (fun e => normaliseEmployee (VObject (merged e u)))
                  (employees (state w)) (uuids w)) as Hn.
    destruct (map_matching i _ _ _) as [[es [u'|]] n]; simpl in *; [done|].
    specialize (Hn eq_refl). injection Hn as -> ->.
    intros [= <-]. split; [by destruct w as [[] ? ?]|]. by auto 10.
  - unfold removeEmployee_task.
    destruct (removeEmployee_scan i _) as [[r|] rest]; simpl; [done|].
    intros [= <-]. by auto 10.
  - unfold setEmployeeStatus_task.
    pose proof (map_matching_none i (fun e n => (set_checked e (truthy v), n))
                  (employees (state w)) (uuids w)) as Hn.
    destruct (map_matching i _ _ _) as [[es [u'|]] n]; simpl in *; [done|].
    specialize (Hn eq_refl). injection Hn as -> ->.
    intros [= <-]. split; [by destruct w as [[] ? ?]|]. by auto 10.
  - pose proof (addAbsence_task_result p w) as Hr.
    unfold addAbsence_task in *.
    destruct (id_or_fresh p (uuids w)) as [idv n1].
    destruct (normaliseAbsence _ None n1) as [[a|] n2]; simpl in *; [done|].
    intros [= <-]. by auto 10.
  - unfold removeAbsence_task.
    destruct (removeAbsence_scan i _) as [[r|] rest]; simpl; [done|].
    intros [= <-]. by auto 10.
Qed.

(** X1. An operation ends in one of three ways. It resolves: both file
    system calls succeeded and the file holds the document [getState]
    returns. It rejects with one of the store's four messages: the document
    and the file are as before. It rejects with the error of the file
    system: a call of [persist] failed. *)
Theorem operation_outcomes (o : op) (io : io_result) (w : World) :
  match (run o io w).2 with
  | Fulfilled r =>
      io = IoOk
      ∧ file (run o io w).1 = Json (documentValue (getState (run o io w).1))
  | Rejected (Error m) =>
      getState (run o io w).1 = state w ∧ file (run o io w).1 = file w
      ∧ (m = name_and_role_required ∨ m = employee_not_found
         ∨ m = invalid_absence ∨ m = absence_not_found)
  | Rejected (FsError code) =>
      io = MkdirFailed code ∨ ∃ residue, io = WriteFailed code residue
  end.
Proof.
  unfold run, getState, deepClone.
  pose proof (task_thrown o w) as Ht.
  destruct (task_of o w) as [w1 [e|p]]; simpl in *.
  - destruct (Ht e eq_refl) as (Hs & Hf & Hm).
    destruct Hm as [Hm|[Hm|[Hm|Hm]]]; subst e; auto 10.
  - destruct io as [|code|code residue]; simpl; eauto.
Qed.

End Outcomes.

Lemma filter_keeps_all {A} (P : A -> Prop) `{!∀ x, Decision (P x)} (l : list A) :
  (∀ x, x ∈ l -> P x) -> filter P l = l.
Proof.
  induction l as [|x l IH]; intros Hall; [done|].
  rewrite filter_cons_True by (apply Hall; left).
  f_equal. apply IH. intros y Hy. apply Hall. by right.
Qed.

Lemma filter_drops_all {A} (P : A -> Prop) `{!∀ x, Decision (P x)} (l : list A) :
  (∀ x, x ∈ l -> ¬ P x) -> filter P l = [].
Proof.
  induction l as [|x l IH]; intros Hall; [done|].
  rewrite filter_cons_False by (apply Hall; left).
  apply IH. intros y Hy. apply Hall. by right.
Qed.

Section MoreOperations.
Context `{Host}.

(** X2. [setBrandingLogo(logoPath)] puts [logoPath] in the branding and
    touches nothing else; it resolves with the new document and the logo it
    replaced. A [removeBrandingLogo] that follows empties the logo and
    reports [logoPath] as the previous one, also when the write of the
    first operation had failed. *)
Theorem logo_replaced (logoPath : jsstring) (io io' : io_result) (w : World) :
  logo (branding (getState (setBrandingLogo logoPath io w).1)) = logoPath
  ∧ employees (getState (setBrandingLogo logoPath io w).1) = employees (state w)
  ∧ absences (getState (setBrandingLogo logoPath io w).1) = absences (state w)
  ∧ (io = IoOk ->
     (setBrandingLogo logoPath io w).2
     = Fulfilled (LogoResult (getState (setBrandingLogo logoPath io w).1)
                    (logo (branding (state w)))))
  ∧ logo (branding (getState (removeBrandingLogo io'
                                (setBrandingLogo logoPath io w).1).1)) = []
  ∧ employees (getState (removeBrandingLogo io' (setBrandingLogo logoPath io w).1).1)
    = employees (state w)
  ∧ absences (getState (removeBrandingLogo io' (setBrandingLogo logoPath io w).1).1)
    = absences (state w)
  ∧ (io' = IoOk ->
     ∃ snapshot,
       (removeBrandingLogo io' (setBrandingLogo logoPath io w).1).2
       = Fulfilled (LogoResult snapshot logoPath)
       ∧ logo (branding snapshot) = []).
Proof.
  unfold setBrandingLogo, removeBrandingLogo, run, getState, deepClone. simpl.
  destruct io, io'; simpl; repeat split; try done; intros _; by eexists.
Qed.

(** X3. [removeAbsence(id)] rejects with 'Fravær ikke fundet' and leaves
    the store as it is when no absence has the identifier. Otherwise the
    absences with that identifier are removed, the employees and the
    branding stay, and the operation resolves with the removed absence once
    the document is written. *)
Theorem removeAbsence_removes (id : jsstring) (io : io_result) (w : World) :
  ((∀ a, a ∈ absences (state w) -> abs_id a ≠ id) ->
     removeAbsence id io w = (w, Rejected (Error absence_not_found))
     ∧ error_kind (Error absence_not_found) = NotFoundError)
  ∧ ((∃ a, a ∈ absences (state w) ∧ abs_id a = id) ->
     ∃ removed,
       removed ∈ absences (state w) ∧ abs_id removed = id
       ∧ absences (getState (removeAbsence id io w).1)
         = filter (fun a => abs_id a ≠ id) (absences (state w))
       ∧ employees (getState (removeAbsence id io w).1) = employees (state w)
       ∧ branding (getState (removeAbsence id io w).1) = branding (state w)
       ∧ (io = IoOk ->
          (removeAbsence id io w).2 = Fulfilled (AbsenceResult removed)
          ∧ file (removeAbsence id io w).1
            = Json (documentValue (state (removeAbsence id io w).1)))).
Proof.
  unfold removeAbsence, run, getState, deepClone. simpl. unfold removeAbsence_task.
  rewrite removeAbsence_scan_spec. split.
  - intros Hno.
    assert (last (filter (fun a => abs_id a = id) (absences (state w))) = None) as ->.
    { apply last_match_None. done. }
    done.
  - intros (a & Ha & Hid).
    destruct (last_match_is_Some (fun a => abs_id a = id) _ a Ha Hid) as [removed Hr].
    rewrite Hr. exists removed.
    apply last_match_Some in Hr as Hr'. destruct Hr' as [Hin Hrid].
    destruct io; simpl; repeat split; done.
Qed.

(** What the task of [addEmployee] leaves when it does not throw. *)
Lemma addEmployee_task_result (payload : object) (w : World) (p : pending) :
  (addEmployee_task payload w).2 = inr p ->
  ∃ e, p = PendingEmployee e
    ∧ employees (state (addEmployee_task payload w).1) = employees (state w) ++ [e]
    ∧ absences (state (addEmployee_task payload w).1) = absences (state w)
    ∧ branding (state (addEmployee_task payload w).1) = branding (state w).
Proof.
  unfold addEmployee_task.
  destruct (id_or_fresh payload (uuids w)) as [idv n1].
  destruct (normaliseEmployee _ n1) as [e n2].
  destruct (_ || _); simpl; [done|]. intros [= <-]. by exists e.
Qed.

(** X4. An absence that was added is removed again by [removeAbsence] with
    its identifier, and the absences are then as before, provided no absence
    had that employee or that identifier. *)
Theorem addAbsence_then_removeAbsence (payload : object) (io io' : io_result)
    (w : World) (a : Absence) :
  (addAbsence payload io w).2 = Fulfilled (AbsenceResult a) ->
  (∀ x, x ∈ absences (state w) ->
        abs_employeeId x ≠ abs_employeeId a ∧ abs_id x ≠ abs_id a) ->
  absences (getState (removeAbsence (abs_id a) io' (addAbsence payload io w).1).1)
  = absences (state w)
  ∧ employees (getState (removeAbsence (abs_id a) io' (addAbsence payload io w).1).1)
    = employees (state w)
  ∧ (io' = IoOk ->
     (removeAbsence (abs_id a) io' (addAbsence payload io w).1).2
     = Fulfilled (AbsenceResult a)).
Proof.
  intros Hadd Hfree.
  assert (absences (state (addAbsence payload io w).1) = absences (state w) ++ [a]
          ∧ employees (state (addAbsence payload io w).1) = employees (state w))
    as [Habs Hemp].
  { unfold addAbsence in *. rewrite run_state. unfold run in Hadd. simpl in *.
    pose proof (addAbsence_task_result payload w) as Hr.
    destruct (addAbsence_task payload w) as [w1 [e|pd]]; simpl in *; [done|].
    destruct Hr as (a' & -> & -> & -> & _).
    destruct (persist io w1) as [w2 [e|]]; simpl in Hadd; [done|].
    unfold deepClone in Hadd. injection Hadd as ->.
    split; [|done]. f_equal. apply filter_keeps_all. intros x Hx. by apply Hfree. }
  set (w1 := (addAbsence payload io w).1) in *. clearbody w1.
  unfold removeAbsence, run, getState, deepClone. simpl. unfold removeAbsence_task.
  rewrite removeAbsence_scan_spec, Habs, !filter_app.
  rewrite (filter_drops_all (fun x => abs_id x = abs_id a) (absences (state w)))
    by (intros x Hx; by apply Hfree).
  rewrite (filter_keeps_all (fun x => abs_id x ≠ abs_id a) (absences (state w)))
    by (intros x Hx; by apply Hfree).
  rewrite (filter_cons_True (fun x => abs_id x = abs_id a)) by done.
  rewrite (filter_cons_False (fun x => abs_id x ≠ abs_id a)) by (simpl; tauto).
  rewrite !filter_nil. simpl. rewrite app_nil_r.
  destruct io'; simpl; repeat split; done.
Qed.

(** X5. An employee that was added is removed again by [removeEmployee]
    with its identifier, and the employees and the absences are then as
    before, provided no employee and no absence had that identifier. *)
Theorem addEmployee_then_removeEmployee (payload : object) (io io' : io_result)
    (w : World) (e : Employee) :
  (addEmployee payload io w).2 = Fulfilled (EmployeeResult e) ->
  (∀ x, x ∈ employees (state w) -> emp_id x ≠ emp_id e) ->
  (∀ a, a ∈ absences (state w) -> abs_employeeId a ≠ emp_id e) ->
  employees (getState (removeEmployee (emp_id e) io' (addEmployee payload io w).1).1)
  = employees (state w)
  ∧ absences (getState (removeEmployee (emp_id e) io' (addEmployee payload io w).1).1)
    = absences (state w)
  ∧ (io' = IoOk ->
     (removeEmployee (emp_id e) io' (addEmployee payload io w).1).2
     = Fulfilled (EmployeeResult e)).
Proof.
  intros Hadd Hfree Hnone.
  assert (employees (state (addEmployee payload io w).1) = employees (state w) ++ [e]
          ∧ absences (state (addEmployee payload io w).1) = absences (state w))
    as [Hemp Habs].
  { unfold addEmployee in *. rewrite run_state. unfold run in Hadd. simpl in *.
    pose proof (addEmployee_task_result payload w) as Hr.
    destruct (addEmployee_task payload w) as [w1 [err|pd]]; simpl in *; [done|].
    destruct (Hr pd eq_refl) as (e' & -> & -> & -> & _).
    destruct (persist io w1) as [w2 [err|]]; simpl in Hadd; [done|].
    unfold deepClone in Hadd. by injection Hadd as ->. }
  set (w1 := (addEmployee payload io w).1) in *. clearbody w1.
  unfold removeEmployee, run, getState, deepClone. simpl. unfold removeEmployee_task.
  rewrite removeEmployee_scan_spec, Hemp, Habs, !filter_app.
  rewrite (filter_drops_all (fun x => emp_id x = emp_id e) (employees (state w)))
    by (intros x Hx; by apply Hfree).
  rewrite (filter_keeps_all (fun x => emp_id x ≠ emp_id e) (employees (state w)))
    by (intros x Hx; by apply Hfree).
  rewrite (filter_cons_True (fun x => emp_id x = emp_id e)) by done.
  rewrite (filter_cons_False (fun x => emp_id x ≠ emp_id e)) by (simpl; tauto).
  rewrite !filter_nil. simpl. rewrite app_nil_r.
  rewrite (filter_keeps_all (fun a => abs_employeeId a ≠ emp_id e)) by done.
  destruct io'; simpl; repeat split; done.
Qed.

Lemma none_left (id : jsstring) (io : io_result) (w : World) :
  ∀ e, e ∈ employees (state (removeEmployee id io w).1) -> emp_id e ≠ id.
Proof.
  unfold removeEmployee. rewrite run_state. simpl. unfold removeEmployee_task.
  rewrite removeEmployee_scan_spec.
  destruct (last _) eqn:E; simpl.
  - intros x Hin%list_elem_of_filter. tauto.
  - exact (proj1 (last_match_None (fun e => emp_id e = id) _) E).
Qed.

(** X6. After [removeEmployee(id)], however it ended, no employee has the
    identifier: [updateEmployee], [setEmployeeStatus] and [removeEmployee]
    with that identifier all reject with 'Medarbejder ikke fundet'. *)
Theorem removed_employee_not_found (id : jsstring) (io io' : io_result) (w : World)
    (updates : object) (v : value) :
  (∀ e, e ∈ employees (getState (removeEmployee id io w).1) -> emp_id e ≠ id)
  ∧ (updateEmployee id updates io' (removeEmployee id io w).1).2
    = Rejected (Error employee_not_found)
  ∧ (setEmployeeStatus id v io' (removeEmployee id io w).1).2
    = Rejected (Error employee_not_found)
  ∧ (removeEmployee id io' (removeEmployee id io w).1).2
    = Rejected (Error employee_not_found).
Proof.
  pose proof (none_left id io w) as Hnone.
  set (w1 := (removeEmployee id io w).1) in *. clearbody w1.
  split; [done|].
  assert (filter (fun e => emp_id e = id) (employees (state w1)) = []) as Hnil.
  { by apply filter_drops_all. }
  unfold updateEmployee, setEmployeeStatus, removeEmployee, run. simpl.
  unfold updateEmployee_task, setEmployeeStatus_task, removeEmployee_task.
  rewrite removeEmployee_scan_spec, Hnil.
  rewrite (map_matching_ext id _ (fun e n => (e, n)))
    by (intros e k He Hid; by destruct (Hnone e He)).
  rewrite (map_matching_pure id (fun e => e)), Hnil.
  rewrite (map_matching_pure id (fun e => set_checked e (truthy v))), Hnil.
  done.
Qed.

End MoreOperations.

Section Loading.
Context `{Host}.

Lemma free_candidate_origin (fuel : nat) (taken : gset jsstring) (c c' : jsstring)
    (n n' : nat) :
  free_candidate fuel taken c n = Some (c', n') ->
  c' = c ∨ ∃ k, c' = randomUUID k.
Proof.
  revert c n. induction fuel as [|fuel IH]; intros c n; simpl.
  - destruct (bool_decide (c ∈ taken)); [done|]. intros [= <- <-]. by left.
  - destruct (bool_decide (c ∈ taken)).
    + intros [->|Hk]%IH; right; [by eexists|done].
    + intros [= <- <-]. by left.
Qed.

Section Clean.
Hypothesis randomUUID_clean : ∀ k, clean (randomUUID k) = true.

Lemma set_id_normal_form (e : Employee) (i : jsstring) :
  canonical_employee e = true -> clean i = true ->
  canonical_employee (set_id e i) = true.
Proof.
  unfold canonical_employee. simpl. intros He Hi.
  apply andb_true_iff in He as [He Hphoto].
  apply andb_true_iff in He as [He Hrole].
  apply andb_true_iff in He as [He Hdept].
  apply andb_true_iff in He as [_ Hname].
  by rewrite Hi, Hname, Hdept, Hrole, Hphoto.
Qed.

Lemma normaliseEmployees_normal_form (fuel : nat) (l : list value) :
  ∀ taken n out n',
    normaliseEmployees fuel taken l n = Some (out, n') ->
    forallb canonical_employee out = true ∧ length out = length l.
Proof.
  induction l as [|x l IH]; intros taken n out n'; simpl.
  - by intros [= <- <-].
  - pose proof (normaliseEmployee_normal_form randomUUID_clean x n) as Hx.
    destruct (normaliseEmployee x n) as [e1 n1]. simpl in Hx.
    assert (∃ c n2, (if nonempty (emp_id e1) then (emp_id e1, n1)
                     else (randomUUID n1, S n1)) = (c, n2) ∧ clean c = true)
      as (c & n2 & -> & Hc).
    { destruct (nonempty (emp_id e1)); eexists _, _; (split; [done|]); [|done].
      unfold canonical_employee in Hx. by do 4 (apply andb_true_iff in Hx as [Hx _]). }
    destruct (free_candidate fuel taken c n2) as [[c' n3]|] eqn:Ef; [|done].
    destruct (normaliseEmployees fuel ({[c']} ∪ taken) l n3) as [[rest n4]|] eqn:Er;
      [|done].
    intros [= <- <-]. apply IH in Er as [Hrest Hlen].
    simpl. rewrite Hrest, Hlen. split; [|done].
    rewrite set_id_normal_form; [done|done|].
    apply free_candidate_origin in Ef as [->|[k ->]]; done.
Qed.

Lemma normaliseAbsence_normal_form (ids : list jsstring) (validIds : gset jsstring)
    (v : value) (n n' : nat) (a : Absence) :
  (∀ s, s ∈ validIds -> s ∈ ids) ->
  normaliseAbsence v (Some validIds) n = (Some a, n') ->
  canonical_absence ids a = true.
Proof.
  intros Hids. unfold normaliseAbsence.
  destruct (negb (is_object v)); [done|].
  destruct (as_string (prop k_employeeId v)) as [eid|]; [|done].
  destruct (nonempty eid) eqn:Heid; simpl; [|done].
  destruct (bool_decide (eid ∈ validIds)) eqn:Hin; simpl; [|done].
  apply bool_decide_eq_true in Hin.
  destruct (as_string (prop k_from v)) as [f|]; [|done].
  destruct (as_string (prop k_to v)) as [t|]; [|done].
  destruct (nonempty f) eqn:Hf; simpl; [|done].
  destruct (nonempty t) eqn:Ht; simpl; [|done].
  destruct (date_gt f t) eqn:Hgt; [done|].
  assert (∀ i, clean i = true ->
            canonical_absence ids
              (mkAbsence i eid f t
                 match prop k_reason v with VString r => r | _ => other_reason end)
            = true) as Hform.
  { intros i Hi. unfold canonical_absence. simpl.
    rewrite Hi, Heid, Hf, Ht, Hgt, bool_decide_eq_true_2 by by apply Hids. done. }
  destruct (prop k_id v); try (intros [= <- <-]; by apply Hform).
  destruct (nonempty (trim s)) eqn:E; intros [= <- <-]; apply Hform; [|done].
  unfold clean. by rewrite trim_idem, bool_decide_eq_true_2, E.
Qed.

Lemma normaliseAbsenceList_normal_form (ids : list jsstring) (validIds : gset jsstring)
    (l : list value) :
  (∀ s, s ∈ validIds -> s ∈ ids) ->
  ∀ n, forallb (canonical_absence ids) (normaliseAbsenceList l validIds n).1 = true.
Proof.
  intros Hids. induction l as [|v l IH]; intros n; simpl; [done|].
  pose proof (normaliseAbsence_normal_form ids validIds v n) as Hv.
  destruct (normaliseAbsence v (Some validIds) n) as [[a|] n1].
  - specialize (IH n1). destruct (normaliseAbsenceList l validIds n1) as [rest n2].
    simpl in *. by rewrite (Hv n1 a Hids eq_refl), IH.
  - specialize (IH n1). by destruct (normaliseAbsenceList l validIds n1) as [rest n2].
Qed.

Lemma normaliseState_normal_form (fuel : nat) (raw : value) (n n' : nat)
    (d : Document) :
  normaliseState fuel raw n = Some (d, n') ->
  valid_document d = true ∧ employees d ≠ [].
Proof.
  assert (valid_document DEFAULT_STATE = true) as Hdefault by (vm_compute; reflexivity).
  assert (∀ es m, forallb canonical_employee es = true -> NoDup (map emp_id es) ->
            es ≠ [] ->
            ∀ l : list Absence * nat,
              (match prop k_absences raw with
               | VArray l => normaliseAbsenceList l (list_to_set (map emp_id es)) m
               | _ => ([], m)
               end) = l ->
              valid_document (mkDocument (normaliseBranding (prop k_branding raw)) es l.1)
              = true) as Hbuild.
  { intros es m Hes Hnd Hne l <-. unfold valid_document. simpl.
    rewrite Hes, bool_decide_eq_true_2 by done. simpl.
    destruct (prop k_absences raw); try done.
    apply normaliseAbsenceList_normal_form.
    intros s Hs. by apply elem_of_list_to_set in Hs. }
  unfold normaliseState. destruct (negb (is_object raw)).
  { intros [= <- <-]. done. }
  destruct (prop k_employees raw) as [| | | | |[|x l]|] eqn:Eemp; simpl;
    try (destruct (match prop k_absences raw with
                   | VArray l => normaliseAbsenceList l _ n
                   | _ => ([], n)
                   end) as [abs n2] eqn:Eabs;
         intros [= <- <-]; split; [|done];
         refine (Hbuild DEFAULT_EMPLOYEES n _ _ _ (abs, n2) Eabs);
         [vm_compute; reflexivity
         |apply (bool_decide_unpack _); vm_compute; exact I
         |done]).
  unfold normaliseEmployeeList.
  destruct (normaliseEmployees fuel ∅ (x :: l) n) as [[es n1]|] eqn:Ees; [|done].
  destruct (normaliseEmployees_NoDup fuel (x :: l) ∅ n es n1 Ees) as [Hnd _].
  destruct (normaliseEmployees_normal_form fuel (x :: l) ∅ n es n1 Ees) as [Hcanon Hlen].
  assert (es ≠ []) as Hne by (destruct es; done).
  destruct (match prop k_absences raw with
            | VArray l => normaliseAbsenceList l _ n1
            | _ => ([], n1)
            end) as [abs n2] eqn:Eabs.
  intros [= <- <-]. split; [|done].
  exact (Hbuild es n1 Hcanon Hnd Hne (abs, n2) Eabs).
Qed.

(** X9. Whatever the raw value, the document [normaliseState] returns has
    the invariants of the data model: fields trimmed and not blank where
    they must not be, employee identifiers pairwise distinct, every absence
    of an employee of the document and with [from] not after [to]. It has
    at least one employee, and it is read back unchanged once written:
    normalising the value [persist] writes for it gives the same document
    and draws no identifier. *)
Theorem normaliseState_gives_valid (fuel : nat) (raw : value) (n n' : nat)
    (d : Document) :
  normaliseState fuel raw n = Some (d, n') ->
  valid_document d = true ∧ employees d ≠ []
  ∧ ∀ fuel' m, normaliseState fuel' (documentValue d) m = Some (d, m).
Proof.
  intros [Hv Hne]%normaliseState_normal_form.
  split; [done|]. split; [done|]. intros fuel' m. by apply normaliseState_valid.
Qed.

End Clean.

(** X10. With a generator that never repeats itself and never produces an
    identifier the raw employees carry, [normaliseState] returns a document
    for every raw value, one spare turn of the loop being enough. *)
Theorem normaliseState_returns (fuel : nat) (raw : value) (n : nat) :
  (∀ a b, randomUUID a = randomUUID b -> a = b) ->
  (∀ k x, x ∈ raw_employees raw -> own_id x ≠ Some (randomUUID k)) ->
  1 ≤ fuel ->
  ∃ d n', normaliseState fuel raw n = Some (d, n').
Proof.
  intros Hinj Hfresh Hfuel. unfold normaliseState, raw_employees in *.
  destruct (negb (is_object raw)); [by eexists _, _|].
  destruct (prop k_employees raw) as [| | | | |[|x l]|] eqn:Eemp; simpl;
    try (destruct (match prop k_absences raw with
                   | VArray l => normaliseAbsenceList l _ n
                   | _ => ([], n)
                   end) as [abs n2]; by eexists _, _).
  unfold normaliseEmployeeList.
  destruct (normaliseEmployees_rule Hinj fuel (x :: l) Hfuel [] ∅ n)
    as (out & n1 & -> & _).
  - done.
  - intros s Hs. by apply elem_of_empty in Hs.
  - intros s Hs. by apply elem_of_nil in Hs.
  - destruct (match prop k_absences raw with
              | VArray l => normaliseAbsenceList l _ n1
              | _ => ([], n1)
              end) as [abs n2]. by eexists _, _.
Qed.

(** X8. When the file is missing or cannot be parsed, [init] takes the
    built-in document and writes it out; started again on the file it
    wrote, it loads that document. When the write fails, [init] rejects
    with the error of the file system, the built-in document staying in
    memory. *)
Theorem init_without_file (fuel : nat) (io : io_result) (w : World) :
  file w = NoFile ∨ file w = Corrupt ->
  ∃ w' err,
    init fuel io w = Some (w', err)
    ∧ getState w' = DEFAULT_STATE ∧ uuids w' = uuids w
    ∧ (io = IoOk ->
       err = None ∧ file w' = Json (documentValue DEFAULT_STATE)
       ∧ ∀ fuel' io' d0 n0,
           init fuel' io' (mkWorld d0 (file w') n0)
           = Some (mkWorld DEFAULT_STATE (file w') n0, None))
    ∧ (io ≠ IoOk -> ∃ code, err = Some (FsError code)).
Proof.
  intros Hfile. unfold init.
  assert (valid_document DEFAULT_STATE = true) as Hdefault by (vm_compute; reflexivity).
  assert (match file w with
          | Json parsed =>
              match normaliseState fuel parsed (uuids w) with
              | Some (d, n) => Some (with_state w d n, None)
              | None => None
              end
          | _ => Some (persist io (with_state w DEFAULT_STATE (uuids w)))
          end = Some (persist io (with_state w DEFAULT_STATE (uuids w)))) as ->.
  { by destruct Hfile as [-> | ->]. }
  destruct (persist io (with_state w DEFAULT_STATE (uuids w))) as [w' err] eqn:Ep.
  exists w', err. split; [done|].
  destruct io as [|code|code residue]; simpl in Ep; injection Ep as <- <-;
    (split; [done|]); (split; [done|]); split; try done.
  - intros _. split; [done|]. split; [done|]. intros fuel' io' d0 n0.
    unfold init. simpl. by rewrite normaliseState_valid.
  - intros _. by eexists.
  - intros _. by eexists.
Qed.

End Loading.

(** ** The routes and the store *)

Lemma find_employee_none (id : jsstring) (es : list Employee) :
  find_employee id es = None <-> ∀ e, e ∈ es -> emp_id e ≠ id.
Proof.
  induction es as [|e es IH]; simpl.
  - split; [|done]. by intros _ e ?%elem_of_nil.
  - destruct (decide (emp_id e = id)) as [Heq|Hne].
    + split; [done|]. intros Hall. destruct (Hall e); [left|done].
    + rewrite IH. split.
      * intros Hall x [->|Hx]%elem_of_cons; [done|by apply Hall].
      * intros Hall x Hx. apply Hall. by right.
Qed.

Section RouteFacts.
Context `{Host}.

(** What the task of [updateEmployee] does to employees in normal form. *)
Lemma updateEmployee_task_applies (id : jsstring) (updates : object) (w : World) :
  (∀ e, e ∈ employees (state w) -> emp_id e = id -> canonical_employee e = true) ->
  updateEmployee_task id updates w
  = (with_state w
       (mkDocument (branding (state w))
          (map (fun e => if decide (emp_id e = id) then apply_updates e updates else e)
             (employees (state w)))
          (absences (state w)))
       (uuids w),
     match last (filter (fun e => emp_id e = id) (employees (state w))) with
     | Some old => inr (PendingEmployee (apply_updates old updates))
     | None => inl (Error employee_not_found)
     end).
Proof.
  intros Hcanon. unfold updateEmployee_task.
  rewrite (map_matching_ext id _ (fun e n => (apply_updates e updates, n)))
    by (intros e' k He' Hid'; apply normalise_merged; by apply Hcanon).
  rewrite (map_matching_pure id (fun e => apply_updates e updates)).
  change (map (fun e => apply_updates e updates) ?l)
    with ((fun e => apply_updates e updates) <$> l).
  rewrite fmap_last. by destruct (last _).
Qed.

(** X12. PATCH /api/employees/:id/status asks for no session. On a store
    whose employees with that identifier are in normal form it does what
    [setEmployeeStatus(id, Boolean(isCheckedIn))] does: it answers 404 and
    changes nothing when no employee has the identifier, and otherwise sets
    [isCheckedIn] and answers 200 once the document is written. *)
Theorem patch_status_sets_status (req : Request) (io : io_result) (w : World) :
  (∀ e, e ∈ employees (state w) -> emp_id e = param_id req ->
        canonical_employee e = true) ->
  after (patch_employee_status req io w)
  = (setEmployeeStatus (param_id req)
       (VBool (truthy (prop k_isCheckedIn (req_body req)))) io w).1
  ∧ ((∀ e, e ∈ employees (state w) -> emp_id e ≠ param_id req) ->
     patch_employee_status req io w
     = mkHandled w (mkResponse 404 (ReplyExn (Error employee_not_found))) [])
  ∧ ((∃ e, e ∈ employees (state w) ∧ emp_id e = param_id req) ->
     io = IoOk ->
     ∃ updated,
       response (patch_employee_status req io w)
       = mkResponse 200 (ReplyEmployee (EmployeeResult updated))
       ∧ emp_id updated = param_id req
       ∧ emp_isCheckedIn updated = truthy (prop k_isCheckedIn (req_body req))
       ∧ updated ∈ employees (getState (after (patch_employee_status req io w)))).
Proof.
  intros Hcanon. unfold patch_employee_status.
  set (b := truthy (prop k_isCheckedIn (req_body req))).
  assert (updateEmployee (param_id req) [ (k_isCheckedIn, VBool b) ] io w
          = setEmployeeStatus (param_id req) (VBool b) io w) as ->.
  { unfold updateEmployee, setEmployeeStatus, run. simpl.
    unfold updateEmployee_task, setEmployeeStatus_task.
    rewrite (map_matching_ext (param_id req) _ (fun e n => (set_checked e b, n)));
      [done|].
    intros e k He Hid. rewrite normalise_merged by by apply Hcanon. by destruct e. }
  split; [by destruct (setEmployeeStatus _ _ io w) as [w' [r|e]]|].
  unfold setEmployeeStatus, run, getState, deepClone. simpl.
  unfold setEmployeeStatus_task.
  rewrite (map_matching_pure (param_id req) (fun e => set_checked e b)). simpl.
  change (map (fun e => set_checked e b) ?l) with ((fun e => set_checked e b) <$> l).
  rewrite fmap_last. split.
  - intros Hno.
    rewrite (proj2 (last_match_None (fun e => emp_id e = param_id req) _) Hno).
    simpl. rewrite map_no_match by done. unfold with_state. by rewrite world_eta.
  - intros (e & He & Hid) ->.
    destruct (last_match_is_Some (fun e => emp_id e = param_id req) _ e He Hid)
      as [x Hx].
    rewrite Hx. simpl. exists (set_checked x b).
    apply last_match_Some in Hx as [Hxin Hxid].
    repeat split; try done.
    apply list_elem_of_fmap. exists x. by rewrite decide_True.
Qed.

(** X13. POST /api/employees with a session answers 400 and leaves the
    store alone when [name] or [role] of the body is falsy. A role that is
    truthy but leaves nothing after trimming (blanks, or not a string) gets
    past that check, is refused by the store and answered with 500, the
    document unchanged. Any other role is accepted, once the document is
    written: the answer is 201 with the new employee, whose identifier is
    generated and whose [isCheckedIn] is false. *)
Theorem post_employees_replies (req : Request) (io : io_result) (w : World) :
  session_user req = true ->
  (truthy (prop k_name (req_body req)) && truthy (prop k_role (req_body req)) = false ->
     post_employees req io w
     = mkHandled w (mkResponse 400 (ReplyError name_and_role_required)) [])
  ∧ (truthy (prop k_name (req_body req)) = true ->
     truthy (prop k_role (req_body req)) = true ->
     (trimmed (prop k_role (req_body req)) = [] ->
        response (post_employees req io w)
        = mkResponse 500 (ReplyError employee_not_created)
        ∧ getState (after (post_employees req io w)) = state w
        ∧ file (after (post_employees req io w)) = file w)
     ∧ (trimmed (prop k_role (req_body req)) ≠ [] ->
        clean (randomUUID (uuids w)) = true ->
        io = IoOk ->
        ∃ e,
          response (post_employees req io w)
          = mkResponse 201 (ReplyEmployee (EmployeeResult e))
          ∧ employees (getState (after (post_employees req io w)))
            = employees (state w) ++ [e]
          ∧ emp_id e = randomUUID (uuids w)
          ∧ emp_isCheckedIn e = false
          ∧ emp_name e = trimmed_or unknown_name (prop k_name (req_body req))
          ∧ emp_role e = trimmed (prop k_role (req_body req)))).
Proof.
  intros Hauth. unfold post_employees, requireAuth. rewrite Hauth.
  set (name := prop k_name (req_body req)).
  set (role := prop k_role (req_body req)).
  set (payload := [ (k_name, name); _; (k_role, role); _ ]).
  split.
  - intros Hf. destruct (truthy name), (truthy role); done.
  - intros -> ->. simpl. split.
    + intros Hrole.
      unfold addEmployee, run, getState, deepClone. simpl.
      unfold addEmployee_task.
      destruct (id_or_fresh payload (uuids w)) as [idv n1].
      destruct (addEmployee_normalised payload idv
                  (truthy (lookup_prop k_isCheckedIn payload)) n1)
        as (i & n' & -> & _).
      cbn [emp_name emp_role].
      change (lookup_prop k_role payload) with role. rewrite Hrole.
      rewrite orb_true_r. done.
    + intros Hrole Hclean ->.
      destruct (addEmployee_accepts payload w) as (e & Hout & Hemp & Hid & Hn & Hr & Hc);
        [done|done|done|].
      destruct (addEmployee payload IoOk w) as [w' out]. simpl in *. subst out.
      exists e. repeat split; done.
Qed.

End RouteFacts.

Section RouteFacts2.
Context `{Host}.

(** X14. PUT /api/employees/:id with a session and truthy [name] and
    [role], for an employee in normal form, replaces name, department and
    role together and keeps the identifier and [isCheckedIn]: a body
    without [department] puts the employee in 'Øvrige', and a role of
    blanks leaves the role empty. For an identifier no employee has, the
    answer is 404 and nothing changes. *)
Theorem put_employee_replaces_fields (req : Request) (io : io_result) (w : World) :
  session_user req = true ->
  truthy (prop k_name (req_body req)) = true ->
  truthy (prop k_role (req_body req)) = true ->
  ((∀ e, e ∈ employees (state w) -> emp_id e ≠ param_id req) ->
     put_employee req io w
     = mkHandled w (mkResponse 404 (ReplyExn (Error employee_not_found))) [])
  ∧ ((∃ e, e ∈ employees (state w) ∧ emp_id e = param_id req) ->
     (∀ e, e ∈ employees (state w) -> emp_id e = param_id req ->
           canonical_employee e = true) ->
     io = IoOk ->
     ∃ old updated,
       old ∈ employees (state w) ∧ emp_id old = param_id req
       ∧ response (put_employee req io w)
         = mkResponse 200 (ReplyEmployee (EmployeeResult updated))
       ∧ updated ∈ employees (getState (after (put_employee req io w)))
       ∧ emp_id updated = param_id req
       ∧ emp_isCheckedIn updated = emp_isCheckedIn old
       ∧ emp_name updated = trimmed_or unknown_name (prop k_name (req_body req))
       ∧ emp_department updated
         = trimmed_or other_department (prop k_department (req_body req))
       ∧ emp_role updated = trimmed (prop k_role (req_body req))
       ∧ emp_photo updated
         = match req_file req with
           | Some filename => trim (employee_photo_path filename)
           | None =>
               if is_string true_text (prop k_removePhoto (req_body req))
               then [] else emp_photo old
           end).
Proof.
  intros Hauth Hname Hrole. unfold put_employee, requireAuth.
  rewrite Hauth, Hname, Hrole. simpl orb. cbv iota zeta.
  set (fields := [ (k_name, prop k_name (req_body req)); _; _ ]).
  set (updates := match req_file req with Some _ => _ | None => _ end).
  unfold updateEmployee, run, getState, deepClone. simpl task_of.
  split.
  - intros Hno.
    rewrite updateEmployee_task_applies by (intros e He Hid; by destruct (Hno e He)).
    rewrite (proj2 (last_match_None (fun e => emp_id e = param_id req) _) Hno).
    simpl. rewrite map_no_match by done. unfold with_state. by rewrite world_eta.
  - intros (e & He & Hid) Hcanon ->.
    rewrite updateEmployee_task_applies by done.
    destruct (last_match_is_Some (fun e => emp_id e = param_id req) _ e He Hid)
      as [old Hold].
    rewrite Hold. unfold finish, deepClone. simpl.
    apply last_match_Some in Hold as [Hin Holdid].
    exists old, (apply_updates old updates). split; [done|]. split; [done|].
    split; [done|]. split.
    { apply list_elem_of_fmap. exists old. by rewrite decide_True. }
    split; [done|].
    subst updates. destruct (req_file req) as [filename|]; [by repeat split|].
    destruct (is_string true_text (prop k_removePhoto (req_body req)));
      by repeat split.
Qed.

(** X15. DELETE /api/employees/:id with a session answers 404 and changes
    nothing when no employee has the identifier. Otherwise, once the
    document is written, it answers 204, no employee and no absence of the
    document refers to the identifier any more, and the photo of the removed
    employee is handed to [removeFile] exactly when it is not empty. *)
Theorem delete_employee_cleans_up (req : Request) (io : io_result) (w : World) :
  session_user req = true ->
  ((∀ e, e ∈ employees (state w) -> emp_id e ≠ param_id req) ->
     delete_employee req io w
     = mkHandled w (mkResponse 404 (ReplyExn (Error employee_not_found))) [])
  ∧ ((∃ e, e ∈ employees (state w) ∧ emp_id e = param_id req) ->
     io = IoOk ->
     ∃ removed,
       removed ∈ employees (state w) ∧ emp_id removed = param_id req
       ∧ response (delete_employee req io w) = mkResponse 204 ReplyEnd
       ∧ removeFile_calls (delete_employee req io w)
         = (if nonempty (emp_photo removed) then [emp_photo removed] else [])
       ∧ (∀ e, e ∈ employees (getState (after (delete_employee req io w))) ->
               emp_id e ≠ param_id req)
       ∧ (∀ a, a ∈ absences (getState (after (delete_employee req io w))) ->
               abs_employeeId a ≠ param_id req)).
Proof.
  intros Hauth. unfold delete_employee, requireAuth. rewrite Hauth.
  unfold removeEmployee, run, getState, deepClone. simpl. unfold removeEmployee_task.
  rewrite removeEmployee_scan_spec. split.
  - intros Hno.
    by rewrite (proj2 (last_match_None (fun e => emp_id e = param_id req) _) Hno).
  - intros (e & He & Hid) ->.
    destruct (last_match_is_Some (fun e => emp_id e = param_id req) _ e He Hid)
      as [removed Hr].
    rewrite Hr. simpl. exists removed.
    apply last_match_Some in Hr as [Hin Hrid].
    repeat split; try done; intros x Hx%list_elem_of_filter; tauto.
Qed.

(** X16. The logo routes with a session. POST /api/branding/logo with an
    uploaded file puts its path in the branding and, once written, answers
    with it; the path it replaced is handed to [removeFile] exactly when it
    is not empty and is another path. DELETE /api/branding/logo empties the
    logo and hands the previous path to [removeFile] exactly when it is not
    empty. Without a file, POST answers 400 and changes nothing. *)
Theorem logo_routes_hand_over (req : Request) (w : World) :
  session_user req = true ->
  (req_file req = None ->
     ∀ io, post_branding_logo req io w
           = mkHandled w (mkResponse 400 (ReplyError no_file_received)) [])
  ∧ (∀ filename, req_file req = Some filename ->
       response (post_branding_logo req IoOk w)
       = mkResponse 200 (ReplyLogo (branding_logo_path filename))
       ∧ logo (branding (getState (after (post_branding_logo req IoOk w))))
         = branding_logo_path filename
       ∧ removeFile_calls (post_branding_logo req IoOk w)
         = (if nonempty (logo (branding (state w)))
               && negb (bool_decide (logo (branding (state w))
                                     = branding_logo_path filename))
            then [logo (branding (state w))] else []))
  ∧ response (delete_branding_logo req IoOk w) = mkResponse 200 ReplySuccess
  ∧ logo (branding (getState (after (delete_branding_logo req IoOk w)))) = []
  ∧ removeFile_calls (delete_branding_logo req IoOk w)
    = (if nonempty (logo (branding (state w))) then [logo (branding (state w))] else []).
Proof.
  intros Hauth. unfold post_branding_logo, delete_branding_logo, requireAuth.
  rewrite Hauth. split; [by intros ->|]. split; [|done].
  by intros filename ->.
Qed.

(** X17. Without a session, every route that writes, the status route
    apart, answers 401, leaves the store as it is and hands nothing to
    [removeFile]. *)
Theorem writes_need_session (dateOf : value -> option Z) (route : guarded_route)
    (req : Request) (io : io_result) (w : World) :
  session_user req = false ->
  handle dateOf route req io w
  = mkHandled w (mkResponse 401 (ReplyError not_logged_in)) [].
Proof.
  intros Hno. destruct route; simpl;
    unfold post_branding_logo, delete_branding_logo, post_employees, put_employee,
      delete_employee, post_absences, delete_absence, requireAuth;
    by rewrite Hno.
Qed.

(** What the task of [addAbsence] decides on. *)
Lemma addAbsence_task_decides (payload : object) (w : World) :
  if acceptable_absence payload
  then ∃ a, (addAbsence_task payload w).2 = inr (PendingAbsence a)
         ∧ lookup_prop k_employeeId payload = VString (abs_employeeId a)
         ∧ abs_reason a = match lookup_prop k_reason payload with
                          | VString r => r
                          | _ => other_reason
                          end
  else (addAbsence_task payload w).2 = inl (Error invalid_absence).
Proof.
  unfold acceptable_absence, addAbsence_task.
  destruct (id_or_fresh payload (uuids w)) as [idv n1].
  rewrite normaliseAbsence_payload.
  generalize (lookup_prop k_employeeId payload) (lookup_prop k_from payload)
    (lookup_prop k_to payload).
  intros ve vf vt.
  destruct ve as [| | | |e| |], vf as [| | | |f| |], vt as [| | | |t| |];
    simpl; try done.
  destruct (nonempty e && nonempty f && nonempty t && negb (date_gt f t)); [|done].
  destruct idv; try (by eexists).
  destruct (nonempty (trim s)); by eexists.
Qed.

Section Absences.
Variable dateOf : value -> option Z.
Hypothesis dateOf_string : ∀ s, dateOf (VString s) = dateParse s.

(** X18. POST /api/absences with a session, when its own checks pass
    (employeeId, from and to truthy, from not a later date than to, an
    employee with that identifier in the document): if [from] and [to] are
    strings the store accepts the absence and, once the document is written,
    the answer is 201 with an absence of that employee, the reason being
    the body's when that is a non-empty string and 'other' otherwise; if
    [from] or [to] is not a string the store refuses, the answer is 500 and
    the document is unchanged. *)
Theorem post_absences_replies (req : Request) (io : io_result) (w : World) :
  session_user req = true ->
  truthy (prop k_employeeId (req_body req)) = true ->
  truthy (prop k_from (req_body req)) = true ->
  truthy (prop k_to (req_body req)) = true ->
  later_date dateOf (prop k_from (req_body req)) (prop k_to (req_body req)) = false ->
  (∃ e, e ∈ employees (state w)
        ∧ prop k_employeeId (req_body req) = VString (emp_id e)) ->
  ((∃ f t, prop k_from (req_body req) = VString f
           ∧ prop k_to (req_body req) = VString t) ->
     io = IoOk ->
     ∃ a,
       response (post_absences dateOf req io w)
       = mkResponse 201 (ReplyAbsence (AbsenceResult a))
       ∧ prop k_employeeId (req_body req) = VString (abs_employeeId a)
       ∧ abs_reason a = match prop k_reason (req_body req) with
                        | VString (c :: r) => c :: r
                        | _ => other_reason
                        end
       ∧ filter (fun x => abs_employeeId x = abs_employeeId a)
           (absences (getState (after (post_absences dateOf req io w)))) = [a])
  ∧ (as_string (prop k_from (req_body req)) = None
     ∨ as_string (prop k_to (req_body req)) = None ->
     response (post_absences dateOf req io w)
     = mkResponse 500 (ReplyError absence_not_registered)
     ∧ getState (after (post_absences dateOf req io w)) = state w).
Proof.
  intros Hauth Heid Hfrom Hto Hlater (e & He & Hide).
  unfold post_absences, requireAuth. rewrite Hauth, Heid, Hfrom, Hto, Hlater.
  simpl orb. cbv iota.
  assert (existsb (fun employee =>
                     is_string (emp_id employee) (prop k_employeeId (req_body req)))
            (employees (getState w)) = true) as ->.
  { apply existsb_exists. exists e. split; [by apply list_elem_of_In|].
    rewrite Hide. simpl. by apply bool_decide_eq_true. }
  simpl negb. cbv iota.
  set (payload := [ (k_employeeId, _); (k_from, _); (k_to, _); (k_reason, _) ]).
  pose proof (addAbsence_task_decides payload w) as Hdec.
  pose proof (addAbsence_task_result payload w) as Hres.
  unfold addAbsence, run, getState, deepClone. simpl task_of.
  split.
  - intros (f & t & Hf & Ht) ->.
    assert (acceptable_absence payload = true) as Hacc.
    { unfold acceptable_absence, payload. simpl.
      change (lookup_prop k_employeeId _) with (prop k_employeeId (req_body req)).
      rewrite Hide, Hf, Ht in *. simpl.
      simpl in Heid, Hfrom, Hto. unfold nonempty.
      destruct (emp_id e), f, t; try done. simpl.
      unfold later_date in Hlater. rewrite !dateOf_string in Hlater.
      unfold date_gt. by rewrite Hlater. }
    rewrite Hacc in Hdec. destruct Hdec as (a & Ha & Haid & Hreason).
    destruct (addAbsence_task payload w) as [w1 [err|pd]]; simpl in *; [done|].
    destruct Hres as (a' & -> & Habs & _). injection Ha as <-.
    exists a'. split; [done|]. split; [done|]. split.
    + rewrite Hreason. unfold payload. simpl.
      change (lookup_prop k_reason _)
        with (if truthy (prop k_reason (req_body req))
              then prop k_reason (req_body req) else VString other_reason).
      destruct (prop k_reason (req_body req)) as [| |[]| | [|c r]| |]; try done.
      simpl. by destruct (negb (z =? 0)%Z).
    + rewrite Habs. apply filter_supersede.
  - intros Hnot.
    assert (acceptable_absence payload = false) as Hacc.
    { unfold acceptable_absence.
      change (lookup_prop k_employeeId payload) with (prop k_employeeId (req_body req)).
      change (lookup_prop k_from payload) with (prop k_from (req_body req)).
      change (lookup_prop k_to payload) with (prop k_to (req_body req)).
      rewrite Hide. simpl as_string.
      destruct Hnot as [-> | ->]; [done|].
      by destruct (as_string (prop k_from (req_body req))). }
    rewrite Hacc in Hdec.
    destruct (addAbsence_task payload w) as [w1 [err|pd]]; simpl in *; [|done].
    by destruct Hres as [_ ->].
Qed.

End Absences.

End RouteFacts2.

Section Consistency.
Context `{Host}.

(** X7. [addEmployee] takes an identifier the payload supplies as it is,
    trimmed, without looking whether an employee has it already: the
    document then holds two employees with one identifier. *)
Theorem addEmployee_keeps_supplied_id (payload : object) (s : jsstring)
    (io : io_result) (w : World) :
  lookup_prop k_id payload = VString s ->
  nonempty (trim s) = true ->
  trimmed (lookup_prop k_role payload) ≠ [] ->
  ∃ e,
    employees (getState (addEmployee payload io w).1) = employees (state w) ++ [e]
    ∧ emp_id e = trim s
    ∧ (io = IoOk -> (addEmployee payload io w).2 = Fulfilled (EmployeeResult e))
    ∧ ((∃ x, x ∈ employees (state w) ∧ emp_id x = trim s) ->
       ¬ NoDup (map emp_id (employees (getState (addEmployee payload io w).1)))).
Proof.
  intros Hid Htrim Hrole.
  assert (truthy (VString s) = true) as Htruthy.
  { destruct s; [done|done]. }
  unfold addEmployee, run, getState, deepClone. simpl task_of.
  unfold addEmployee_task, id_or_fresh. rewrite Hid, Htruthy.
  destruct (addEmployee_normalised payload (VString s)
              (truthy (lookup_prop k_isCheckedIn payload)) (uuids w))
    as (i & n' & -> & Hi).
  rewrite Htrim in Hi. injection Hi as -> ->.
  cbn [emp_name emp_role]. rewrite trimmed_or_nonempty by done.
  destruct (trimmed (lookup_prop k_role payload)) eqn:Er; [done|].
  simpl negb. simpl orb. cbv iota.
  eexists. split; [by destruct io|]. split; [by destruct io|].
  split; [by intros ->|].
  intros (x & Hx & Hxid).
  assert (employees (state (persist io
            (with_state w
               (mkDocument (branding (state w))
                  (employees (state w) ++
                     [mkEmployee (trim s)
                        (trimmed_or unknown_name (lookup_prop k_name payload))
                        (trimmed_or other_department (lookup_prop k_department payload))
                        (n :: l) (trimmed (lookup_prop k_photo payload))
                        (truthy (lookup_prop k_isCheckedIn payload))])
                  (absences (state w))) (uuids w))).1)
          = employees (state w) ++
              [mkEmployee (trim s)
                 (trimmed_or unknown_name (lookup_prop k_name payload))
                 (trimmed_or other_department (lookup_prop k_department payload))
                 (n :: l) (trimmed (lookup_prop k_photo payload))
                 (truthy (lookup_prop k_isCheckedIn payload))]) as Hemp
    by by destruct io.
  destruct (persist io _) as [w2 [err|]]; simpl in *; rewrite Hemp, map_app;
    intros (_ & Hdisj & _)%NoDup_app;
    (apply (Hdisj (trim s)); [|left]);
    apply list_elem_of_fmap; by exists x.
Qed.

Hypothesis randomUUID_clean : ∀ k, clean (randomUUID k) = true.

Lemma map_matching_ids (id : jsstring) (f : Employee -> nat -> Employee * nat)
    (es : list Employee) (n : nat) :
  (∀ e k, e ∈ es -> emp_id e = id -> emp_id (f e k).1 = emp_id e) ->
  map emp_id (map_matching id f es n).1.1 = map emp_id es.
Proof.
  revert n. induction es as [|e es IH]; intros n Hf; simpl; [done|].
  destruct (decide (emp_id e = id)) as [Heq|Hne].
  - pose proof (Hf e n (list_elem_of_here _ _) Heq) as He.
    destruct (f e n) as [e' n1].
    specialize (IH n1 (fun x k Hx => Hf x k (list_elem_of_further _ _ _ Hx))).
    destruct (map_matching id f es n1) as [[r u] n2]. simpl in *. by rewrite He, IH.
  - specialize (IH n (fun x k Hx => Hf x k (list_elem_of_further _ _ _ Hx))).
    destruct (map_matching id f es n) as [[r u] n2]. simpl in *. by rewrite IH.
Qed.

Lemma references_same_ids (d d' : Document) :
  map emp_id (employees d') = map emp_id (employees d) ->
  absences d' = absences d ->
  references_hold d -> references_hold d'.
Proof. unfold references_hold. intros -> ->. done. Qed.

Lemma task_keeps_consistent (o : op) (w : World) :
  consistent (state w) -> refers o w -> consistent (state (task_of o w).1).
Proof.
  intros [Hcanon Href] Hsafe.
  split; [by apply task_keeps_normal_form|].
  destruct o as [p| |p|i u|i|i v|p|i]; simpl.
  - done.
  - done.
  - pose proof (addEmployee_task_result p w) as Hr.
    destruct (addEmployee_task p w) as [w1 [err|pd]] eqn:Et; simpl in *.
    + pose proof (task_thrown (AddEmployee p) w err) as Ht. simpl in Ht.
      rewrite Et in Ht. destruct (Ht eq_refl) as [Hs _]. simpl in Hs.
      by rewrite Hs.
    + destruct (Hr pd eq_refl) as (e & _ & He & Ha & _).
      intros a. rewrite Ha, He, map_app. intros Hin%Href.
      apply elem_of_app. by left.
  - unfold updateEmployee_task.
    pose proof (map_matching_ids i (fun e => normaliseEmployee (VObject (merged e u)))
                  (employees (state w)) (uuids w)) as Hids.
    destruct (map_matching i _ _ _) as [[es upd] n]. simpl in Hids.
    assert (map emp_id es = map emp_id (employees (state w))) as Hsame.
    { apply Hids. intros e k He Hid. rewrite normalise_merged; [done|].
      rewrite forallb_forall in Hcanon. by apply Hcanon, list_elem_of_In. }
    destruct upd; simpl; by apply (references_same_ids (state w)).
  - unfold removeEmployee_task. rewrite removeEmployee_scan_spec.
    destruct (last _); simpl; [|done].
    intros a [Hne Ha]%list_elem_of_filter. simpl.
    apply Href in Ha.
    change (map emp_id ?l) with (emp_id <$> l) in *.
    apply list_elem_of_fmap in Ha as (x & Heq & Hx).
    apply list_elem_of_fmap. exists x. split; [done|].
    apply list_elem_of_filter. split; [congruence|done].
  - unfold setEmployeeStatus_task.
    pose proof (map_matching_ids i (fun e n => (set_checked e (truthy v), n))
                  (employees (state w)) (uuids w)) as Hids.
    destruct (map_matching i _ _ _) as [[es upd] n]. simpl in Hids.
    assert (map emp_id es = map emp_id (employees (state w))) as Hsame by by apply Hids.
    destruct upd; simpl; by apply (references_same_ids (state w)).
  - destruct Hsafe as (e & He & Hide).
    pose proof (addAbsence_task_result p w) as Hr.
    pose proof (addAbsence_task_decides p w) as Hd.
    destruct (addAbsence_task p w) as [w1 [err|pd]]; simpl in *.
    + destruct Hr as [_ ->]. done.
    + destruct Hr as (a & -> & Ha & He' & _).
      destruct (acceptable_absence p); [|done].
      destruct Hd as (a' & [= <-] & Haid & _).
      rewrite Hide in Haid. injection Haid as Haid.
      intros x. rewrite Ha, He'. intros [Hx|Hx]%elem_of_app.
      * apply list_elem_of_filter in Hx as [_ Hx]. by apply Href.
      * apply list_elem_of_singleton in Hx as ->. rewrite <- Haid.
        change (map emp_id ?l) with (emp_id <$> l).
        apply list_elem_of_fmap. by exists e.
  - unfold removeAbsence_task. rewrite removeAbsence_scan_spec.
    destruct (last _); simpl; [|done].
    intros x [_ Hx]%list_elem_of_filter. by apply Href.
Qed.

Lemma run_keeps_consistent (o : op) (io : io_result) (w : World) :
  consistent (state w) -> refers o w -> consistent (state (run o io w).1).
Proof. rewrite run_state. apply task_keeps_consistent. Qed.

(** X19. The routes keep the document consistent: when the employees are
    in normal form and every absence is an absence of an employee of the
    document, the same holds after any route has run, the status route
    included, whatever the request and however the write ends. *)
Theorem routes_keep_consistent (dateOf : value -> option Z) (req : Request)
    (io : io_result) (w : World) :
  consistent (state w) ->
  (∀ route, consistent (getState (after (handle dateOf route req io w))))
  ∧ consistent (getState (after (patch_employee_status req io w))).
Proof.
  intros Hw.
  assert (∀ o (k : World -> retval -> Handled) (k' : World -> exn -> Handled),
            refers o w ->
            (∀ w' r, after (k w' r) = w') -> (∀ w' e, after (k' w' e) = w') ->
            consistent (state (after match run o io w with
                                     | (w', Fulfilled r) => k w' r
                                     | (w', Rejected e) => k' w' e
                                     end))) as Hrun.
  { intros o k k' Hsafe Hk Hk'.
    pose proof (run_keeps_consistent o io w Hw Hsafe) as Hc.
    destruct (run o io w) as [w' [r|e]]; simpl in Hc; [by rewrite Hk|by rewrite Hk']. }
  unfold getState, deepClone. split.
  - intros route. destruct route; simpl;
      unfold post_branding_logo, delete_branding_logo, post_employees, put_employee,
        delete_employee, post_absences, delete_absence, requireAuth;
      destruct (session_user req); try done.
    + destruct (req_file req); [|done]. by apply Hrun.
    + by apply Hrun.
    + destruct (_ || _); [done|]. by apply Hrun.
    + destruct (_ || _); [done|]. by apply Hrun.
    + by apply Hrun.
    + destruct (_ || _); [done|]. destruct (later_date _ _ _); [done|].
      destruct (existsb _ _) eqn:Eex; [|done]. simpl negb. cbv iota.
      apply Hrun; try done. simpl.
      apply existsb_exists in Eex as (e & He%list_elem_of_In & Heq).
      exists e. split; [done|].
      change (lookup_prop k_employeeId _) with (prop k_employeeId (req_body req)).
      destruct (prop k_employeeId (req_body req)); try done.
      simpl in Heq. apply bool_decide_eq_true in Heq. by subst.
    + by apply Hrun.
  - unfold patch_employee_status. by apply Hrun.
Qed.

End Consistency.

(** ** More properties on examples *)

Lemma trimEnd_fixed (s : jsstring) : starts_clean (reverse s) -> trimEnd s = s.
Proof.
  intros Hs. unfold trimEnd. by rewrite trimStart_fixed, reverse_involutive.
Qed.

Lemma test_uuid_clean (k : nat) : clean (test_uuid k) = true.
Proof.
  unfold clean, trim, test_uuid.
  rewrite (trimStart_fixed (lit "uuid-" ++ replicate k 120%N)) by done.
  rewrite trimEnd_fixed.
  - by rewrite bool_decide_eq_true_2.
  - rewrite reverse_app, reverse_replicate. by destruct k.
Qed.

Lemma removeAbsence_removes_witness :
  removeAbsence (H := test_host) (lit "nothing") IoOk fresh_world
  = (fresh_world, Rejected (Error absence_not_found)).
Proof.
  destruct (removeAbsence_removes (H := test_host) (lit "nothing") IoOk fresh_world)
    as [Hno _].
  refine (proj1 (Hno _)). intros a Ha. by apply elem_of_nil in Ha.
Defined.

Lemma addAbsence_then_removeAbsence_witness :
  absences (getState
    (removeAbsence (H := test_host) (test_uuid 0) IoOk
       (addAbsence (H := test_host) (absence_payload (lit "freja-holm")) IoOk
          fresh_world).1).1) = [].
Proof.
  refine (proj1 (addAbsence_then_removeAbsence (H := test_host)
                   (absence_payload (lit "freja-holm")) IoOk IoOk fresh_world
                   (mkAbsence (test_uuid 0) (lit "freja-holm") (lit "2024-01-01")
                      (lit "2024-01-02") other_reason) _ _)).
  - vm_compute. reflexivity.
  - intros x Hx. by apply elem_of_nil in Hx.
Defined.

Lemma addEmployee_then_removeEmployee_witness :
  employees (getState
    (removeEmployee (H := test_host) (test_uuid 0) IoOk
       (addEmployee (H := test_host) payload_A_B IoOk fresh_world).1).1)
  = DEFAULT_EMPLOYEES.
Proof.
  refine (proj1 (addEmployee_then_removeEmployee (H := test_host) payload_A_B IoOk IoOk
                   fresh_world
                   (mkEmployee (test_uuid 0) (lit "A") other_department (lit "B") []
                      false) _ _ _)).
  - vm_compute. reflexivity.
  - apply (proj1 (Forall_forall (fun x => emp_id x ≠ test_uuid 0) _)).
    repeat (apply List.Forall_cons || apply List.Forall_nil); vm_compute; discriminate.
  - intros a Ha. by apply elem_of_nil in Ha.
Defined.

Lemma addEmployee_keeps_supplied_id_witness :
  ¬ NoDup (map emp_id (employees (getState
      (addEmployee (H := test_host)
         ((k_id, VString (lit " freja-holm ")) :: payload_A_B) IoOk fresh_world).1))).
Proof.
  destruct (addEmployee_keeps_supplied_id (H := test_host)
              ((k_id, VString (lit " freja-holm ")) :: payload_A_B)
              (lit " freja-holm ") IoOk fresh_world) as (e & _ & _ & _ & Hdup).
  - reflexivity.
  - vm_compute. reflexivity.
  - vm_compute. discriminate.
  - apply Hdup.
    exists (mkEmployee (lit "freja-holm") (lit "Freja Holm") (lit "Design")
              (lit "Lead Designer") [] true).
    split; [|vm_compute; reflexivity].
    apply (bool_decide_unpack _). vm_compute. exact I.
Defined.

Lemma init_without_file_witness :
  ∃ w' err,
    init (H := test_host) 1 IoOk fresh_world = Some (w', err)
    ∧ getState w' = DEFAULT_STATE.
Proof.
  destruct (init_without_file (H := test_host) 1 IoOk fresh_world)
    as (w' & err & Hinit & Hstate & _).
  - by left.
  - by exists w', err.
Defined.

Lemma normaliseState_gives_valid_witness :
  ∃ d n',
    normaliseState (H := test_host) 1 twice_absent 0 = Some (d, n')
    ∧ valid_document (H := test_host) d = true
    ∧ normaliseState (H := test_host) 0 (documentValue d) 5 = Some (d, 5).
Proof.
  destruct (normaliseState (H := test_host) 1 twice_absent 0) as [[d n']|] eqn:E.
  - exists d, n'. split; [done|].
    destruct (normaliseState_gives_valid (H := test_host) test_uuid_clean 1
                twice_absent 0 n' d E) as (Hv & _ & Hstable).
    split; [exact Hv|exact (Hstable 0 5)].
  - vm_compute in E. discriminate E.
Defined.

Lemma normaliseState_returns_witness :
  ∃ d n', normaliseState (H := test_host) 1 twice_absent 0 = Some (d, n').
Proof.
  apply (normaliseState_returns (H := test_host) 1 twice_absent 0).
  - exact test_uuid_inj.
  - intros k. apply (proj1 (Forall_forall (fun x => own_id x ≠ Some (randomUUID k)) _)).
    repeat constructor; vm_compute; discriminate.
  - lia.
Defined.

Lemma run_all_keeps_normal_form_witness :
  forallb canonical_employee
    (employees (state (run_all (H := test_host) second_write_fails 0 three_requests
                         fresh_world).1)) = true.
Proof.
  apply (run_all_keeps_normal_form (H := test_host) test_uuid_clean).
  vm_compute. reflexivity.
Defined.

Lemma default_employees_canonical (id : jsstring) :
  ∀ e, e ∈ employees (state fresh_world) -> emp_id e = id ->
       canonical_employee e = true.
Proof.
  apply (proj1 (Forall_forall (fun e => emp_id e = id -> canonical_employee e = true) _)).
  repeat (apply List.Forall_cons || apply List.Forall_nil);
    intros _; vm_compute; reflexivity.
Qed.

Lemma freja_is_employed :
  ∃ e, e ∈ employees (state fresh_world) ∧ emp_id e = lit "freja-holm".
Proof.
  exists (mkEmployee (lit "freja-holm") (lit "Freja Holm") (lit "Design")
            (lit "Lead Designer") [] true).
  split; [|reflexivity]. apply (bool_decide_unpack _). vm_compute. exact I.
Qed.

Lemma fresh_world_consistent : consistent (state fresh_world).
Proof.
  split; [vm_compute; reflexivity|]. intros a Ha. by apply elem_of_nil in Ha.
Qed.

Lemma patch_status_sets_status_witness :
  ∃ updated,
    response (patch_employee_status (H := test_host)
                (no_session status_body) IoOk fresh_world)
    = mkResponse 200 (ReplyEmployee (EmployeeResult updated))
    ∧ emp_isCheckedIn updated = false.
Proof.
  destruct (patch_status_sets_status (H := test_host) (no_session status_body) IoOk
              fresh_world (default_employees_canonical _)) as (_ & _ & Hyes).
  destruct (Hyes freja_is_employed eq_refl) as (updated & Hr & _ & Hc & _).
  exists updated. split; [exact Hr|exact Hc].
Defined.

Lemma post_employees_replies_witness :
  response (post_employees (H := test_host)
              (with_session [] blank_role_body None) IoOk fresh_world)
  = mkResponse 500 (ReplyError employee_not_created)
  ∧ ∃ e,
      response (post_employees (H := test_host)
                  (with_session [] name_role_body None) IoOk fresh_world)
      = mkResponse 201 (ReplyEmployee (EmployeeResult e))
      ∧ emp_id e = test_uuid 0.
Proof.
  split.
  - destruct (post_employees_replies (H := test_host)
                (with_session [] blank_role_body None) IoOk fresh_world eq_refl)
      as [_ Hpast].
    destruct (Hpast eq_refl eq_refl) as [Hblank _].
    refine (proj1 (Hblank _)). vm_compute. reflexivity.
  - destruct (post_employees_replies (H := test_host)
                (with_session [] name_role_body None) IoOk fresh_world eq_refl)
      as [_ Hpast].
    destruct (Hpast eq_refl eq_refl) as [_ Hgood].
    destruct Hgood as (e & Hr & _ & Hid & _).
    + vm_compute. discriminate.
    + exact (test_uuid_clean 0).
    + reflexivity.
    + exists e. split; [exact Hr|exact Hid].
Defined.

Lemma put_employee_replaces_fields_witness :
  ∃ updated,
    response (put_employee (H := test_host)
                (with_session (lit "freja-holm") name_role_body None) IoOk fresh_world)
    = mkResponse 200 (ReplyEmployee (EmployeeResult updated))
    ∧ emp_department updated = other_department.
Proof.
  destruct (put_employee_replaces_fields (H := test_host)
              (with_session (lit "freja-holm") name_role_body None) IoOk fresh_world
              eq_refl eq_refl eq_refl) as [_ Hyes].
  destruct (Hyes freja_is_employed (default_employees_canonical _) eq_refl)
    as (old & updated & _ & _ & Hr & _ & _ & _ & _ & Hdept & _).
  exists updated. split; [exact Hr|]. refine (eq_trans Hdept _).
  vm_compute. reflexivity.
Defined.

Lemma delete_employee_cleans_up_witness :
  response (delete_employee (H := test_host)
              (with_session (lit "freja-holm") VUndefined None) IoOk fresh_world)
  = mkResponse 204 ReplyEnd.
Proof.
  destruct (delete_employee_cleans_up (H := test_host)
              (with_session (lit "freja-holm") VUndefined None) IoOk fresh_world
              eq_refl) as [_ Hyes].
  destruct (Hyes freja_is_employed eq_refl) as (removed & _ & _ & Hr & _).
  exact Hr.
Defined.

Lemma logo_routes_hand_over_witness :
  response (post_branding_logo (H := test_host)
              (with_session [] VUndefined (Some (lit "logo-1.png"))) IoOk fresh_world)
  = mkResponse 200 (ReplyLogo (branding_logo_path (lit "logo-1.png"))).
Proof.
  destruct (logo_routes_hand_over (H := test_host)
              (with_session [] VUndefined (Some (lit "logo-1.png"))) fresh_world
              eq_refl) as (_ & Hpost & _).
  exact (proj1 (Hpost (lit "logo-1.png") eq_refl)).
Defined.

Lemma writes_need_session_witness :
  handle (H := test_host) test_dateOf PostAbsences
    (no_session (absence_body (VString (lit "2024-01-01")))) IoOk fresh_world
  = mkHandled fresh_world (mkResponse 401 (ReplyError not_logged_in)) [].
Proof.
  exact (writes_need_session (H := test_host) test_dateOf PostAbsences
           (no_session (absence_body (VString (lit "2024-01-01")))) IoOk fresh_world
           eq_refl).
Defined.

Lemma test_dateOf_string (s : jsstring) :
  test_dateOf (VString s) = dateParse (Host := test_host) s.
Proof. reflexivity. Qed.

Lemma post_absences_replies_witness :
  response (post_absences (H := test_host) test_dateOf
              (with_session [] (absence_body (VNumber 5)) None) IoOk fresh_world)
  = mkResponse 500 (ReplyError absence_not_registered)
  ∧ ∃ a,
      response (post_absences (H := test_host) test_dateOf
                  (with_session [] (absence_body (VString (lit "2024-01-01"))) None)
                  IoOk fresh_world)
      = mkResponse 201 (ReplyAbsence (AbsenceResult a))
      ∧ abs_reason a = other_reason.
Proof.
  assert (∃ e, e ∈ employees (state fresh_world)
               ∧ VString (lit "freja-holm") = VString (emp_id e)) as Hemp.
  { destruct freja_is_employed as (e & He & Hid). exists e. split; [done|].
    by rewrite Hid. }
  split.
  - destruct (post_absences_replies (H := test_host) test_dateOf test_dateOf_string
                (with_session [] (absence_body (VNumber 5)) None) IoOk fresh_world
                eq_refl eq_refl eq_refl eq_refl eq_refl Hemp) as [_ Hbad].
    refine (proj1 (Hbad _)). by left.
  - destruct (post_absences_replies (H := test_host) test_dateOf test_dateOf_string
                (with_session [] (absence_body (VString (lit "2024-01-01"))) None)
                IoOk fresh_world eq_refl eq_refl eq_refl eq_refl eq_refl Hemp)
      as [Hgood _].
    destruct Hgood as (a & Hr & _ & Hreason & _).
    + by eexists _, _.
    + reflexivity.
    + exists a. split; [exact Hr|exact Hreason].
Defined.

Lemma routes_keep_consistent_witness :
  consistent (getState (after (handle (H := test_host) test_dateOf DeleteEmployee
                                 (with_session (lit "freja-holm") VUndefined None)
                                 (WriteFailed (lit "ENOSPC") Corrupt) fresh_world))).
Proof.
  exact (proj1 (routes_keep_consistent (H := test_host) test_uuid_clean test_dateOf
                  (with_session (lit "freja-holm") VUndefined None)
                  (WriteFailed (lit "ENOSPC") Corrupt) fresh_world
                  fresh_world_consistent) DeleteEmployee).
Defined.
